(** * H.235 media encryption of H323Plus: src/h235/h235crypto.cxx

    A shallow embedding of the ciphertext-stealing helpers, of the relaxed
    final-block decode, of [H235CryptoEngine] and of [H235Session], with the
    properties of their specification.

    C [int]s are [Z]; byte arrays are [list byte], a pointer into an array is
    the array with [skipn] applied; the bytes a callee stores through its
    [out] pointer are returned as a list, together with [*outl].  Lengths are
    those of buffers held in memory, far below [2^31]: no [int] operation of
    this file wraps. *)

From Stdlib Require Import String ZArith List Lia Bool.
From Stdlib Require Strings.Byte.
Import ListNotations.
Open Scope Z_scope.

(* ================================================================== *)
(** ** Bytes and memory *)

Abbreviation byte := Byte.byte.

(** [a ^ b] on [unsigned char]. *)
Definition byte_xor (a b : byte) : byte :=
  let '(a0, (a1, (a2, (a3, (a4, (a5, (a6, a7))))))) := Byte.to_bits a in
  let '(b0, (b1, (b2, (b3, (b4, (b5, (b6, b7))))))) := Byte.to_bits b in
  Byte.of_bits (xorb a0 b0, (xorb a1 b1, (xorb a2 b2, (xorb a3 b3,
               (xorb a4 b4, (xorb a5 b5, (xorb a6 b6, xorb a7 b7))))))).

(** Integer promotion of an [unsigned char], and the conversion back. *)
Definition uchar_to_int (b : byte) : Z := Z.of_N (Byte.to_N b).

Definition int_to_uchar (z : Z) : byte :=
  match Byte.of_N (Z.to_N (z mod 256)) with
  | Some b => b
  | None => Byte.x00
  end.

(** [memcpy(&dst[off], src, n)]: the array [dst] afterwards. *)
Definition memcpy (dst : list byte) (off : Z) (src : list byte) (n : Z) : list byte :=
  firstn (Z.to_nat off) dst ++ firstn (Z.to_nat n) src
    ++ skipn (Z.to_nat off + Z.to_nat n) dst.

(** [memset(&dst[off], c, n)]. *)
Definition memset (dst : list byte) (off : Z) (c : byte) (n : Z) : list byte :=
  firstn (Z.to_nat off) dst ++ repeat c (Z.to_nat n)
    ++ skipn (Z.to_nat off + Z.to_nat n) dst.

(** [for (i = 0; i < n; i++) a[i] = a[i] ^ b[i];] *)
Fixpoint xor_loop (n : nat) (a b : list byte) : list byte :=
  match n, a, b with
  | S n', x :: a', y :: b' => byte_xor x y :: xor_loop n' a' b'
  | _, _, _ => a
  end.

(** [for (i = 0; i < n; i++) out[i] = src[i];] *)
Fixpoint copy_loop (n : nat) (src : list byte) : list byte :=
  match n, src with
  | S n', x :: src' => x :: copy_loop n' src'
  | _, _ => []
  end.

(** A [PBYTEArray] of [n] bytes is created zero-filled; [SetSize] cuts it or
    extends it with zero bytes. *)
Definition PBYTEArray := list byte.

Definition PBYTEArray_new (n : Z) : PBYTEArray := repeat Byte.x00 (Z.to_nat n).

Definition SetSize (a : PBYTEArray) (n : Z) : PBYTEArray :=
  firstn (Z.to_nat n) a ++ repeat Byte.x00 (Z.to_nat n - length a).

Definition GetSize (a : PBYTEArray) : Z := Z.of_nat (length a).

(** How a call ends: it returns, or [OPENSSL_assert] stops the process, or
    it works on a cipher context that was never initialised, which C++ leaves
    undefined. *)
Inductive outcome (A : Type) : Type :=
| Returns (a : A)
| Aborts
| Undefined.
Arguments Returns {A} a.
Arguments Aborts {A}.
Arguments Undefined {A}.

Definition obind {A B} (o : outcome A) (f : A -> outcome B) : outcome B :=
  match o with
  | Returns a => f a
  | Aborts => Aborts
  | Undefined => Undefined
  end.

Notation "x <- c ;; k" := (obind c (fun x => k))
  (at level 61, c at next level, right associativity).

(* ================================================================== *)
(** ** OpenSSL's cipher descriptor and cipher context (evp.h) *)

Definition EVP_MAX_IV_LENGTH : Z := 16.
Definition EVP_MAX_BLOCK_LENGTH : Z := 32.
Definition EVP_CIPH_ECB_MODE : Z := 1.
Definition EVP_CIPH_CBC_MODE : Z := 2.
Definition EVP_CIPH_MODE : Z := 983047.      (* 0xF0007 *)
Definition EVP_CIPH_NO_PADDING : Z := 256.   (* 0x100 *)

(** [do_cipher] reads the key schedule, the direction and the IV of the
    context and the [inl] input bytes; it gives its return code, the bytes
    stored through [out] and the IV it leaves in the context. *)
Record EVP_CIPHER : Type := {
  block_size : Z;
  key_len : Z;
  iv_len : Z;
  flags : Z;
  do_cipher : list byte -> Z -> list byte -> list byte -> Z * list byte * list byte
}.

Record EVP_CIPHER_CTX : Type := {
  cipher : EVP_CIPHER;
  encrypt : Z;
  buf_len : Z;
  oiv : list byte;
  iv : list byte;
  buf : list byte;
  ctx_flags : Z;
  cipher_data : list byte;
  final_used : Z;
  block_mask : Z;
  final : list byte
}.

Definition set_encrypt (c : EVP_CIPHER_CTX) (v : Z) : EVP_CIPHER_CTX :=
  {| cipher := cipher c; encrypt := v; buf_len := buf_len c; oiv := oiv c;
     iv := iv c; buf := buf c; ctx_flags := ctx_flags c;
     cipher_data := cipher_data c; final_used := final_used c;
     block_mask := block_mask c; final := final c |}.

Definition set_buf_len (c : EVP_CIPHER_CTX) (v : Z) : EVP_CIPHER_CTX :=
  {| cipher := cipher c; encrypt := encrypt c; buf_len := v; oiv := oiv c;
     iv := iv c; buf := buf c; ctx_flags := ctx_flags c;
     cipher_data := cipher_data c; final_used := final_used c;
     block_mask := block_mask c; final := final c |}.

Definition set_oiv (c : EVP_CIPHER_CTX) (v : list byte) : EVP_CIPHER_CTX :=
  {| cipher := cipher c; encrypt := encrypt c; buf_len := buf_len c; oiv := v;
     iv := iv c; buf := buf c; ctx_flags := ctx_flags c;
     cipher_data := cipher_data c; final_used := final_used c;
     block_mask := block_mask c; final := final c |}.

Definition set_iv (c : EVP_CIPHER_CTX) (v : list byte) : EVP_CIPHER_CTX :=
  {| cipher := cipher c; encrypt := encrypt c; buf_len := buf_len c; oiv := oiv c;
     iv := v; buf := buf c; ctx_flags := ctx_flags c;
     cipher_data := cipher_data c; final_used := final_used c;
     block_mask := block_mask c; final := final c |}.

Definition set_buf (c : EVP_CIPHER_CTX) (v : list byte) : EVP_CIPHER_CTX :=
  {| cipher := cipher c; encrypt := encrypt c; buf_len := buf_len c; oiv := oiv c;
     iv := iv c; buf := v; ctx_flags := ctx_flags c;
     cipher_data := cipher_data c; final_used := final_used c;
     block_mask := block_mask c; final := final c |}.

Definition set_ctx_flags (c : EVP_CIPHER_CTX) (v : Z) : EVP_CIPHER_CTX :=
  {| cipher := cipher c; encrypt := encrypt c; buf_len := buf_len c; oiv := oiv c;
     iv := iv c; buf := buf c; ctx_flags := v;
     cipher_data := cipher_data c; final_used := final_used c;
     block_mask := block_mask c; final := final c |}.

Definition set_final_used (c : EVP_CIPHER_CTX) (v : Z) : EVP_CIPHER_CTX :=
  {| cipher := cipher c; encrypt := encrypt c; buf_len := buf_len c; oiv := oiv c;
     iv := iv c; buf := buf c; ctx_flags := ctx_flags c;
     cipher_data := cipher_data c; final_used := v;
     block_mask := block_mask c; final := final c |}.

Definition set_block_mask (c : EVP_CIPHER_CTX) (v : Z) : EVP_CIPHER_CTX :=
  {| cipher := cipher c; encrypt := encrypt c; buf_len := buf_len c; oiv := oiv c;
     iv := iv c; buf := buf c; ctx_flags := ctx_flags c;
     cipher_data := cipher_data c; final_used := final_used c;
     block_mask := v; final := final c |}.

Definition set_final (c : EVP_CIPHER_CTX) (v : list byte) : EVP_CIPHER_CTX :=
  {| cipher := cipher c; encrypt := encrypt c; buf_len := buf_len c; oiv := oiv c;
     iv := iv c; buf := buf c; ctx_flags := ctx_flags c;
     cipher_data := cipher_data c; final_used := final_used c;
     block_mask := block_mask c; final := v |}.

(** A field update of an explicit context reduces to the updated context. *)
Arguments set_encrypt !c v /.
Arguments set_buf_len !c v /.
Arguments set_oiv !c v /.
Arguments set_iv !c v /.
Arguments set_buf !c v /.
Arguments set_ctx_flags !c v /.
Arguments set_final_used !c v /.
Arguments set_block_mask !c v /.
Arguments set_final !c v /.

Definition EVP_CIPHER_CTX_mode (c : EVP_CIPHER_CTX) : Z :=
  Z.land (flags (cipher c)) EVP_CIPH_MODE.

Definition EVP_CIPHER_CTX_block_size (c : EVP_CIPHER_CTX) : Z :=
  block_size (cipher c).

Definition EVP_CIPHER_CTX_iv_length (c : EVP_CIPHER_CTX) : Z :=
  iv_len (cipher c).

(** [ctx->cipher->do_cipher(ctx, out, in, inl)]: return code, bytes stored
    through [out], context afterwards. *)
Definition ctx_do_cipher (c : EVP_CIPHER_CTX) (input : list byte) (inl : Z)
  : Z * list byte * EVP_CIPHER_CTX :=
  let '(r, o, iv') :=
    do_cipher (cipher c) (cipher_data c) (encrypt c) (iv c)
              (firstn (Z.to_nat inl) input) in
  (r, o, set_iv c iv').

(** What an [EVP_*] call hands back: its return code, the context, the bytes
    it stored from [out] on, [*outl], and the level-1 [PTRACE] lines. *)
Record evp_result : Type := {
  ret : Z;
  ctx_after : EVP_CIPHER_CTX;
  out_bytes : list byte;
  outl : Z;
  trace : list string
}.

Definition evp (r : Z) (c : EVP_CIPHER_CTX) (o : list byte) (l : Z)
  (t : list string) : evp_result :=
  {| ret := r; ctx_after := c; out_bytes := o; outl := l; trace := t |}.

Arguments evp r c o l t /.

(* ================================================================== *)
(** ** Ciphertext stealing *)

Definition msg_expecting_ciphertext : string :=
  "H235	CTS Error: expecting previous ciphertext".
Definition msg_expecting_plaintext : string :=
  "H235	CTS Error: expecting previous plaintext".
Definition msg_unsupported_mode : string :=
  "H235	CTS Error: unsupported mode".

Definition EVP_EncryptUpdate_cts (ctx : EVP_CIPHER_CTX) (input : list byte) (inl : Z)
  : outcome evp_result :=
  let bl := block_size (cipher ctx) in
  if negb (bl <=? EVP_MAX_BLOCK_LENGTH) then Aborts else
  if buf_len ctx + inl <=? bl then
    (* new plaintext is no more than 1 block: copy it into the buffer *)
    let ctx := set_buf ctx (memcpy (buf ctx) (buf_len ctx) input inl) in
    let ctx := set_buf_len ctx (buf_len ctx + inl) in
    Returns (evp 1 ctx [] 0 [])
  else
    (* encrypt the previous plaintext, if any *)
    let '(r0, ctx, out0, outl0) :=
      if negb (final_used ctx =? 0) then
        let '(r, o, c) := ctx_do_cipher ctx (final ctx) bl in
        if r =? 0 then (0, c, o, 0)
        else (1, set_final_used c 0, o, bl)
      else (1, ctx, [], 0) in
    if r0 =? 0 then Returns (evp 0 ctx out0 outl0 []) else
    let ctx := set_buf ctx (memcpy (buf ctx) (buf_len ctx) input (bl - buf_len ctx)) in
    let input := skipn (Z.to_nat (bl - buf_len ctx)) input in
    let inl := inl - (bl - buf_len ctx) in
    let ctx := set_buf_len ctx bl in
    if inl <=? bl then
      let ctx := set_final ctx (memcpy (final ctx) 0 (buf ctx) bl) in
      let ctx := set_final_used ctx 1 in
      let ctx := set_buf ctx (memcpy (buf ctx) 0 input inl) in
      let ctx := set_buf_len ctx inl in
      Returns (evp 1 ctx out0 outl0 [])
    else
      let '(r, o, ctx) := ctx_do_cipher ctx (buf ctx) bl in
      if r =? 0 then Returns (evp 0 ctx (out0 ++ o) outl0 []) else
      let out1 := out0 ++ o in
      let outl1 := outl0 + bl in
      let ctx := set_buf_len ctx 0 in
      let leftover := Z.land inl (block_mask ctx) in
      let '(ctx, rest) :=
        if negb (leftover =? 0) then
          let inl := inl - (bl + leftover) in
          let ctx := set_buf ctx (memcpy (buf ctx) 0
                                    (skipn (Z.to_nat (inl + bl)) input) leftover) in
          (set_buf_len ctx leftover, inl)
        else
          let inl := inl - 2 * bl in
          let ctx := set_buf ctx (memcpy (buf ctx) 0
                                    (skipn (Z.to_nat (inl + bl)) input) bl) in
          (set_buf_len ctx bl, inl) in
      let inl := rest in
      let ctx := set_final ctx (memcpy (final ctx) 0 (skipn (Z.to_nat inl) input) bl) in
      let ctx := set_final_used ctx 1 in
      let '(r, o, ctx) := ctx_do_cipher ctx input inl in
      if r =? 0 then Returns (evp 0 ctx (out1 ++ o) outl1 []) else
      Returns (evp 1 ctx (out1 ++ o) (outl1 + inl) []).

Definition EVP_EncryptFinal_cts (ctx : EVP_CIPHER_CTX) : evp_result :=
  let bl := block_size (cipher ctx) in
  if final_used ctx =? 0 then evp 0 ctx [] 0 [msg_expecting_ciphertext] else
  if buf_len ctx =? 0 then evp 0 ctx [] 0 [msg_expecting_plaintext] else
  (* handle leftover bytes *)
  let leftover := buf_len ctx in
  let mode := EVP_CIPHER_CTX_mode ctx in
  if mode =? EVP_CIPH_ECB_MODE then
    (* encrypt => C_{n} plus C' *)
    let '(r, tmp, ctx) := ctx_do_cipher ctx (final ctx) bl in
    if r =? 0 then evp 0 ctx [] 0 [] else
    (* P_n plus C' *)
    let ctx := set_buf ctx (memcpy (buf ctx) leftover
                              (skipn (Z.to_nat leftover) tmp) (bl - leftover)) in
    (* encrypt => C_{n-1} *)
    let '(r, o, ctx) := ctx_do_cipher ctx (buf ctx) bl in
    if r =? 0 then evp 0 ctx o 0 [] else
    evp 1 ctx (memcpy o bl tmp leftover) (bl + leftover) []
  else if mode =? EVP_CIPH_CBC_MODE then
    (* encrypt => C_{n} plus C' *)
    let '(r, tmp, ctx) := ctx_do_cipher ctx (final ctx) bl in
    if r =? 0 then evp 0 ctx [] 0 [] else
    (* P_n plus 0s *)
    let ctx := set_buf ctx (memset (buf ctx) leftover Byte.x00 (bl - leftover)) in
    (* encrypt => C_{n-1} *)
    let '(r, o, ctx) := ctx_do_cipher ctx (buf ctx) bl in
    if r =? 0 then evp 0 ctx o 0 [] else
    evp 1 ctx (memcpy o bl tmp leftover) (bl + leftover) []
  else evp 0 ctx [] 0 [msg_unsupported_mode].

(** The failures of the final calls, told apart by what they trace. *)
Inductive CtsError : Type := MissingState | UnsupportedMode.

Definition cts_error (r : evp_result) : option CtsError :=
  if negb (ret r =? 0) then None else
  match trace r with
  | [m] =>
      if String.eqb m msg_expecting_ciphertext || String.eqb m msg_expecting_plaintext
      then Some MissingState
      else if String.eqb m msg_unsupported_mode then Some UnsupportedMode
      else None
  | _ => None
  end.

Definition EVP_DecryptUpdate_cts (ctx : EVP_CIPHER_CTX) (input : list byte) (inl : Z)
  : outcome evp_result :=
  EVP_EncryptUpdate_cts ctx input inl.

Definition EVP_DecryptFinal_cts (ctx : EVP_CIPHER_CTX) : evp_result :=
  let bl := block_size (cipher ctx) in
  if final_used ctx =? 0 then evp 0 ctx [] 0 [msg_expecting_ciphertext] else
  if buf_len ctx =? 0 then evp 0 ctx [] 0 [msg_expecting_ciphertext] else
  (* handle leftover bytes *)
  let leftover := buf_len ctx in
  let mode := EVP_CIPHER_CTX_mode ctx in
  if mode =? EVP_CIPH_ECB_MODE then
    (* decrypt => P_n plus C' *)
    let '(r, tmp, ctx) := ctx_do_cipher ctx (final ctx) bl in
    if r =? 0 then evp 0 ctx [] 0 [] else
    (* C_n plus C' *)
    let ctx := set_buf ctx (memcpy (buf ctx) leftover
                              (skipn (Z.to_nat leftover) tmp) (bl - leftover)) in
    (* decrypt => P_{n-1} *)
    let '(r, o, ctx) := ctx_do_cipher ctx (buf ctx) bl in
    if r =? 0 then evp 0 ctx o 0 [] else
    evp 1 ctx (memcpy o bl tmp leftover) (bl + leftover) []
  else if mode =? EVP_CIPH_CBC_MODE then
    let C_n_minus_2 := memcpy (PBYTEArray_new EVP_MAX_BLOCK_LENGTH) 0 (iv ctx) bl in
    (* C_n plus 0s in ctx->buf *)
    let ctx := set_buf ctx (memset (buf ctx) leftover Byte.x00 (bl - leftover)) in
    (* ctx->final is C_{n-1}; decrypt => (P_n plus C')'' *)
    let '(r, tmp, ctx) := ctx_do_cipher ctx (final ctx) bl in
    if r =? 0 then evp 0 ctx [] 0 [] else
    (* XOR'ed with C_{n-2} => (P_n plus C')' *)
    let tmp := xor_loop (Z.to_nat bl) tmp C_n_minus_2 in
    (* XOR'ed with (C_n plus 0s) => P_n plus C' *)
    let tmp := xor_loop (Z.to_nat bl) tmp (buf ctx) in
    (* C_n plus C' in ctx->buf *)
    let ctx := set_buf ctx (memcpy (buf ctx) leftover
                              (skipn (Z.to_nat leftover) tmp) (bl - leftover)) in
    (* decrypt => P_{n-1}'' *)
    let '(r, o, ctx) := ctx_do_cipher ctx (buf ctx) bl in
    if r =? 0 then evp 0 ctx o 0 [] else
    (* XOR'ed with C_{n-1} => P_{n-1}' *)
    let o := xor_loop (Z.to_nat bl) o (final ctx) in
    (* XOR'ed with C_{n-2} => P_{n-1} *)
    let o := xor_loop (Z.to_nat bl) o C_n_minus_2 in
    evp 1 ctx (memcpy o bl tmp leftover) (bl + leftover) []
  else evp 0 ctx [] 0 [msg_unsupported_mode].

(* ================================================================== *)
(** ** The relaxed final-block decode *)

Definition msg_not_multiple : string :=
  "H235	Decrypt error: data not a multiple of block length".
Definition msg_wrong_final_block : string :=
  "H235	Decrypt error: wrong final block length".
Definition msg_bad_decrypt : string :=
  "H235	Decrypt error: bad decrypt".

Definition EVP_DecryptFinal_relaxed (ctx : EVP_CIPHER_CTX) : outcome evp_result :=
  let b := block_size (cipher ctx) in
  if negb (Z.land (ctx_flags ctx) EVP_CIPH_NO_PADDING =? 0) then
    if negb (buf_len ctx =? 0) then Returns (evp 0 ctx [] 0 [msg_not_multiple])
    else Returns (evp 1 ctx [] 0 [])
  else if b >? 1 then
    if negb (buf_len ctx =? 0) || (final_used ctx =? 0) then
      Returns (evp 0 ctx [] 0 [msg_wrong_final_block])
    else if negb (b <=? EVP_MAX_BLOCK_LENGTH) then Aborts
    else
      let n := uchar_to_int (nth (Z.to_nat (b - 1)) (final ctx) Byte.x00) in
      if (n =? 0) || (n >? b) then Returns (evp 0 ctx [] 0 [msg_bad_decrypt])
      else
        (* the check of the padding bytes is disabled in the source *)
        let n := block_size (cipher ctx) - n in
        Returns (evp 1 ctx (copy_loop (Z.to_nat n) (final ctx)) n [])
  else Returns (evp 1 ctx [] 0 []).

(* ================================================================== *)
(** ** OpenSSL 1.0 entry points the engine calls (crypto/evp/evp_enc.c)

    They are not part of H323Plus; they are written after the library's
    source so that the engine can be run. *)

(** [EVP_CIPHER_CTX_init] followed by [EVP_CipherInit_ex(ctx, cipher, NULL,
    key, NULL, enc)]: a zeroed context that takes the cipher, the direction
    and the [key_len] bytes at [key]. *)
Definition EVP_CipherInit_ex_key (c : EVP_CIPHER) (key : list byte) (enc : Z)
  : EVP_CIPHER_CTX :=
  {| cipher := c; encrypt := enc; buf_len := 0;
     oiv := PBYTEArray_new EVP_MAX_IV_LENGTH;
     iv := PBYTEArray_new EVP_MAX_IV_LENGTH;
     buf := PBYTEArray_new EVP_MAX_BLOCK_LENGTH;
     ctx_flags := 0;
     cipher_data := firstn (Z.to_nat (key_len c)) key;
     final_used := 0;
     block_mask := block_size c - 1;
     final := PBYTEArray_new EVP_MAX_BLOCK_LENGTH |}.

(** [EVP_CipherInit_ex(ctx, NULL, NULL, NULL, iv, enc)] on a context that has
    its cipher: the IV is installed (CBC) and the buffering state reset. *)
Definition EVP_CipherInit_ex_iv (ctx : EVP_CIPHER_CTX) (ivec : list byte) (enc : Z)
  : EVP_CIPHER_CTX :=
  let ctx := set_encrypt ctx enc in
  let ctx :=
    if EVP_CIPHER_CTX_mode ctx =? EVP_CIPH_CBC_MODE then
      let ctx := set_oiv ctx (memcpy (oiv ctx) 0 ivec (EVP_CIPHER_CTX_iv_length ctx)) in
      set_iv ctx (memcpy (iv ctx) 0 (oiv ctx) (EVP_CIPHER_CTX_iv_length ctx))
    else ctx in
  let ctx := set_buf_len ctx 0 in
  let ctx := set_final_used ctx 0 in
  set_block_mask ctx (block_size (cipher ctx) - 1).

Definition EVP_EncryptInit_ex_iv (ctx : EVP_CIPHER_CTX) (ivec : list byte) :=
  EVP_CipherInit_ex_iv ctx ivec 1.

Definition EVP_DecryptInit_ex_iv (ctx : EVP_CIPHER_CTX) (ivec : list byte) :=
  EVP_CipherInit_ex_iv ctx ivec 0.

Definition EVP_CIPHER_CTX_set_padding (ctx : EVP_CIPHER_CTX) (pad : Z) : EVP_CIPHER_CTX :=
  if negb (pad =? 0) then set_ctx_flags ctx (Z.ldiff (ctx_flags ctx) EVP_CIPH_NO_PADDING)
  else set_ctx_flags ctx (Z.lor (ctx_flags ctx) EVP_CIPH_NO_PADDING).

(** The part of [EVP_EncryptUpdate] after the buffered bytes are dealt with:
    whole blocks go through the cipher, the rest is kept in [buf]. *)
Definition EVP_EncryptUpdate_blocks (ctx : EVP_CIPHER_CTX) (out0 : list byte)
  (outl0 : Z) (input : list byte) (inl : Z) : evp_result :=
  let bl := block_size (cipher ctx) in
  let i := Z.land inl (bl - 1) in
  let inl := inl - i in
  let '(r, ctx, out1, outl1) :=
    if inl >? 0 then
      let '(r, o, c) := ctx_do_cipher ctx input inl in
      if r =? 0 then (0, c, out0 ++ o, outl0) else (1, c, out0 ++ o, outl0 + inl)
    else (1, ctx, out0, outl0) in
  if r =? 0 then evp 0 ctx out1 outl1 [] else
  let ctx := if negb (i =? 0)
             then set_buf ctx (memcpy (buf ctx) 0 (skipn (Z.to_nat inl) input) i)
             else ctx in
  evp 1 (set_buf_len ctx i) out1 outl1 [].

(** [outl0] is the value [*outl] holds at the call: one failing path leaves
    it as it is. *)
Definition EVP_EncryptUpdate (ctx : EVP_CIPHER_CTX) (outl0 : Z) (input : list byte)
  (inl : Z) : outcome evp_result :=
  if inl <=? 0 then Returns (evp (if inl =? 0 then 1 else 0) ctx [] 0 []) else
  if (buf_len ctx =? 0) && (Z.land inl (block_mask ctx) =? 0) then
    let '(r, o, c) := ctx_do_cipher ctx input inl in
    if r =? 0 then Returns (evp 0 c o 0 []) else Returns (evp 1 c o inl [])
  else
    let i := buf_len ctx in
    let bl := block_size (cipher ctx) in
    if negb (bl <=? EVP_MAX_BLOCK_LENGTH) then Aborts else
    if negb (i =? 0) then
      if i + inl <? bl then
        let ctx := set_buf ctx (memcpy (buf ctx) i input inl) in
        Returns (evp 1 (set_buf_len ctx (buf_len ctx + inl)) [] 0 [])
      else
        let j := bl - i in
        let ctx := set_buf ctx (memcpy (buf ctx) i input j) in
        let '(r, o, c) := ctx_do_cipher ctx (buf ctx) bl in
        if r =? 0 then Returns (evp 0 c o outl0 []) else
        Returns (EVP_EncryptUpdate_blocks c o bl (skipn (Z.to_nat j) input) (inl - j))
    else Returns (EVP_EncryptUpdate_blocks ctx [] 0 input inl).

Definition EVP_EncryptFinal_ex (ctx : EVP_CIPHER_CTX) (outl0 : Z) : outcome evp_result :=
  let b := block_size (cipher ctx) in
  if negb (b <=? EVP_MAX_BLOCK_LENGTH) then Aborts else
  if b =? 1 then Returns (evp 1 ctx [] 0 []) else
  let bl := buf_len ctx in
  if negb (Z.land (ctx_flags ctx) EVP_CIPH_NO_PADDING =? 0) then
    if negb (bl =? 0) then Returns (evp 0 ctx [] outl0 [])
    else Returns (evp 1 ctx [] 0 [])
  else
    let n := b - bl in
    let ctx := set_buf ctx (memset (buf ctx) bl (int_to_uchar n) (b - bl)) in
    let '(r, o, c) := ctx_do_cipher ctx (buf ctx) b in
    if r =? 0 then Returns (evp 0 c o outl0 []) else Returns (evp 1 c o b []).

Definition EVP_DecryptUpdate (ctx : EVP_CIPHER_CTX) (outl0 : Z) (input : list byte)
  (inl : Z) : outcome evp_result :=
  if inl <=? 0 then Returns (evp (if inl =? 0 then 1 else 0) ctx [] 0 []) else
  if negb (Z.land (ctx_flags ctx) EVP_CIPH_NO_PADDING =? 0) then
    EVP_EncryptUpdate ctx outl0 input inl
  else
    let b := block_size (cipher ctx) in
    if negb (b <=? EVP_MAX_BLOCK_LENGTH) then Aborts else
    let '(out0, fix_len) :=
      if negb (final_used ctx =? 0) then (firstn (Z.to_nat b) (final ctx), 1)
      else ([], 0) in
    r <- EVP_EncryptUpdate ctx outl0 input inl ;;
    if ret r =? 0 then Returns (evp 0 (ctx_after r) (out0 ++ out_bytes r) (outl r) []) else
    (* if a multiple of the block size was decrypted, keep a copy of the
       last block *)
    let '(ctx, l) :=
      if (b >? 1) && (buf_len (ctx_after r) =? 0) then
        let l := outl r - b in
        let c := set_final_used (ctx_after r) 1 in
        (set_final c (memcpy (final c) 0 (skipn (Z.to_nat l) (out_bytes r)) b), l)
      else (set_final_used (ctx_after r) 0, outl r) in
    let l := if negb (fix_len =? 0) then l + b else l in
    Returns (evp 1 ctx (out0 ++ out_bytes r) l []).

(* ================================================================== *)
(** ** AES in CBC and ECB mode

    The AES block transform is outside H323Plus: [AES_encrypt key block] and
    [AES_decrypt key block] stand for OpenSSL's transforms of one 16-byte
    block.  [H323_H235_AES256] is the build option of openh323buildopts.h. *)

(** A toy 16-byte block transform, to run the engine on concrete inputs:
    every byte is XORed with the first key byte and the block is reversed. *)
Definition toy_encrypt (key block : list byte) : list byte :=
  rev (map (fun b => byte_xor b (hd Byte.x00 key)) block).

Definition toy_decrypt (key block : list byte) : list byte :=
  map (fun b => byte_xor b (hd Byte.x00 key)) (rev block).

(** Sample data: a 16-byte key and the sequence value 0x0001AABBCCDD. *)
Definition key_128 : list byte := repeat Byte.x2a 16.

Definition seq_0001AABBCCDD : list byte :=
  [Byte.x00; Byte.x01; Byte.xaa; Byte.xbb; Byte.xcc; Byte.xdd].

Section Engine.

Variable AES_encrypt : list byte -> list byte -> list byte.
Variable AES_decrypt : list byte -> list byte -> list byte.
Variable H323_H235_AES256 : bool.

Definition AES_BLOCK_SIZE : Z := 16.

(** [CRYPTO_cbc128_encrypt] over [n] whole blocks: output and final IV. *)
Fixpoint cbc128_encrypt (key : list byte) (n : nat) (ivec input : list byte)
  : list byte * list byte :=
  match n with
  | O => ([], ivec)
  | S n' =>
      let c := AES_encrypt key (xor_loop 16 (firstn 16 input) ivec) in
      let '(rest, ivec') := cbc128_encrypt key n' c (skipn 16 input) in
      (c ++ rest, ivec')
  end.

(** [CRYPTO_cbc128_decrypt] over [n] whole blocks. *)
Fixpoint cbc128_decrypt (key : list byte) (n : nat) (ivec input : list byte)
  : list byte * list byte :=
  match n with
  | O => ([], ivec)
  | S n' =>
      let c := firstn 16 input in
      let p := xor_loop 16 (AES_decrypt key c) ivec in
      let '(rest, ivec') := cbc128_decrypt key n' c (skipn 16 input) in
      (p ++ rest, ivec')
  end.

Definition aes_cbc_cipher (key : list byte) (enc : Z) (ivec input : list byte)
  : Z * list byte * list byte :=
  let n := (length input / 16)%nat in
  let '(o, ivec') :=
    if negb (enc =? 0) then cbc128_encrypt key n ivec input
    else cbc128_decrypt key n ivec input in
  (1, o, ivec').

(** [aes_ecb_cipher]: every whole block on its own. *)
Fixpoint ecb_blocks (f : list byte -> list byte) (n : nat) (input : list byte)
  : list byte :=
  match n with
  | O => []
  | S n' => f (firstn 16 input) ++ ecb_blocks f n' (skipn 16 input)
  end.

Definition aes_ecb_cipher (key : list byte) (enc : Z) (ivec input : list byte)
  : Z * list byte * list byte :=
  let n := (length input / 16)%nat in
  (1, ecb_blocks (if negb (enc =? 0) then AES_encrypt key else AES_decrypt key)
                 n input, ivec).

Definition EVP_aes_cbc (keylen : Z) : EVP_CIPHER :=
  {| block_size := AES_BLOCK_SIZE; key_len := keylen; iv_len := 16;
     flags := EVP_CIPH_CBC_MODE; do_cipher := aes_cbc_cipher |}.

Definition EVP_aes_ecb (keylen : Z) : EVP_CIPHER :=
  {| block_size := AES_BLOCK_SIZE; key_len := keylen; iv_len := 0;
     flags := EVP_CIPH_ECB_MODE; do_cipher := aes_ecb_cipher |}.

Definition EVP_aes_128_cbc : EVP_CIPHER := EVP_aes_cbc 16.
Definition EVP_aes_192_cbc : EVP_CIPHER := EVP_aes_cbc 24.
Definition EVP_aes_256_cbc : EVP_CIPHER := EVP_aes_cbc 32.

(* ================================================================== *)
(** ** H235CryptoEngine *)

Definition OID_AES256 : string := "2.16.840.1.101.3.4.1.42".
Definition OID_AES192 : string := "2.16.840.1.101.3.4.1.22".
Definition OID_AES128 : string := "2.16.840.1.101.3.4.1.2".

(** the IV sequence is always 6 bytes long (2 bytes seq number + 4 bytes
    timestamp) *)
Definition IV_SEQUENCE_LEN : Z := 6.

(** A context member is [None] until [SetKey] has initialised it: the
    constructor leaves [m_encryptCtx] and [m_decryptCtx] as they are. *)
Record H235CryptoEngine : Type := {
  m_algorithmOID : string;
  m_encryptCtx : option EVP_CIPHER_CTX;
  m_decryptCtx : option EVP_CIPHER_CTX
}.

Definition H235CryptoEngine_new (algorithmOID : string) : H235CryptoEngine :=
  {| m_algorithmOID := algorithmOID; m_encryptCtx := None; m_decryptCtx := None |}.

Definition select_cipher (oid : string) : option EVP_CIPHER :=
  if String.eqb oid OID_AES128 then Some EVP_aes_128_cbc
  else if String.eqb oid OID_AES192 then Some EVP_aes_192_cbc
  else if H323_H235_AES256 && String.eqb oid OID_AES256 then Some EVP_aes_256_cbc
  else None.

(** [SetKey] returns nothing; the second component is what it traces. *)
Definition SetKey (e : H235CryptoEngine) (key : PBYTEArray)
  : H235CryptoEngine * list string :=
  match select_cipher (m_algorithmOID e) with
  | None => (e, [("Unsupported algorithm " ++ m_algorithmOID e)%string])
  | Some c =>
      ({| m_algorithmOID := m_algorithmOID e;
          m_encryptCtx := Some (EVP_CipherInit_ex_key c key 1);
          m_decryptCtx := Some (EVP_CipherInit_ex_key c key 0) |}, [])
  end.

Definition H235CryptoEngine_new_key (algorithmOID : string) (key : PBYTEArray)
  : H235CryptoEngine :=
  fst (SetKey (H235CryptoEngine_new algorithmOID) key).

(** [for (i = 0; i < ivLen / IV_SEQUENCE_LEN; i++) memcpy(iv + i * 6, ...)],
    with [n] iterations left. *)
Fixpoint SetIV_loop (n : nat) (i : Z) (ivec ivSequence : list byte) : list byte :=
  match n with
  | O => ivec
  | S n' =>
      SetIV_loop n' (i + 1)
        (memcpy ivec (i * IV_SEQUENCE_LEN) ivSequence IV_SEQUENCE_LEN) ivSequence
  end.

Definition SetIV (ivec : list byte) (ivSequence : option (list byte)) (ivLen : Z)
  : list byte :=
  match ivSequence with
  | Some s =>
      (* fill iv by repeating ivSequence until block size is reached *)
      let ivec := SetIV_loop (Z.to_nat (ivLen / IV_SEQUENCE_LEN)) 0 ivec s in
      (* copy partial ivSequence at end *)
      if ivLen mod IV_SEQUENCE_LEN >? 0 then
        memcpy ivec (ivLen - ivLen mod IV_SEQUENCE_LEN) s (ivLen mod IV_SEQUENCE_LEN)
      else ivec
  | None => memset ivec 0 Byte.x00 ivLen
  end.

(** [memcpy(buffer + off, bytes, n)] for the bytes a callee stored. *)
Definition store (buffer : list byte) (off : Z) (bytes : list byte) : list byte :=
  memcpy buffer off bytes (Z.of_nat (length bytes)).

Definition trace_if_failed (r : Z) (msg : string) : list string :=
  if r =? 0 then [msg] else [].

(** What [Encrypt] and [Decrypt] hand back: the array they return, the
    [rtpPadding] reference afterwards, the engine, and the trace. *)
Record crypt_result : Type := {
  bytes : PBYTEArray;
  rtpPadding_out : bool;
  engine_after : H235CryptoEngine;
  crypt_trace : list string
}.

Definition Encrypt (e : H235CryptoEngine) (data : PBYTEArray)
  (ivSequence : option (list byte)) : outcome crypt_result :=
  match m_encryptCtx e with
  | None => Undefined
  | Some ctx =>
      (* unsigned char iv[EVP_MAX_IV_LENGTH]: SetIV overwrites all of it
         for AES, whose IV has 16 bytes *)
      let ivec := PBYTEArray_new EVP_MAX_IV_LENGTH in
      (* max ciphertext len for a n bytes of plaintext is n + BLOCK_SIZE -1 bytes *)
      let ciphertext_len := GetSize data + EVP_CIPHER_CTX_block_size ctx in
      let ciphertext := PBYTEArray_new ciphertext_len in
      let ivec := SetIV ivec ivSequence (EVP_CIPHER_CTX_iv_length ctx) in
      let ctx := EVP_EncryptInit_ex_iv ctx ivec in
      let rtpPadding := GetSize data <? EVP_CIPHER_CTX_block_size ctx in
      let ctx := EVP_CIPHER_CTX_set_padding ctx (if rtpPadding then 1 else 0) in
      let done (r1 r2 : evp_result) (m1 m2 : string) :=
        let ciphertext := store ciphertext 0 (out_bytes r1) in
        let ciphertext := store ciphertext (outl r1) (out_bytes r2) in
        {| bytes := SetSize ciphertext (outl r1 + outl r2);
           rtpPadding_out := rtpPadding;
           engine_after :=
             {| m_algorithmOID := m_algorithmOID e;
                m_encryptCtx := Some (ctx_after r2);
                m_decryptCtx := m_decryptCtx e |};
           crypt_trace := trace r1 ++ trace_if_failed (ret r1) m1
                            ++ trace r2 ++ trace_if_failed (ret r2) m2 |} in
      if negb rtpPadding
         && (Z.rem (GetSize data) (EVP_CIPHER_CTX_block_size ctx) >? 0) then
        (* use cyphertext stealing *)
        r1 <- EVP_EncryptUpdate_cts ctx data (GetSize data) ;;
        let r2 := EVP_EncryptFinal_cts (ctx_after r1) in
        Returns (done r1 r2 "H235	EVP_EncryptUpdate_cts() failed"%string
                            "H235	EVP_EncryptFinal_cts() failed"%string)
      else
        r1 <- EVP_EncryptUpdate ctx ciphertext_len data (GetSize data) ;;
        (* update ciphertext with the final remaining bytes, if any use RTP
           padding *)
        r2 <- EVP_EncryptFinal_ex (ctx_after r1) 0 ;;
        Returns (done r1 r2 "H235	EVP_EncryptUpdate() failed"%string
                            "H235	EVP_EncryptFinal_ex() failed"%string)
  end.

Definition Decrypt (e : H235CryptoEngine) (data : PBYTEArray)
  (ivSequence : option (list byte)) (rtpPadding : bool) : outcome crypt_result :=
  match m_decryptCtx e with
  | None => Undefined
  | Some ctx =>
      (* unsigned char iv[EVP_MAX_IV_LENGTH], as in Encrypt *)
      let ivec := PBYTEArray_new EVP_MAX_IV_LENGTH in
      (* plaintext will always be equal to or lesser than length of ciphertext *)
      let plaintext_len := GetSize data in
      let plaintext := PBYTEArray_new plaintext_len in
      let ivec := SetIV ivec ivSequence (EVP_CIPHER_CTX_iv_length ctx) in
      let ctx := EVP_DecryptInit_ex_iv ctx ivec in
      let ctx := EVP_CIPHER_CTX_set_padding ctx (if rtpPadding then 1 else 0) in
      let done (r1 r2 : evp_result) (m1 m2 : string) :=
        let plaintext := store plaintext 0 (out_bytes r1) in
        let plaintext := store plaintext (outl r1) (out_bytes r2) in
        {| bytes := SetSize plaintext (outl r1 + outl r2);
           rtpPadding_out := rtpPadding;
           engine_after :=
             {| m_algorithmOID := m_algorithmOID e;
                m_encryptCtx := m_encryptCtx e;
                m_decryptCtx := Some (ctx_after r2) |};
           crypt_trace := trace r1 ++ trace_if_failed (ret r1) m1
                            ++ trace r2 ++ trace_if_failed (ret r2) m2 |} in
      if negb rtpPadding
         && (Z.rem (GetSize data) (EVP_CIPHER_CTX_block_size ctx) >? 0) then
        (* use cyphertext stealing *)
        r1 <- EVP_DecryptUpdate_cts ctx data (GetSize data) ;;
        let r2 := EVP_DecryptFinal_cts (ctx_after r1) in
        Returns (done r1 r2 "H235	EVP_DecryptUpdate_cts() failed"%string
                            "H235	EVP_DecryptFinal_cts() failed"%string)
      else
        r1 <- EVP_DecryptUpdate ctx plaintext_len data (GetSize data) ;;
        r2 <- EVP_DecryptFinal_relaxed (ctx_after r1) ;;
        Returns (done r1 r2 "H235	EVP_DecryptUpdate() failed"%string
                   "H235	EVP_DecryptFinal_ex() failed - incorrect padding ?"%string)
  end.

(** [RAND_bytes(key.GetPointer(), key.GetSize())] on a zero-filled array of
    [n] bytes; [rnd] is what the generator produces, and bytes it does not
    deliver stay zero. *)
Definition RAND_bytes (rnd : list byte) (n : Z) : PBYTEArray :=
  SetSize rnd n.

(** [GenerateRandomKey(const PString & algorithmOID)]: the second and third
    comparisons read the member, as in the source. *)
Definition GenerateRandomKey_oid (e : H235CryptoEngine) (algorithmOID : string)
  (rnd : list byte) : PBYTEArray * list string :=
  if String.eqb algorithmOID OID_AES128 then (RAND_bytes rnd 16, [])
  else if String.eqb (m_algorithmOID e) OID_AES192 then (RAND_bytes rnd 24, [])
  else if H323_H235_AES256 && String.eqb (m_algorithmOID e) OID_AES256
       then (RAND_bytes rnd 32, [])
  else ([], [("Unsupported algorithm " ++ algorithmOID)%string]).

Definition GenerateRandomKey (e : H235CryptoEngine) (rnd : list byte)
  : PBYTEArray * H235CryptoEngine * list string :=
  let '(result, t1) := GenerateRandomKey_oid e (m_algorithmOID e) rnd in
  let '(e', t2) := SetKey e result in
  (result, e', t1 ++ t2).

(* ================================================================== *)
(** ** H235Session *)

(** The Diffie-Hellman object is outside this file; the session only asks it
    for the session key. *)
Record H235_DiffieHellman : Type := {
  ComputeSessionKey : PBYTEArray
}.

Record H235Session : Type := {
  m_dh : H235_DiffieHellman;
  m_context : H235CryptoEngine;
  m_dhcontext : H235CryptoEngine;
  m_isInitialised : bool;
  m_isMaster : bool;
  m_dhSessionkey : PBYTEArray;
  m_crytoMasterKey : PBYTEArray
}.

Definition H235Session_new (dh : H235_DiffieHellman) (oidAlgorithm : string)
  : H235Session :=
  {| m_dh := dh;
     m_context := H235CryptoEngine_new oidAlgorithm;
     m_dhcontext := H235CryptoEngine_new oidAlgorithm;
     m_isInitialised := false;
     m_isMaster := false;
     m_dhSessionkey := PBYTEArray_new 0;
     m_crytoMasterKey := PBYTEArray_new 0 |}.

Definition set_m_dhcontext (s : H235Session) (e : H235CryptoEngine) : H235Session :=
  {| m_dh := m_dh s; m_context := m_context s; m_dhcontext := e;
     m_isInitialised := m_isInitialised s; m_isMaster := m_isMaster s;
     m_dhSessionkey := m_dhSessionkey s; m_crytoMasterKey := m_crytoMasterKey s |}.

Definition set_m_context (s : H235Session) (e : H235CryptoEngine) : H235Session :=
  {| m_dh := m_dh s; m_context := e; m_dhcontext := m_dhcontext s;
     m_isInitialised := m_isInitialised s; m_isMaster := m_isMaster s;
     m_dhSessionkey := m_dhSessionkey s; m_crytoMasterKey := m_crytoMasterKey s |}.

Definition set_m_crytoMasterKey (s : H235Session) (k : PBYTEArray) : H235Session :=
  {| m_dh := m_dh s; m_context := m_context s; m_dhcontext := m_dhcontext s;
     m_isInitialised := m_isInitialised s; m_isMaster := m_isMaster s;
     m_dhSessionkey := m_dhSessionkey s; m_crytoMasterKey := k |}.

(** The key the call leaves in its argument, and the session. *)
Definition EncodeMediaKey (s : H235Session) : outcome (PBYTEArray * H235Session) :=
  (* bool rtpPadding = false; overwritten by Encrypt *)
  r <- Encrypt (m_dhcontext s) (m_crytoMasterKey s) None ;;
  Returns (bytes r, set_m_dhcontext s (engine_after r)).

Definition DecodeMediaKey (s : H235Session) (key : PBYTEArray) : outcome H235Session :=
  let rtpPadding := false in
  r <- Decrypt (m_dhcontext s) key None rtpPadding ;;
  let s := set_m_dhcontext s (engine_after r) in
  let s := set_m_crytoMasterKey s (bytes r) in
  Returns (set_m_context s (fst (SetKey (m_context s) (m_crytoMasterKey s)))).

Definition IsInitialised (s : H235Session) : bool := m_isInitialised s.

Definition IsActive (s : H235Session) : bool := negb (IsInitialised s).

(** [rnd] is what [RAND_bytes] produces if the master draws its key. *)
Definition CreateSession (s : H235Session) (isMaster : bool) (rnd : list byte)
  : bool * H235Session :=
  let key := ComputeSessionKey (m_dh s) in
  let s :=
    {| m_dh := m_dh s; m_context := m_context s;
       m_dhcontext := fst (SetKey (m_dhcontext s) key);
       m_isInitialised := true; m_isMaster := isMaster;
       m_dhSessionkey := key; m_crytoMasterKey := m_crytoMasterKey s |} in
  if m_isMaster s then
    let '(k, e, _) := GenerateRandomKey (m_context s) rnd in
    (true, set_m_crytoMasterKey (set_m_context s e) k)
  else (true, s).

(** The part of an RTP frame the session touches: the payload with its size,
    and the padding bit of the header. *)
Record RTP_DataFrame : Type := {
  payload : PBYTEArray;
  padding : bool
}.

Definition ReadFrame (s : H235Session) (frame : RTP_DataFrame)
  : outcome (bool * H235Session * RTP_DataFrame) :=
  let m_padding := padding frame in
  let buffer := payload frame in
  r <- Decrypt (m_context s) buffer None m_padding ;;
  let buffer := bytes r in
  Returns (true, set_m_context s (engine_after r),
           {| payload := buffer; padding := padding frame |}).

Definition WriteFrame (s : H235Session) (frame : RTP_DataFrame)
  : outcome (bool * H235Session * RTP_DataFrame) :=
  let m_padding := padding frame in
  let buffer := payload frame in
  r <- Encrypt (m_context s) buffer None ;;
  (* m_padding now holds rtpPadding_out r; the frame is not told *)
  let buffer := bytes r in
  Returns (true, set_m_context s (engine_after r),
           {| payload := buffer; padding := padding frame |}).

(* ================================================================== *)
(** ** Vocabulary of the properties *)

(** A context that [SetKey] has initialised with AES-CBC and the key
    schedule of [key]; the arrays have their declared sizes and only the
    padding flag may be set. *)
Definition keyed_ctx (keylen : Z) (key : list byte) (ctx : EVP_CIPHER_CTX) : Prop :=
  cipher ctx = EVP_aes_cbc keylen /\ cipher_data ctx = key
  /\ length (buf ctx) = 32%nat /\ length (final ctx) = 32%nat
  /\ length (iv ctx) = 16%nat /\ length (oiv ctx) = 16%nat
  /\ (ctx_flags ctx = 0 \/ ctx_flags ctx = EVP_CIPH_NO_PADDING).

(** The IV [Encrypt] and [Decrypt] derive for an AES context. *)
Definition iv_of (ivSequence : option (list byte)) : list byte :=
  SetIV (PBYTEArray_new EVP_MAX_IV_LENGTH) ivSequence 16.

(** CBC in one direction or the other, as [aes_cbc_cipher] selects it. *)
Definition cbc128 (key : list byte) (enc : Z) (n : nat) (ivec input : list byte)
  : list byte * list byte :=
  if negb (enc =? 0) then cbc128_encrypt key n ivec input
  else cbc128_decrypt key n ivec input.

(** A short plaintext with the padding of one block: [16 - L] bytes of
    value [16 - L]. *)
Definition padded_block (P : list byte) : list byte :=
  P ++ repeat (int_to_uchar (16 - Z.of_nat (length P))) (16 - length P).

(** The ciphertext of [P] under [key] and [ivec]: one padded block below 16
    bytes, plain CBC on whole blocks, and otherwise CBC on all but the last
    block [blk] and the tail, which are encrypted with ciphertext
    stealing. *)
Definition expected_ciphertext (key ivec P : list byte) : list byte :=
  let L := length P in
  if (L <? 16)%nat then fst (cbc128_encrypt key 1 ivec (padded_block P))
  else if (L mod 16 =? 0)%nat then fst (cbc128_encrypt key (L / 16) ivec P)
  else
    let q := (L / 16)%nat in
    let r := (L mod 16)%nat in
    let '(c, iv1) := cbc128_encrypt key (q - 1) ivec P in
    let blk := firstn 16 (skipn (16 * (q - 1)) P) in
    let T := AES_encrypt key (xor_loop 16 blk iv1) in
    let X := AES_encrypt key
               (xor_loop 16 (skipn (16 * q) P ++ repeat Byte.x00 (16 - r)) T) in
    c ++ X ++ firstn r T.

(** A sequence value, when given, has its 6 bytes. *)
Definition seq_ok (ivSequence : option (list byte)) : Prop :=
  match ivSequence with
  | Some s => length s = 6%nat
  | None => True
  end.

(** The context [Encrypt] and [Decrypt] work on after installing the IV
    and choosing the padding. *)
Definition ready_ctx (keylen : Z) (key : list byte) (enc : Z) (ivec : list byte)
  (pad : bool) (B F : list byte) : EVP_CIPHER_CTX :=
  {| cipher := EVP_aes_cbc keylen; encrypt := enc; buf_len := 0; oiv := ivec;
     iv := ivec; buf := B; ctx_flags := if pad then 0 else EVP_CIPH_NO_PADDING;
     cipher_data := key; final_used := 0; block_mask := 15; final := F |}.

(** The algorithms of the engine with their key lengths; AES256 needs the
    build option. *)
Definition supported (oid : string) (keylen : Z) : Prop :=
  (oid = OID_AES128 /\ keylen = 16) \/ (oid = OID_AES192 /\ keylen = 24)
  \/ (oid = OID_AES256 /\ keylen = 32 /\ H323_H235_AES256 = true).

(** A cipher whose [do_cipher] succeeds on whole blocks and stores as many
    bytes as it is given, as the block ciphers of OpenSSL do. *)
Definition cipher_keeps_length (c : EVP_CIPHER) : Prop :=
  forall (key : list byte) (enc : Z) (ivec input : list byte),
    Z.of_nat (length input) mod block_size c = 0 ->
    fst (fst (do_cipher c key enc ivec input)) <> 0
    /\ length (snd (fst (do_cipher c key enc ivec input))) = length input.

(** A context right after [EVP_EncryptInit_ex]: nothing buffered, no block
    held back, the mask of its block size, arrays of their declared size. *)
Definition fresh_ctx (ctx : EVP_CIPHER_CTX) : Prop :=
  buf_len ctx = 0 /\ final_used ctx = 0
  /\ block_mask ctx = block_size (cipher ctx) - 1
  /\ length (buf ctx) = 32%nat /\ length (final ctx) = 32%nat.

(** The block transform [aes_ecb_cipher] applies in each direction. *)
Definition ecb_direction (key : list byte) (enc : Z) : list byte -> list byte :=
  if negb (enc =? 0) then AES_encrypt key else AES_decrypt key.

(** An engine both of whose contexts [SetKey] has keyed with [key]. *)
Definition keyed_engine (keylen : Z) (key : list byte) (e : H235CryptoEngine) : Prop :=
  exists ce cd,
    m_encryptCtx e = Some ce /\ keyed_ctx keylen key ce
    /\ m_decryptCtx e = Some cd /\ keyed_ctx keylen key cd.

(* ================================================================== *)
(** ** Properties *)

(** Decide a comparison of integers by [lia]. *)
Ltac zb :=
  first
    [ apply Z.eqb_eq; lia | apply Z.eqb_neq; lia
    | apply Z.leb_le; lia | apply Z.leb_gt; lia
    | apply Z.ltb_lt; lia | apply Z.ltb_ge; lia
    | rewrite Z.gtb_ltb; first [apply Z.ltb_lt; lia | apply Z.ltb_ge; lia]
    | rewrite Z.geb_leb; first [apply Z.leb_le; lia | apply Z.leb_gt; lia] ].

Ltac zrew b v := replace b with v by (symmetry; zb).

(** *** Bytes *)

Lemma byte_xor_cancel (a b : byte) : byte_xor (byte_xor a b) b = a.
Proof.
  unfold byte_xor.
  destruct (Byte.to_bits a) as [a0 [a1 [a2 [a3 [a4 [a5 [a6 a7]]]]]]] eqn:Ea.
  destruct (Byte.to_bits b) as [b0 [b1 [b2 [b3 [b4 [b5 [b6 b7]]]]]]] eqn:Eb.
  rewrite Byte.to_bits_of_bits.
  rewrite <- (Byte.of_bits_to_bits a), Ea.
  repeat match goal with |- context [xorb (xorb ?x ?y) ?y] =>
    replace (xorb (xorb x y) y) with x by (destruct x, y; reflexivity) end.
  reflexivity.
Qed.

Lemma byte_xor_zero_r (a : byte) : byte_xor a Byte.x00 = a.
Proof.
  unfold byte_xor.
  destruct (Byte.to_bits a) as [a0 [a1 [a2 [a3 [a4 [a5 [a6 a7]]]]]]] eqn:Ea.
  simpl. rewrite !xorb_false_r.
  rewrite <- (Byte.of_bits_to_bits a), Ea. reflexivity.
Qed.

Lemma byte_xor_zero_l (a : byte) : byte_xor Byte.x00 a = a.
Proof.
  unfold byte_xor.
  destruct (Byte.to_bits a) as [a0 [a1 [a2 [a3 [a4 [a5 [a6 a7]]]]]]] eqn:Ea.
  simpl. rewrite <- (Byte.of_bits_to_bits a), Ea. reflexivity.
Qed.


Lemma uchar_int_uchar (z : Z) : 0 <= z <= 255 -> uchar_to_int (int_to_uchar z) = z.
Proof.
  intros Hz. unfold uchar_to_int, int_to_uchar.
  rewrite Z.mod_small by lia.
  destruct (Byte.of_N (Z.to_N z)) as [b|] eqn:E.
  - apply Byte.to_of_N in E. rewrite E. lia.
  - apply Byte.of_N_None_iff in E. lia.
Qed.

(** *** Lists as arrays *)

Lemma xor_loop_length (n : nat) (a b : list byte) :
  length (xor_loop n a b) = length a.
Proof.
  revert a b. induction n as [|n IH]; intros [|x a] [|y b]; simpl; auto.
Qed.

Lemma xor_loop_cancel (n : nat) (a b : list byte) :
  xor_loop n (xor_loop n a b) b = a.
Proof.
  revert a b. induction n as [|n IH]; intros [|x a] [|y b]; simpl; auto.
  rewrite byte_xor_cancel, IH. reflexivity.
Qed.

Lemma xor_loop_app_r (n : nat) (a b t : list byte) :
  (length a <= length b)%nat -> xor_loop n a (b ++ t) = xor_loop n a b.
Proof.
  revert a b. induction n as [|n IH]; intros [|x a] [|y b] H; simpl in *;
    try reflexivity; try lia.
  rewrite IH by lia. reflexivity.
Qed.

Lemma xor_loop_app (n : nat) (a1 a2 b1 b2 : list byte) :
  length a1 = length b1 ->
  xor_loop n (a1 ++ a2) (b1 ++ b2)
  = xor_loop n a1 b1 ++ xor_loop (n - length a1) a2 b2.
Proof.
  revert n b1. induction a1 as [|x a1 IH]; intros n [|y b1] H; simpl in *;
    try discriminate.
  - rewrite Nat.sub_0_r. destruct n; reflexivity.
  - destruct n as [|n]; simpl.
    + destruct a2, b2; reflexivity.
    + rewrite IH by lia. reflexivity.
Qed.

Lemma xor_loop_zeros_r (n : nat) (a : list byte) (m : nat) :
  xor_loop n a (repeat Byte.x00 m) = a.
Proof.
  revert a m. induction n as [|n IH]; intros [|x a] [|m]; simpl; auto.
  rewrite byte_xor_zero_r, IH. reflexivity.
Qed.

Lemma xor_loop_zeros_l (n m : nat) (b : list byte) :
  (m <= n)%nat -> length b = m -> xor_loop n (repeat Byte.x00 m) b = b.
Proof.
  revert m b. induction n as [|n IH]; intros [|m] [|y b] H1 H2;
    cbn [xor_loop repeat length] in *; try discriminate; try lia; auto.
  rewrite byte_xor_zero_l, IH by lia. reflexivity.
Qed.

Lemma copy_loop_firstn (n : nat) (l : list byte) : copy_loop n l = firstn n l.
Proof.
  revert l. induction n as [|n IH]; intros [|x l]; simpl; auto.
Qed.

Lemma firstn_app_le {A} (n : nat) (a b : list A) :
  (n <= length a)%nat -> firstn n (a ++ b) = firstn n a.
Proof.
  intros H. rewrite firstn_app.
  replace (n - length a)%nat with 0%nat by lia. apply app_nil_r.
Qed.

Lemma firstn_app_ge {A} (n : nat) (a b : list A) :
  (length a <= n)%nat -> firstn n (a ++ b) = a ++ firstn (n - length a) b.
Proof.
  intros H. rewrite firstn_app. f_equal. apply firstn_all2. exact H.
Qed.


Lemma skipn_app_ge {A} (n : nat) (a b : list A) :
  (length a <= n)%nat -> skipn n (a ++ b) = skipn (n - length a) b.
Proof.
  intros H. rewrite skipn_app.
  rewrite (skipn_all2 a) by exact H. reflexivity.
Qed.

Lemma firstn_app_l {A} (n : nat) (a b : list A) :
  n = length a -> firstn n (a ++ b) = a.
Proof.
  intros ->. rewrite firstn_app_ge, Nat.sub_diag by lia. apply app_nil_r.
Qed.

Lemma skipn_app_l {A} (n : nat) (a b : list A) :
  n = length a -> skipn n (a ++ b) = b.
Proof.
  intros ->. rewrite skipn_app_ge, Nat.sub_diag by lia. reflexivity.
Qed.

Lemma firstn_full {A} (n : nat) (a : list A) :
  (length a <= n)%nat -> firstn n a = a.
Proof. apply firstn_all2. Qed.

Lemma skipn_full {A} (n : nat) (a : list A) :
  (length a <= n)%nat -> skipn n a = [].
Proof. apply skipn_all2. Qed.

Create Rewrite HintDb len.
#[local] Hint Rewrite @length_app @length_firstn @length_skipn @repeat_length
  xor_loop_length @length_rev @length_map : len.

(** Lengths of slices, by rewriting and [lia]. *)
Ltac len := autorewrite with len in *; cbn [length] in *; lia.

Lemma memcpy_length (dst : list byte) (off : Z) (src : list byte) (n : Z) :
  0 <= off -> 0 <= n -> off + n <= Z.of_nat (length dst) ->
  n <= Z.of_nat (length src) ->
  length (memcpy dst off src n) = length dst.
Proof.
  intros. unfold memcpy.
  rewrite !length_app, !length_firstn, length_skipn. lia.
Qed.

Lemma memset_length (dst : list byte) (off : Z) (c : byte) (n : Z) :
  0 <= off -> 0 <= n -> off + n <= Z.of_nat (length dst) ->
  length (memset dst off c n) = length dst.
Proof.
  intros. unfold memset.
  rewrite !length_app, length_firstn, repeat_length, length_skipn. lia.
Qed.

(** [memcpy(dst, src, n)] at offset 0: the first [n] bytes are those of
    [src]. *)
Lemma memcpy_0_firstn (dst src : list byte) (n : Z) :
  0 <= n -> n <= Z.of_nat (length src) ->
  firstn (Z.to_nat n) (memcpy dst 0 src n) = firstn (Z.to_nat n) src.
Proof.
  intros. unfold memcpy. simpl.
  apply firstn_app_l. rewrite length_firstn. lia.
Qed.

(** *** The ciphertext-stealing calls *)

(** C10: the decrypt-update call of the ciphertext-stealing code is the
    encrypt-update call: on every context and every input both end the
    same way, and when they return they give the same return code, the
    same bytes stored, the same [*outl] and the same context. *)
Theorem C10_DecryptUpdate_cts_is_EncryptUpdate_cts :
  forall (ctx : EVP_CIPHER_CTX) (input : list byte) (inl : Z),
    EVP_DecryptUpdate_cts ctx input inl = EVP_EncryptUpdate_cts ctx input inl.
Proof.
  intros ctx input inl. unfold EVP_DecryptUpdate_cts. reflexivity.
Qed.

Lemma mode_cases (ctx : EVP_CIPHER_CTX) :
  EVP_CIPHER_CTX_mode ctx <> EVP_CIPH_ECB_MODE ->
  EVP_CIPHER_CTX_mode ctx <> EVP_CIPH_CBC_MODE ->
  (EVP_CIPHER_CTX_mode ctx =? EVP_CIPH_ECB_MODE) = false
  /\ (EVP_CIPHER_CTX_mode ctx =? EVP_CIPH_CBC_MODE) = false.
Proof.
  intros H1 H2. split; apply Z.eqb_neq; assumption.
Qed.

(** C7: both final calls of the ciphertext-stealing code fail, storing
    nothing and leaving [*outl = 0], when there is no pending final block,
    when the partial buffer is empty, and for every mode other than ECB and
    CBC.  The state is looked at first: without a pending block or with an
    empty buffer the failure is the missing-state one, otherwise a mode
    other than ECB and CBC gives the unsupported-mode one. *)
Theorem C7_cts_final_failures :
  forall ctx : EVP_CIPHER_CTX,
    final_used ctx = 0 \/ buf_len ctx = 0
    \/ (EVP_CIPHER_CTX_mode ctx <> EVP_CIPH_ECB_MODE
        /\ EVP_CIPHER_CTX_mode ctx <> EVP_CIPH_CBC_MODE) ->
    let e := EVP_EncryptFinal_cts ctx in
    let d := EVP_DecryptFinal_cts ctx in
    (ret e = 0 /\ outl e = 0 /\ out_bytes e = [])
    /\ (ret d = 0 /\ outl d = 0 /\ out_bytes d = [])
    /\ (final_used ctx = 0 \/ buf_len ctx = 0 ->
        cts_error e = Some MissingState /\ cts_error d = Some MissingState)
    /\ (final_used ctx <> 0 -> buf_len ctx <> 0 ->
        cts_error e = Some UnsupportedMode /\ cts_error d = Some UnsupportedMode).
Proof.
  intros ctx H e d. subst e d.
  unfold EVP_EncryptFinal_cts, EVP_DecryptFinal_cts.
  destruct (final_used ctx =? 0) eqn:Ef.
  { apply Z.eqb_eq in Ef.
    split; [|split; [|split]]; [repeat split .. | intros _; split; reflexivity | ].
    intros Hn. contradiction. }
  destruct (buf_len ctx =? 0) eqn:Eb.
  { apply Z.eqb_eq in Eb.
    split; [|split; [|split]]; [repeat split .. | intros _; split; reflexivity | ].
    intros _ Hn. contradiction. }
  apply Z.eqb_neq in Ef, Eb.
  destruct H as [H | [H | [H1 H2]]]; try contradiction.
  destruct (mode_cases ctx H1 H2) as [-> ->].
  split; [|split; [|split]]; [repeat split .. | | intros _ _; split; reflexivity ].
  intros [?|?]; contradiction.
Qed.

(** *** The relaxed final block *)

(** C4: with padding in use, a block size above one, no buffered bytes and
    a final block held back, the relaxed decode reads [n] from the last byte
    of the final block.  For [1 <= n <= block_size] it succeeds and gives
    the first [block_size - n] bytes of the final block, whatever the other
    padding bytes hold; for [n = 0] or [n > block_size] it fails with the
    bad-decrypt trace.  On any context that trace appears exactly in this
    last case. *)
Theorem C4_relaxed_final_block :
  forall ctx : EVP_CIPHER_CTX,
    let b := block_size (cipher ctx) in
    let n := uchar_to_int (nth (Z.to_nat (b - 1)) (final ctx) Byte.x00) in
    let reads_n :=
      Z.land (ctx_flags ctx) EVP_CIPH_NO_PADDING = 0 /\ 1 < b
      /\ b <= EVP_MAX_BLOCK_LENGTH /\ buf_len ctx = 0 /\ final_used ctx <> 0 in
    (reads_n -> 1 <= n <= b ->
     EVP_DecryptFinal_relaxed ctx
     = Returns (evp 1 ctx (firstn (Z.to_nat (b - n)) (final ctx)) (b - n) []))
    /\ (reads_n -> n = 0 \/ n > b ->
        EVP_DecryptFinal_relaxed ctx = Returns (evp 0 ctx [] 0 [msg_bad_decrypt]))
    /\ (forall r, EVP_DecryptFinal_relaxed ctx = Returns r ->
        (trace r = [msg_bad_decrypt] <-> reads_n /\ (n = 0 \/ n > b))).
Proof.
  intros ctx b n reads_n. subst reads_n.
  assert (Hrun : Z.land (ctx_flags ctx) EVP_CIPH_NO_PADDING = 0 -> 1 < b ->
                 b <= EVP_MAX_BLOCK_LENGTH -> buf_len ctx = 0 -> final_used ctx <> 0 ->
                 EVP_DecryptFinal_relaxed ctx
                 = if (n =? 0) || (n >? b)
                   then Returns (evp 0 ctx [] 0 [msg_bad_decrypt])
                   else Returns (evp 1 ctx (firstn (Z.to_nat (b - n)) (final ctx))
                                     (b - n) [])).
  { intros Hp Hb Hm Hl Hf. unfold EVP_DecryptFinal_relaxed.
    fold b. fold n. rewrite Hp, Hl. simpl negb. cbn [orb].
    replace (b >? 1) with true by (symmetry; apply Z.gtb_lt; lia).
    replace (final_used ctx =? 0) with false by (symmetry; apply Z.eqb_neq; assumption).
    replace (b <=? EVP_MAX_BLOCK_LENGTH) with true by (symmetry; apply Z.leb_le; assumption).
    cbn [negb]. rewrite copy_loop_firstn. reflexivity. }
  split; [|split].
  - intros (Hp & Hb & Hm & Hl & Hf) Hn. rewrite Hrun by assumption.
    replace (n =? 0) with false by (symmetry; apply Z.eqb_neq; lia).
    zrew (n >? b) false.
    reflexivity.
  - intros (Hp & Hb & Hm & Hl & Hf) Hn. rewrite Hrun by assumption.
    destruct Hn as [Hn | Hn].
    + rewrite Hn. reflexivity.
    + replace (n >? b) with true by (symmetry; apply Z.gtb_lt; lia).
      rewrite orb_true_r. reflexivity.
  - intros r Hr. split.
    + intros Ht. unfold EVP_DecryptFinal_relaxed in Hr. fold b in Hr. fold n in Hr.
      destruct (Z.land (ctx_flags ctx) EVP_CIPH_NO_PADDING =? 0) eqn:Ep; cbn [negb] in Hr.
      2:{ destruct (buf_len ctx =? 0); cbn [negb] in Hr; injection Hr as <-;
          discriminate Ht. }
      destruct (b >? 1) eqn:Eb.
      2:{ injection Hr as <-; discriminate Ht. }
      destruct (buf_len ctx =? 0) eqn:El; cbn [negb orb] in Hr.
      2:{ injection Hr as <-; discriminate Ht. }
      destruct (final_used ctx =? 0) eqn:Ef.
      { injection Hr as <-; discriminate Ht. }
      destruct (b <=? EVP_MAX_BLOCK_LENGTH) eqn:Em; cbn [negb] in Hr; [|discriminate Hr].
      destruct ((n =? 0) || (n >? b)) eqn:En.
      2:{ injection Hr as <-; discriminate Ht. }
      apply Z.eqb_eq in Ep, El. apply Z.eqb_neq in Ef. apply Z.leb_le in Em.
      apply Z.gtb_lt in Eb. apply orb_true_iff in En.
      repeat split; try assumption; try lia.
    + intros [(Hp & Hb & Hm & Hl & Hf) Hn].
      rewrite Hrun in Hr by assumption.
      replace ((n =? 0) || (n >? b)) with true in Hr.
      * injection Hr as <-. reflexivity.
      * symmetry. apply orb_true_iff.
        destruct Hn; [left; apply Z.eqb_eq; assumption | right; apply Z.gtb_lt; lia].
Qed.

(** *** The session flags *)

(** C9: [IsActive] is the negation of [IsInitialised] in every session
    state; right after [CreateSession], which returns true and sets the
    initialised flag, [IsInitialised] is true and [IsActive] is false. *)
Theorem C9_IsActive_negates_IsInitialised :
  (forall s : H235Session, IsActive s = negb (IsInitialised s))
  /\ (forall (s : H235Session) (isMaster : bool) (rnd : list byte),
        fst (CreateSession s isMaster rnd) = true
        /\ IsInitialised (snd (CreateSession s isMaster rnd)) = true
        /\ IsActive (snd (CreateSession s isMaster rnd)) = false).
Proof.
  split.
  - reflexivity.
  - intros s isMaster rnd. unfold CreateSession, IsActive, IsInitialised.
    cbn [m_isMaster].
    destruct isMaster.
    + destruct (GenerateRandomKey _ rnd) as [[k e] t]. repeat split.
    + repeat split.
Qed.

(** *** The initialisation vector *)

Lemma SetIV_loop_spec (n : nat) : forall (i : nat) (ivec s : list byte),
  length s = 6%nat -> ((i + n) * 6 <= length ivec)%nat ->
  SetIV_loop n (Z.of_nat i) ivec s
  = firstn (6 * i) ivec ++ concat (repeat s n) ++ skipn (6 * (i + n)) ivec.
Proof.
  induction n as [|n IH]; intros i ivec s Hs Hlen.
  - cbn [SetIV_loop repeat concat app]. rewrite Nat.add_0_r.
    symmetry. apply firstn_skipn.
  - cbn [SetIV_loop].
    replace (Z.of_nat i + 1) with (Z.of_nat (S i)) by lia.
    unfold memcpy, IV_SEQUENCE_LEN.
    replace (Z.to_nat (Z.of_nat i * 6)) with (6 * i)%nat by lia.
    replace (Z.to_nat 6) with 6%nat by reflexivity.
    rewrite (firstn_full 6 s) by lia.
    assert (HA : length (firstn (6 * i) ivec) = (6 * i)%nat) by len.
    rewrite IH; [| assumption | len].
    rewrite firstn_app_ge by len.
    rewrite firstn_app_l by len.
    rewrite skipn_app_ge by len.
    rewrite skipn_app_ge by len.
    rewrite skipn_skipn.
    cbn [repeat concat].
    rewrite <- !app_assoc. do 3 f_equal. rewrite HA, Hs. f_equal. lia.
Qed.

Lemma concat_repeat_length (s : list byte) (n : nat) :
  length (concat (repeat s n)) = (n * length s)%nat.
Proof.
  induction n as [|n IH]; cbn [repeat concat]; [reflexivity|].
  rewrite length_app, IH. lia.
Qed.

Lemma SetIV_spec :
  forall (ivec : list byte) (ivLen : Z),
    0 <= ivLen <= Z.of_nat (length ivec) ->
    (firstn (Z.to_nat ivLen) (SetIV ivec None ivLen) = repeat Byte.x00 (Z.to_nat ivLen)
     /\ skipn (Z.to_nat ivLen) (SetIV ivec None ivLen) = skipn (Z.to_nat ivLen) ivec)
    /\ forall s : list byte,
         length s = 6%nat ->
         firstn (Z.to_nat ivLen) (SetIV ivec (Some s) ivLen)
         = concat (repeat s (Z.to_nat (ivLen / 6)))
             ++ firstn (Z.to_nat (ivLen mod 6)) s
         /\ skipn (Z.to_nat ivLen) (SetIV ivec (Some s) ivLen)
            = skipn (Z.to_nat ivLen) ivec.
Proof.
  intros ivec ivLen HL. split.
  - unfold SetIV, memset. cbn [Z.to_nat firstn app Nat.add]. split.
    + apply firstn_app_l. len.
    + rewrite skipn_app_ge by len. rewrite repeat_length, Nat.sub_diag. reflexivity.
  - intros s Hs. unfold SetIV, IV_SEQUENCE_LEN.
    pose proof (Z.div_mod ivLen 6 ltac:(lia)) as Hdm.
    pose proof (Z.mod_pos_bound ivLen 6 ltac:(lia)) as Hr.
    assert (Hq : 0 <= ivLen / 6) by (apply Z.div_pos; lia).
    set (q := Z.to_nat (ivLen / 6)).
    set (r := Z.to_nat (ivLen mod 6)).
    assert (HLq : Z.to_nat ivLen = (q * 6 + r)%nat) by (subst q r; lia).
    pose proof (concat_repeat_length s q) as Hc. rewrite Hs in Hc.
    pose proof (SetIV_loop_spec q 0 ivec s Hs ltac:(lia)) as Hloop.
    change (Z.of_nat 0) with 0 in Hloop.
    change (firstn (6 * 0) ivec) with (@nil byte) in Hloop.
    cbn [app Nat.add] in Hloop. rewrite Hloop.
    destruct (ivLen mod 6 >? 0) eqn:Er.
    + unfold memcpy.
      replace (Z.to_nat (ivLen - ivLen mod 6)) with (q * 6)%nat by (subst q; lia).
      fold r. rewrite (firstn_app_l (q * 6)) by lia.
      rewrite (skipn_app_ge (q * 6 + r)) by lia. rewrite skipn_skipn.
      rewrite HLq. split.
      * rewrite app_assoc. apply firstn_app_l. len.
      * rewrite skipn_app_ge by len. rewrite skipn_app_ge by len.
        rewrite skipn_skipn. f_equal. len.
    + assert (r = 0%nat) by (subst r; lia).
      rewrite HLq. subst r. rewrite H. cbn [firstn]. rewrite app_nil_r. split.
      * apply firstn_app_l. lia.
      * rewrite skipn_app_ge by lia. rewrite skipn_skipn. f_equal. lia.
Qed.

(** C6: [SetIV] always fills the first [ivLen] bytes of the IV array and
    has no failing path.  Without a sequence value they are zero bytes; with
    a 6-byte sequence value they are the value repeated [ivLen / 6] times
    followed by its first [ivLen mod 6] bytes.  The rest of the array is
    left as it was. *)
Theorem C6_SetIV_tiles_the_sequence :
  forall (ivec : list byte) (ivLen : Z),
    0 <= ivLen <= Z.of_nat (length ivec) ->
    (firstn (Z.to_nat ivLen) (SetIV ivec None ivLen) = repeat Byte.x00 (Z.to_nat ivLen)
     /\ skipn (Z.to_nat ivLen) (SetIV ivec None ivLen) = skipn (Z.to_nat ivLen) ivec)
    /\ forall s : list byte,
         length s = 6%nat ->
         firstn (Z.to_nat ivLen) (SetIV ivec (Some s) ivLen)
         = concat (repeat s (Z.to_nat (ivLen / 6)))
             ++ firstn (Z.to_nat (ivLen mod 6)) s
         /\ skipn (Z.to_nat ivLen) (SetIV ivec (Some s) ivLen)
            = skipn (Z.to_nat ivLen) ivec.
Proof. exact SetIV_spec. Qed.


(** *** The block cipher

    What is used of AES: both transforms map 16-byte blocks to 16-byte
    blocks, and decryption undoes encryption under the same key. *)

Hypothesis AES_encrypt_length :
  forall key block, length block = 16%nat -> length (AES_encrypt key block) = 16%nat.
Hypothesis AES_decrypt_length :
  forall key block, length block = 16%nat -> length (AES_decrypt key block) = 16%nat.
Hypothesis AES_decrypt_encrypt :
  forall key block, length block = 16%nat ->
    AES_decrypt key (AES_encrypt key block) = block.

Lemma cbc128_encrypt_length (key : list byte) (n : nat) :
  forall ivec input,
    (16 * n <= length input)%nat -> length ivec = 16%nat ->
    length (fst (cbc128_encrypt key n ivec input)) = (16 * n)%nat
    /\ length (snd (cbc128_encrypt key n ivec input)) = 16%nat.
Proof.
  induction n as [|n IH]; intros ivec input Hin Hiv; cbn [cbc128_encrypt].
  - split; [reflexivity | exact Hiv].
  - set (c := AES_encrypt key (xor_loop 16 (firstn 16 input) ivec)).
    assert (Hc : length c = 16%nat)
      by (apply AES_encrypt_length; rewrite xor_loop_length; len).
    specialize (IH c (skipn 16 input) ltac:(len) Hc).
    destruct (cbc128_encrypt key n c (skipn 16 input)) as [rest iv'].
    cbn [fst snd] in *. split; [len | tauto].
Qed.

Lemma cbc128_decrypt_length (key : list byte) (n : nat) :
  forall ivec input,
    (16 * n <= length input)%nat -> length ivec = 16%nat ->
    length (fst (cbc128_decrypt key n ivec input)) = (16 * n)%nat
    /\ length (snd (cbc128_decrypt key n ivec input)) = 16%nat.
Proof.
  induction n as [|n IH]; intros ivec input Hin Hiv; cbn [cbc128_decrypt].
  - split; [reflexivity | exact Hiv].
  - assert (Hc : length (firstn 16 input) = 16%nat) by len.
    specialize (IH (firstn 16 input) (skipn 16 input) ltac:(len) Hc).
    destruct (cbc128_decrypt key n (firstn 16 input) (skipn 16 input)) as [rest iv'].
    cbn [fst snd] in *. split; [|tauto].
    rewrite length_app, xor_loop_length, AES_decrypt_length by exact Hc. lia.
Qed.

(** Only the first [16 * n] input bytes are read. *)
Lemma cbc128_encrypt_firstn (key : list byte) (n : nat) :
  forall ivec input m, (16 * n <= m)%nat ->
    cbc128_encrypt key n ivec (firstn m input) = cbc128_encrypt key n ivec input.
Proof.
  induction n as [|n IH]; intros ivec input m Hm; cbn [cbc128_encrypt].
  - reflexivity.
  - rewrite firstn_firstn, Nat.min_l by lia.
    rewrite skipn_firstn_comm, IH by lia. reflexivity.
Qed.

Lemma cbc128_decrypt_firstn (key : list byte) (n : nat) :
  forall ivec input m, (16 * n <= m)%nat ->
    cbc128_decrypt key n ivec (firstn m input) = cbc128_decrypt key n ivec input.
Proof.
  induction n as [|n IH]; intros ivec input m Hm; cbn [cbc128_decrypt].
  - reflexivity.
  - rewrite firstn_firstn, Nat.min_l by lia.
    rewrite skipn_firstn_comm, IH by lia. reflexivity.
Qed.

(** CBC decryption undoes CBC encryption, and both leave the last
    ciphertext block as IV. *)
Lemma cbc128_roundtrip (key : list byte) (n : nat) :
  forall ivec input t,
    length input = (16 * n)%nat -> length ivec = 16%nat ->
    cbc128_decrypt key n ivec (fst (cbc128_encrypt key n ivec input) ++ t)
    = (input, snd (cbc128_encrypt key n ivec input)).
Proof.
  induction n as [|n IH]; intros ivec input t Hin Hiv;
    cbn [cbc128_encrypt cbc128_decrypt].
  - destruct input; [reflexivity | discriminate].
  - set (c := AES_encrypt key (xor_loop 16 (firstn 16 input) ivec)).
    assert (Hx : length (xor_loop 16 (firstn 16 input) ivec) = 16%nat)
      by (rewrite xor_loop_length; len).
    assert (Hc : length c = 16%nat) by (apply AES_encrypt_length; exact Hx).
    specialize (IH c (skipn 16 input) t ltac:(len) Hc).
    destruct (cbc128_encrypt key n c (skipn 16 input)) as [rest iv'].
    cbn [fst snd] in *.
    rewrite <- app_assoc.
    rewrite firstn_app_l, skipn_app_l by (symmetry; exact Hc).
    rewrite IH. subst c.
    rewrite AES_decrypt_encrypt by exact Hx.
    rewrite xor_loop_cancel, firstn_skipn. reflexivity.
Qed.

(** *** Running the engine on a keyed context *)

(** Reduce field reads and field updates of explicit contexts. *)
Ltac rsimpl :=
  cbn [cipher encrypt buf_len oiv iv buf ctx_flags cipher_data final_used
       block_mask final set_encrypt set_buf_len set_oiv set_iv set_buf
       set_ctx_flags set_final_used set_block_mask set_final
       block_size key_len iv_len flags do_cipher EVP_aes_cbc EVP_aes_ecb
       EVP_CIPHER_CTX_block_size EVP_CIPHER_CTX_iv_length
       ret ctx_after out_bytes outl trace evp fst snd negb andb orb] in *.

Lemma land15 (z : Z) : Z.land z 15 = z mod 16.
Proof.
  change 15 with (Z.ones 4). rewrite Z.land_ones by lia. reflexivity.
Qed.


Lemma memcpy_all (dst src : list byte) (n : Z) :
  length dst = Z.to_nat n -> length src = Z.to_nat n ->
  memcpy dst 0 src n = src.
Proof.
  intros Hd Hs. unfold memcpy. change (Z.to_nat 0) with 0%nat.
  cbn [firstn app Nat.add].
  rewrite firstn_full, skipn_full by lia. apply app_nil_r.
Qed.

Lemma iv_of_length (ivSequence : option (list byte)) :
  seq_ok ivSequence -> length (iv_of ivSequence) = 16%nat.
Proof.
  intros Hs. unfold iv_of.
  set (z := PBYTEArray_new EVP_MAX_IV_LENGTH).
  assert (Hz : length z = 16%nat) by reflexivity.
  destruct (SetIV_spec z 16 ltac:(rewrite Hz; lia)) as [[Hn1 Hn2] Hsome].
  rewrite <- (firstn_skipn (Z.to_nat 16) (SetIV z ivSequence 16)).
  destruct ivSequence as [s|].
  - cbn [seq_ok] in Hs. destruct (Hsome s Hs) as [H1 H2]. rewrite H1, H2.
    rewrite skipn_full by (rewrite Hz; reflexivity).
    rewrite app_nil_r, length_app, concat_repeat_length, Hs.
    change (Z.to_nat (16 / 6)) with 2%nat. change (Z.to_nat (16 mod 6)) with 4%nat.
    rewrite length_firstn. lia.
  - rewrite Hn1, Hn2. rewrite skipn_full by (rewrite Hz; reflexivity).
    rewrite app_nil_r, repeat_length. reflexivity.
Qed.

Lemma prepare_ctx (keylen : Z) (key : list byte) (ctx : EVP_CIPHER_CTX)
  (ivec : list byte) (enc : Z) (pad : bool) :
  keyed_ctx keylen key ctx -> length ivec = 16%nat ->
  EVP_CIPHER_CTX_set_padding (EVP_CipherInit_ex_iv ctx ivec enc) (if pad then 1 else 0)
  = ready_ctx keylen key enc ivec pad (buf ctx) (final ctx).
Proof.
  intros (Hc & Hk & Hb & Hf & Hi & Ho & Hfl) Hiv.
  destruct ctx as [c e bl o i b fl cd fu bm fi]. rsimpl. subst c cd.
  unfold EVP_CipherInit_ex_iv, EVP_CIPHER_CTX_mode, EVP_CIPHER_CTX_set_padding.
  rsimpl. change (Z.land EVP_CIPH_CBC_MODE EVP_CIPH_MODE =? EVP_CIPH_CBC_MODE) with true.
  cbv iota. rsimpl.
  rewrite (memcpy_all o ivec 16) by assumption.
  rewrite (memcpy_all i ivec 16) by assumption.
  unfold ready_ctx, AES_BLOCK_SIZE.
  destruct pad; cbn [Z.eqb negb]; rsimpl;
    destruct Hfl as [-> | ->]; reflexivity.
Qed.

Lemma memcpy_0 (dst src : list byte) (n : Z) :
  memcpy dst 0 src n = firstn (Z.to_nat n) src ++ skipn (Z.to_nat n) dst.
Proof. reflexivity. Qed.

Lemma cbc128_firstn (key : list byte) (enc : Z) (n : nat) (ivec input : list byte)
  (m : nat) :
  (16 * n <= m)%nat ->
  cbc128 key enc n ivec (firstn m input) = cbc128 key enc n ivec input.
Proof.
  intros H. unfold cbc128.
  destruct (negb (enc =? 0));
    [apply cbc128_encrypt_firstn | apply cbc128_decrypt_firstn]; exact H.
Qed.

Lemma cbc128_ext (key : list byte) (enc : Z) (n : nat) (ivec a b : list byte) :
  firstn (16 * n) a = firstn (16 * n) b ->
  cbc128 key enc n ivec a = cbc128 key enc n ivec b.
Proof.
  intros H. rewrite <- (cbc128_firstn key enc n ivec a (16 * n)) by lia.
  rewrite H. apply cbc128_firstn. lia.
Qed.

Lemma cbc128_length (key : list byte) (enc : Z) (n : nat) (ivec input : list byte) :
  (16 * n <= length input)%nat -> length ivec = 16%nat ->
  length (fst (cbc128 key enc n ivec input)) = (16 * n)%nat
  /\ length (snd (cbc128 key enc n ivec input)) = 16%nat.
Proof.
  intros H1 H2. unfold cbc128.
  destruct (negb (enc =? 0));
    [apply cbc128_encrypt_length | apply cbc128_decrypt_length]; assumption.
Qed.

Lemma cbc128_0 (key : list byte) (enc : Z) (ivec input : list byte) :
  cbc128 key enc 0 ivec input = ([], ivec).
Proof. unfold cbc128. destruct (negb (enc =? 0)); reflexivity. Qed.

(** One block, then the others with the IV the first one leaves. *)
Lemma cbc128_S (key : list byte) (enc : Z) (n : nat) (ivec input : list byte) :
  cbc128 key enc (S n) ivec input
  = (fst (cbc128 key enc 1 ivec input)
       ++ fst (cbc128 key enc n (snd (cbc128 key enc 1 ivec input)) (skipn 16 input)),
     snd (cbc128 key enc n (snd (cbc128 key enc 1 ivec input)) (skipn 16 input))).
Proof.
  unfold cbc128. destruct (negb (enc =? 0)).
  - cbn [cbc128_encrypt fst snd]. rewrite app_nil_r.
    destruct (cbc128_encrypt key n _ (skipn 16 input)); reflexivity.
  - cbn [cbc128_decrypt fst snd]. rewrite app_nil_r.
    destruct (cbc128_decrypt key n _ (skipn 16 input)); reflexivity.
Qed.

Lemma ctx_do_cipher_cbc (keylen : Z) (ctx : EVP_CIPHER_CTX) (input : list byte)
  (inl : Z) (n : nat) :
  cipher ctx = EVP_aes_cbc keylen ->
  Z.to_nat inl = (16 * n)%nat -> (16 * n <= length input)%nat ->
  ctx_do_cipher ctx input inl
  = (1, fst (cbc128 (cipher_data ctx) (encrypt ctx) n (iv ctx) input),
     set_iv ctx (snd (cbc128 (cipher_data ctx) (encrypt ctx) n (iv ctx) input))).
Proof.
  intros Hc Hn Hlen. unfold ctx_do_cipher. rewrite Hc.
  cbn [do_cipher EVP_aes_cbc]. unfold aes_cbc_cipher. rewrite Hn.
  replace (length (firstn (16 * n) input) / 16)%nat with n
    by (rewrite length_firstn, Nat.min_l, Nat.mul_comm, Nat.div_mul by lia; reflexivity).
  fold (cbc128 (cipher_data ctx) (encrypt ctx) n (iv ctx) (firstn (16 * n) input)).
  rewrite cbc128_firstn by lia.
  destruct (cbc128 _ _ n (iv ctx) input). reflexivity.
Qed.

Lemma EncryptUpdate_cts_ready (keylen : Z) (key : list byte) (enc : Z)
  (ivec : list byte) (pad : bool) (B F P : list byte) (q r : nat) :
  length B = 32%nat -> length F = 32%nat ->
  length P = (16 * q + r)%nat -> (1 <= q)%nat -> (0 < r < 16)%nat ->
  EVP_EncryptUpdate_cts (ready_ctx keylen key enc ivec pad B F) P (Z.of_nat (length P))
  = Returns
      (evp 1
         {| cipher := EVP_aes_cbc keylen; encrypt := enc; buf_len := Z.of_nat r;
            oiv := ivec; iv := snd (cbc128 key enc (q - 1) ivec P);
            buf := skipn (16 * q) P ++ skipn r (firstn 16 P ++ skipn 16 B);
            ctx_flags := if pad then 0 else EVP_CIPH_NO_PADDING;
            cipher_data := key; final_used := 1; block_mask := 15;
            final := firstn 16 (skipn (16 * (q - 1)) P) ++ skipn 16 F |}
         (fst (cbc128 key enc (q - 1) ivec P))
         (Z.of_nat (16 * (q - 1))) []).
Proof.
  intros HB HF HL Hq Hr.
  assert (HP16 : firstn 16 (memcpy B 0 P 16) = firstn 16 P).
  { apply (memcpy_0_firstn B P 16); lia. }
  unfold EVP_EncryptUpdate_cts, ready_ctx. rsimpl. unfold AES_BLOCK_SIZE.
  change (16 <=? EVP_MAX_BLOCK_LENGTH) with true.
  zrew (0 + Z.of_nat (length P) <=? 16) false.
  change (0 =? 0) with true. change (1 =? 0) with false. rsimpl.
  change (16 - 0) with 16.
  destruct (Nat.eq_dec q 1) as [-> | Hq1].
  - (* one whole block and the tail *)
    zrew (Z.of_nat (length P) - 16 <=? 16) true.
    rewrite cbc128_0. cbn [fst snd].
    change (16 * (1 - 1))%nat with 0%nat. change (skipn 0 P) with P.
    replace (Z.of_nat (length P) - 16) with (Z.of_nat r) by lia.
    rewrite !memcpy_0. rewrite Nat2Z.id. change (Z.to_nat 16) with 16%nat.
    rewrite (firstn_app_le 16) by len. rewrite firstn_firstn.
    change (Nat.min 16 16) with 16%nat.
    rewrite (firstn_full r) by len.
    reflexivity.
  - (* at least two whole blocks *)
    zrew (Z.of_nat (length P) - 16 <=? 16) false.
    rewrite (ctx_do_cipher_cbc keylen _ _ 16 1)
      by (try reflexivity; rewrite memcpy_length by lia; lia).
    rsimpl. change (1 =? 0) with false. rsimpl.
    rewrite land15.
    replace ((Z.of_nat (length P) - 16) mod 16) with (Z.of_nat r).
    2:{ rewrite HL. replace (Z.of_nat (16 * q + r) - 16)
          with (Z.of_nat r + Z.of_nat (q - 1) * 16) by lia.
        rewrite Z.mod_add, Z.mod_small by lia. reflexivity. }
    zrew (Z.of_nat r =? 0) false. rsimpl.
    replace (Z.of_nat (length P) - 16 - (16 + Z.of_nat r))
      with (Z.of_nat (16 * (q - 2))) by lia.
    rewrite (ctx_do_cipher_cbc keylen _ _ _ (q - 2)) by (try reflexivity; len).
    rsimpl. change (1 =? 0) with false. rsimpl.
    change (Z.to_nat 16) with 16%nat. rewrite !memcpy_0.
    change (Z.to_nat 16) with 16%nat. rewrite !Nat2Z.id.
    rewrite (cbc128_ext key enc 1 ivec (firstn 16 P ++ skipn 16 B) P)
      by (rewrite firstn_app_le, firstn_firstn by len; reflexivity).
    replace (q - 1)%nat with (S (q - 2)) by lia.
    rewrite (cbc128_S key enc (q - 2) ivec P). cbn [fst snd app].
    rewrite !skipn_skipn.
    replace (Z.to_nat (Z.of_nat (16 * (q - 2)) + 16) + 16)%nat with (16 * q)%nat by lia.
    replace (16 * (q - 2) + 16)%nat with (16 * S (q - 2))%nat by lia.
    rewrite (firstn_full r) by len.
    replace (0 + 16 + Z.of_nat (16 * (q - 2))) with (Z.of_nat (16 * S (q - 2))) by lia.
    reflexivity.
Qed.

Lemma cbc128_encrypt_1 (key ivec input : list byte) :
  cbc128 key 1 1 ivec input
  = (AES_encrypt key (xor_loop 16 (firstn 16 input) ivec),
     AES_encrypt key (xor_loop 16 (firstn 16 input) ivec)).
Proof.
  unfold cbc128. change (negb (1 =? 0)) with true. cbv iota.
  cbn [cbc128_encrypt]. rewrite app_nil_r. reflexivity.
Qed.

Lemma cbc128_decrypt_1 (key ivec input : list byte) :
  cbc128 key 0 1 ivec input
  = (xor_loop 16 (AES_decrypt key (firstn 16 input)) ivec, firstn 16 input).
Proof.
  unfold cbc128. change (negb (0 =? 0)) with false. cbv iota.
  cbn [cbc128_decrypt]. rewrite app_nil_r. reflexivity.
Qed.

Lemma memset_zero_tail (tail B' : list byte) (r : nat) :
  length tail = r -> (r <= 16)%nat ->
  firstn 16 (memset (tail ++ B') (Z.of_nat r) Byte.x00 (16 - Z.of_nat r))
  = tail ++ repeat Byte.x00 (16 - r).
Proof.
  intros Ht Hr. unfold memset. rewrite Nat2Z.id.
  replace (Z.to_nat (16 - Z.of_nat r)) with (16 - r)%nat by lia.
  rewrite (firstn_app_l r) by (symmetry; exact Ht).
  rewrite app_assoc. apply firstn_app_l. len.
Qed.

Lemma memcpy_append (o src : list byte) (off n : Z) :
  length o = Z.to_nat off ->
  memcpy o off src n = o ++ firstn (Z.to_nat n) src.
Proof.
  intros Ho. unfold memcpy.
  rewrite firstn_full, skipn_full by lia. rewrite app_nil_r. reflexivity.
Qed.

Lemma EncryptFinal_cts_ready (keylen : Z) (key ivec iv1 : list byte) (fl : Z)
  (tail B' blk F' : list byte) (r : nat) :
  length tail = r -> (0 < r < 16)%nat -> length blk = 16%nat -> length iv1 = 16%nat ->
  let T := AES_encrypt key (xor_loop 16 blk iv1) in
  let X := AES_encrypt key (xor_loop 16 (tail ++ repeat Byte.x00 (16 - r)) T) in
  exists ctx',
    EVP_EncryptFinal_cts
      {| cipher := EVP_aes_cbc keylen; encrypt := 1; buf_len := Z.of_nat r;
         oiv := ivec; iv := iv1; buf := tail ++ B'; ctx_flags := fl;
         cipher_data := key; final_used := 1; block_mask := 15;
         final := blk ++ F' |}
    = evp 1 ctx' (X ++ firstn r T) (16 + Z.of_nat r) [].
Proof.
  intros Ht Hr Hb Hi T X.
  unfold EVP_EncryptFinal_cts, EVP_CIPHER_CTX_mode. rsimpl.
  change (1 =? 0) with false. zrew (Z.of_nat r =? 0) false.
  change (Z.land EVP_CIPH_CBC_MODE EVP_CIPH_MODE =? EVP_CIPH_ECB_MODE) with false.
  change (Z.land EVP_CIPH_CBC_MODE EVP_CIPH_MODE =? EVP_CIPH_CBC_MODE) with true.
  rsimpl. unfold AES_BLOCK_SIZE.
  rewrite (ctx_do_cipher_cbc keylen _ _ 16 1) by (try reflexivity; len).
  rsimpl. change (1 =? 0) with false. rsimpl.
  rewrite (ctx_do_cipher_cbc keylen _ _ 16 1)
    by (try reflexivity; unfold memset; len).
  rsimpl. change (1 =? 0) with false. rsimpl.
  rewrite !cbc128_encrypt_1. cbn [fst snd].
  rewrite (firstn_app_l 16 blk) by (symmetry; exact Hb).
  rewrite memset_zero_tail by lia. fold T. fold X.
  assert (HT : length T = 16%nat)
    by (apply AES_encrypt_length; rewrite xor_loop_length; exact Hb).
  assert (HX : length X = 16%nat)
    by (apply AES_encrypt_length; rewrite xor_loop_length; len).
  rewrite memcpy_append by (rewrite HX; reflexivity).
  rewrite Nat2Z.id. eexists. reflexivity.
Qed.

Lemma xor_loop_cancel_app (n : nat) (a b t : list byte) :
  (length a <= length b)%nat -> xor_loop n (xor_loop n a b) (b ++ t) = a.
Proof.
  intros H. rewrite xor_loop_app_r by (rewrite xor_loop_length; exact H).
  apply xor_loop_cancel.
Qed.

(** The XORs of the CBC decode that give back the plaintext tail and the
    stolen bytes. *)
Lemma cts_steal_xor (tail T rest : list byte) (r : nat) :
  length tail = r -> length T = 16%nat -> (r <= 16)%nat ->
  xor_loop 16 (xor_loop 16 (tail ++ repeat Byte.x00 (16 - r)) T)
           (firstn r T ++ repeat Byte.x00 (16 - r) ++ rest)
  = tail ++ skipn r T.
Proof.
  intros Ht HT Hr.
  rewrite <- (firstn_skipn r T) at 1.
  assert (H1 : length (firstn r T) = r) by len.
  assert (H2 : length (skipn r T) = (16 - r)%nat) by len.
  rewrite xor_loop_app by lia.
  rewrite (xor_loop_zeros_l _ (16 - r)) by lia.
  rewrite xor_loop_app by (rewrite xor_loop_length; lia).
  rewrite xor_loop_cancel.
  rewrite xor_loop_app_r by len.
  rewrite xor_loop_zeros_r. reflexivity.
Qed.

Lemma memset_explicit (a B' : list byte) (r : nat) (c : byte) :
  length a = r -> (r <= 16)%nat ->
  memset (a ++ B') (Z.of_nat r) c (16 - Z.of_nat r)
  = a ++ repeat c (16 - r) ++ skipn 16 (a ++ B').
Proof.
  intros Ha Hr. unfold memset. rewrite Nat2Z.id.
  replace (Z.to_nat (16 - Z.of_nat r)) with (16 - r)%nat by lia.
  rewrite (firstn_app_l r) by (symmetry; exact Ha).
  replace (r + (16 - r))%nat with 16%nat by lia. reflexivity.
Qed.

Lemma DecryptFinal_cts_ready (keylen : Z) (key ivec C : list byte) (fl : Z)
  (tail B' blk F' : list byte) (r : nat) :
  length tail = r -> (0 < r < 16)%nat -> length blk = 16%nat -> length C = 16%nat ->
  let T := AES_encrypt key (xor_loop 16 blk C) in
  let X := AES_encrypt key (xor_loop 16 (tail ++ repeat Byte.x00 (16 - r)) T) in
  exists ctx',
    EVP_DecryptFinal_cts
      {| cipher := EVP_aes_cbc keylen; encrypt := 0; buf_len := Z.of_nat r;
         oiv := ivec; iv := C; buf := firstn r T ++ B'; ctx_flags := fl;
         cipher_data := key; final_used := 1; block_mask := 15;
         final := X ++ F' |}
    = evp 1 ctx' (blk ++ tail) (16 + Z.of_nat r) [].
Proof.
  intros Ht Hr Hb Hc T X.
  assert (HxT : length (xor_loop 16 blk C) = 16%nat)
    by (rewrite xor_loop_length; exact Hb).
  assert (HT : length T = 16%nat) by (apply AES_encrypt_length; exact HxT).
  assert (HxX : length (xor_loop 16 (tail ++ repeat Byte.x00 (16 - r)) T) = 16%nat)
    by (rewrite xor_loop_length; len).
  assert (HX : length X = 16%nat) by (apply AES_encrypt_length; exact HxX).
  assert (HfT : length (firstn r T) = r) by len.
  assert (HDX : AES_decrypt key X = xor_loop 16 (tail ++ repeat Byte.x00 (16 - r)) T)
    by (apply AES_decrypt_encrypt; exact HxX).
  assert (HDT : AES_decrypt key T = xor_loop 16 blk C)
    by (apply AES_decrypt_encrypt; exact HxT).
  unfold EVP_DecryptFinal_cts, EVP_CIPHER_CTX_mode. rsimpl.
  change (1 =? 0) with false. zrew (Z.of_nat r =? 0) false.
  change (Z.land EVP_CIPH_CBC_MODE EVP_CIPH_MODE =? EVP_CIPH_ECB_MODE) with false.
  change (Z.land EVP_CIPH_CBC_MODE EVP_CIPH_MODE =? EVP_CIPH_CBC_MODE) with true.
  rsimpl. unfold AES_BLOCK_SIZE.
  rewrite (ctx_do_cipher_cbc keylen _ _ 16 1) by (try reflexivity; len).
  rsimpl. change (1 =? 0) with false. rsimpl.
  rewrite cbc128_decrypt_1. cbn [fst snd].
  rewrite (firstn_app_l 16 X) by (symmetry; exact HX).
  rewrite HDX.
  rewrite memset_explicit by lia.
  change (memcpy (PBYTEArray_new EVP_MAX_BLOCK_LENGTH) 0 C 16)
    with (firstn 16 C ++ skipn 16 (PBYTEArray_new EVP_MAX_BLOCK_LENGTH)).
  rewrite (firstn_full 16 C) by lia.
  change (Z.to_nat 16) with 16%nat. rewrite Nat2Z.id.
  rewrite (xor_loop_cancel_app 16 _ C) by len.
  rewrite cts_steal_xor by lia.
  rewrite (skipn_app_l r tail) by (symmetry; exact Ht).
  set (rest := skipn 16 (firstn r T ++ B')).
  assert (Hbuf : memcpy (firstn r T ++ repeat Byte.x00 (16 - r) ++ rest)
                   (Z.of_nat r) (skipn r T) (16 - Z.of_nat r) = T ++ rest).
  { unfold memcpy. rewrite Nat2Z.id.
    replace (Z.to_nat (16 - Z.of_nat r)) with (16 - r)%nat by lia.
    rewrite (firstn_app_l r) by lia.
    rewrite (firstn_full (16 - r)) by len.
    rewrite (skipn_app_ge (r + (16 - r))) by lia.
    rewrite (skipn_app_l) by len.
    rewrite app_assoc, firstn_skipn. reflexivity. }
  rewrite Hbuf.
  rewrite (ctx_do_cipher_cbc keylen _ _ 16 1) by (try reflexivity; len).
  rsimpl. change (1 =? 0) with false. rsimpl.
  rewrite cbc128_decrypt_1. cbn [fst snd].
  rewrite (firstn_app_l 16 T) by (symmetry; exact HT).
  rewrite HDT.
  rewrite (xor_loop_cancel_app 16 _ X) by len.
  rewrite (xor_loop_cancel_app 16 _ C) by len.
  rewrite memcpy_append by (rewrite Hb; reflexivity).
  rewrite Nat2Z.id, (firstn_app_l r tail) by (symmetry; exact Ht).
  eexists. reflexivity.
Qed.

(** Whole blocks given to [EVP_EncryptUpdate] with nothing buffered go
    through the cipher in one call. *)
Lemma EncryptUpdate_whole (keylen : Z) (key : list byte) (enc : Z)
  (ivec : list byte) (pad : bool) (B F M : list byte) (outl0 : Z) (n : nat) :
  length M = (16 * n)%nat -> (1 <= n)%nat ->
  EVP_EncryptUpdate (ready_ctx keylen key enc ivec pad B F) outl0 M (Z.of_nat (length M))
  = Returns
      (evp 1 (set_iv (ready_ctx keylen key enc ivec pad B F)
                     (snd (cbc128 key enc n ivec M)))
         (fst (cbc128 key enc n ivec M)) (Z.of_nat (length M)) []).
Proof.
  intros HM Hn. unfold EVP_EncryptUpdate, ready_ctx. rsimpl.
  zrew (Z.of_nat (length M) <=? 0) false.
  rewrite land15.
  replace (Z.of_nat (length M) mod 16) with 0
    by (rewrite HM, Nat2Z.inj_mul, Z.mul_comm, Z.mod_mul by lia; reflexivity).
  change ((0 =? 0) && (0 =? 0)) with true. cbv iota.
  rewrite (ctx_do_cipher_cbc keylen _ _ _ n) by (try reflexivity; lia).
  rsimpl. change (1 =? 0) with false. reflexivity.
Qed.

(** Fewer than 16 bytes are only copied into the buffer. *)
Lemma EncryptUpdate_short (keylen : Z) (key : list byte) (enc : Z)
  (ivec : list byte) (pad : bool) (B F P : list byte) (outl0 : Z) :
  length B = 32%nat -> (length P < 16)%nat ->
  EVP_EncryptUpdate (ready_ctx keylen key enc ivec pad B F) outl0 P (Z.of_nat (length P))
  = Returns
      (evp 1
         {| cipher := EVP_aes_cbc keylen; encrypt := enc;
            buf_len := Z.of_nat (length P); oiv := ivec; iv := ivec;
            buf := P ++ skipn (length P) B;
            ctx_flags := if pad then 0 else EVP_CIPH_NO_PADDING;
            cipher_data := key; final_used := 0; block_mask := 15; final := F |}
         [] 0 []).
Proof.
  intros HB HP. unfold EVP_EncryptUpdate, ready_ctx. rsimpl.
  destruct P as [|p P'] eqn:EP.
  - reflexivity.
  - rewrite <- EP in *. assert (HP0 : (0 < length P)%nat) by (rewrite EP; cbn; lia).
    zrew (Z.of_nat (length P) <=? 0) false.
    rewrite land15, Z.mod_small by lia.
    zrew (Z.of_nat (length P) =? 0) false. rewrite andb_false_r.
    unfold AES_BLOCK_SIZE. change (16 <=? EVP_MAX_BLOCK_LENGTH) with true.
    change (0 =? 0) with true. cbv iota.
    unfold EVP_EncryptUpdate_blocks. rsimpl. unfold AES_BLOCK_SIZE.
    change (16 - 1) with 15. rewrite land15, Z.mod_small by lia.
    rewrite Z.sub_diag. change (0 >? 0) with false. rsimpl.
    change (1 =? 0) with false. zrew (Z.of_nat (length P) =? 0) false. rsimpl.
    rewrite memcpy_0. change (Z.to_nat 0) with 0%nat. change (skipn 0 P) with P.
    rewrite Nat2Z.id, firstn_full by lia. reflexivity.
Qed.

Lemma memset_pad_tail (tail B' : list byte) (r : nat) (c : byte) :
  length tail = r -> (r <= 16)%nat ->
  firstn 16 (memset (tail ++ B') (Z.of_nat r) c (16 - Z.of_nat r))
  = tail ++ repeat c (16 - r).
Proof.
  intros Ht Hr. rewrite memset_explicit by assumption.
  rewrite app_assoc. apply firstn_app_l. len.
Qed.

(** With padding on, [EVP_EncryptFinal_ex] pads the buffered bytes to one
    block and encrypts it. *)
Lemma EncryptFinal_ex_pad (keylen : Z) (key ivec iv1 : list byte) (fu : Z)
  (P B' F : list byte) (outl0 : Z) :
  (length P < 16)%nat -> length iv1 = 16%nat ->
  exists ctx',
    EVP_EncryptFinal_ex
      {| cipher := EVP_aes_cbc keylen; encrypt := 1;
         buf_len := Z.of_nat (length P); oiv := ivec; iv := iv1;
         buf := P ++ B'; ctx_flags := 0;
         cipher_data := key; final_used := fu; block_mask := 15; final := F |}
      outl0
    = Returns (evp 1 ctx' (fst (cbc128_encrypt key 1 iv1 (padded_block P))) 16 []).
Proof.
  intros HP Hi. unfold EVP_EncryptFinal_ex. rsimpl. unfold AES_BLOCK_SIZE.
  change (16 <=? EVP_MAX_BLOCK_LENGTH) with true. change (16 =? 1) with false.
  change (Z.land 0 EVP_CIPH_NO_PADDING =? 0) with true. rsimpl.
  rewrite (ctx_do_cipher_cbc keylen _ _ 16 1)
    by (try reflexivity; rewrite memset_explicit by lia; len).
  rsimpl. change (1 =? 0) with false. rsimpl.
  rewrite cbc128_encrypt_1. cbn [fst snd cbc128_encrypt].
  rewrite memset_pad_tail by lia. rewrite app_nil_r.
  unfold padded_block.
  rewrite (firstn_full 16) by len.
  eexists. reflexivity.
Qed.

Lemma nth_padded_block (P F' : list byte) :
  (length P < 16)%nat ->
  uchar_to_int (nth 15 (padded_block P ++ F') Byte.x00) = 16 - Z.of_nat (length P).
Proof.
  intros HP. unfold padded_block.
  rewrite <- app_assoc, app_nth2 by lia.
  rewrite app_nth1 by len.
  rewrite nth_repeat_lt by lia.
  apply uchar_int_uchar. lia.
Qed.

(** The relaxed decode of a final block that holds a padded plaintext. *)
Lemma DecryptFinal_relaxed_pad (ctx : EVP_CIPHER_CTX) (keylen : Z) (P F' : list byte) :
  cipher ctx = EVP_aes_cbc keylen -> ctx_flags ctx = 0 -> buf_len ctx = 0 ->
  final_used ctx = 1 -> final ctx = padded_block P ++ F' -> (length P < 16)%nat ->
  EVP_DecryptFinal_relaxed ctx = Returns (evp 1 ctx P (Z.of_nat (length P)) []).
Proof.
  intros Hc Hfl Hbl Hfu Hfin HP. unfold EVP_DecryptFinal_relaxed.
  rewrite Hc, Hfl, Hbl, Hfu, Hfin. cbn [block_size EVP_aes_cbc].
  unfold AES_BLOCK_SIZE.
  change (Z.to_nat (16 - 1)) with 15%nat. rewrite nth_padded_block by exact HP.
  change (Z.land 0 EVP_CIPH_NO_PADDING =? 0) with true.
  change (16 >? 1) with true. change (0 =? 0) with true. change (1 =? 0) with false.
  change (16 <=? EVP_MAX_BLOCK_LENGTH) with true. cbn [negb orb]. cbv iota.
  zrew (16 - Z.of_nat (length P) =? 0) false.
  zrew (16 - Z.of_nat (length P) >? 16) false. cbn [orb]. cbv iota.
  replace (16 - (16 - Z.of_nat (length P))) with (Z.of_nat (length P)) by lia.
  rewrite copy_loop_firstn, Nat2Z.id.
  unfold padded_block. rewrite <- app_assoc, firstn_app_l by reflexivity.
  reflexivity.
Qed.

Lemma EncryptFinal_ex_nopad (ctx : EVP_CIPHER_CTX) (keylen outl0 : Z) :
  cipher ctx = EVP_aes_cbc keylen -> ctx_flags ctx = EVP_CIPH_NO_PADDING ->
  buf_len ctx = 0 ->
  EVP_EncryptFinal_ex ctx outl0 = Returns (evp 1 ctx [] 0 []).
Proof.
  intros Hc Hfl Hbl. unfold EVP_EncryptFinal_ex. rewrite Hc, Hfl, Hbl.
  reflexivity.
Qed.

Lemma DecryptFinal_relaxed_nopad (ctx : EVP_CIPHER_CTX) :
  ctx_flags ctx = EVP_CIPH_NO_PADDING -> buf_len ctx = 0 ->
  EVP_DecryptFinal_relaxed ctx = Returns (evp 1 ctx [] 0 []).
Proof.
  intros Hfl Hbl. unfold EVP_DecryptFinal_relaxed. rewrite Hfl, Hbl.
  reflexivity.
Qed.

Lemma DecryptUpdate_nopad (keylen : Z) (key : list byte) (enc : Z)
  (ivec B F M : list byte) (outl0 : Z) :
  (0 < length M)%nat ->
  EVP_DecryptUpdate (ready_ctx keylen key enc ivec false B F) outl0 M (Z.of_nat (length M))
  = EVP_EncryptUpdate (ready_ctx keylen key enc ivec false B F) outl0 M
                      (Z.of_nat (length M)).
Proof.
  intros HM. unfold EVP_DecryptUpdate.
  zrew (Z.of_nat (length M) <=? 0) false. reflexivity.
Qed.

(** With padding on, [EVP_DecryptUpdate] decrypts whole blocks and holds
    the last one back in [final]. *)
Lemma DecryptUpdate_pad_whole (keylen : Z) (key ivec B F M : list byte)
  (outl0 : Z) (n : nat) :
  length M = (16 * n)%nat -> (1 <= n)%nat -> length F = 32%nat ->
  length ivec = 16%nat ->
  let o := fst (cbc128 key 0 n ivec M) in
  EVP_DecryptUpdate (ready_ctx keylen key 0 ivec true B F) outl0 M (Z.of_nat (length M))
  = Returns
      (evp 1
         {| cipher := EVP_aes_cbc keylen; encrypt := 0; buf_len := 0;
            oiv := ivec; iv := snd (cbc128 key 0 n ivec M); buf := B;
            ctx_flags := 0; cipher_data := key; final_used := 1;
            block_mask := 15;
            final := skipn (16 * (n - 1)) o ++ skipn 16 F |}
         o (Z.of_nat (16 * (n - 1))) []).
Proof.
  intros HM Hn HF Hi o.
  pose proof (cbc128_length key 0 n ivec M ltac:(lia) Hi) as [Ho _]. fold o in Ho.
  unfold EVP_DecryptUpdate.
  zrew (Z.of_nat (length M) <=? 0) false.
  rewrite (EncryptUpdate_whole keylen key 0 ivec true B F M outl0 n HM Hn).
  fold o. unfold ready_ctx. rsimpl. unfold AES_BLOCK_SIZE.
  change (Z.land 0 EVP_CIPH_NO_PADDING =? 0) with true.
  change (16 <=? EVP_MAX_BLOCK_LENGTH) with true.
  change (0 =? 0) with true. rsimpl. cbn [obind]. rsimpl.
  change (1 =? 0) with false. change (16 >? 1) with true. rsimpl.
  change (0 =? 0) with true. rsimpl.
  rewrite memcpy_0. change (Z.to_nat 16) with 16%nat.
  replace (Z.to_nat (Z.of_nat (length M) - 16)) with (16 * (n - 1))%nat by lia.
  rewrite (firstn_full 16) by len.
  replace (Z.of_nat (length M) - 16) with (Z.of_nat (16 * (n - 1))) by lia.
  reflexivity.
Qed.

(** How the array [Encrypt] or [Decrypt] returns is put together from the
    bytes of the update call, its [*outl], and the bytes of the final
    call. *)
Lemma assemble (n : Z) (o1 o2 : list byte) (l1 : Z) :
  0 <= l1 <= Z.of_nat (length o1) -> Z.of_nat (length o1) <= n ->
  l1 + Z.of_nat (length o2) <= n ->
  SetSize (store (store (PBYTEArray_new n) 0 o1) l1 o2) (l1 + Z.of_nat (length o2))
  = firstn (Z.to_nat l1) o1 ++ o2.
Proof.
  intros H1 H2 H3. unfold store, SetSize, PBYTEArray_new.
  rewrite memcpy_0. rewrite !Nat2Z.id, (firstn_full (length o1) o1) by lia.
  unfold memcpy. rewrite Nat2Z.id, (firstn_full (length o2) o2) by lia.
  rewrite (firstn_app_le (Z.to_nat l1)) by lia.
  rewrite app_assoc.
  replace (Z.to_nat (l1 + Z.of_nat (length o2)))
    with (length (firstn (Z.to_nat l1) o1 ++ o2)) by len.
  rewrite firstn_app_l by reflexivity.
  rewrite (proj2 (Nat.sub_0_le _ _)) by len.
  apply app_nil_r.
Qed.

Lemma ready_after_init (keylen : Z) (key : list byte) (ctx : EVP_CIPHER_CTX)
  (ivec : list byte) (enc : Z) :
  keyed_ctx keylen key ctx ->
  EVP_CIPHER_CTX_block_size ctx = 16 /\ EVP_CIPHER_CTX_iv_length ctx = 16
  /\ EVP_CIPHER_CTX_block_size (EVP_CipherInit_ex_iv ctx ivec enc) = 16.
Proof.
  intros (Hc & _). destruct ctx as [c e bl o i b fl cd fu bm fi].
  cbn [cipher] in Hc. subst c. repeat split.
Qed.

Lemma nat_div_mod_16 (L : nat) :
  L = (16 * (L / 16) + L mod 16)%nat /\ (L mod 16 < 16)%nat.
Proof.
  split; [apply Nat.div_mod_eq | apply Nat.mod_upper_bound; lia].
Qed.

Lemma rem_16 (L : nat) : Z.rem (Z.of_nat L) 16 = Z.of_nat (L mod 16).
Proof.
  rewrite Z.rem_mod_nonneg by lia.
  rewrite Nat2Z.inj_mod. reflexivity.
Qed.

(** What [Encrypt] returns on a keyed engine. *)
Lemma Encrypt_keyed (e : H235CryptoEngine) (ctx : EVP_CIPHER_CTX) (keylen : Z)
  (key P : list byte) (ivSequence : option (list byte)) :
  m_encryptCtx e = Some ctx -> keyed_ctx keylen key ctx -> seq_ok ivSequence ->
  exists e',
    Encrypt e P ivSequence
    = Returns {| bytes := expected_ciphertext key (iv_of ivSequence) P;
                 rtpPadding_out := GetSize P <? 16;
                 engine_after := e';
                 crypt_trace := [] |}
    /\ m_decryptCtx e' = m_decryptCtx e
    /\ m_algorithmOID e' = m_algorithmOID e.
Proof.
  intros He Hk Hs.
  pose proof (iv_of_length ivSequence Hs) as Hiv.
  destruct (ready_after_init keylen key ctx (iv_of ivSequence) 1 Hk)
    as (Hbs & Hil & Hbs').
  pose proof (prepare_ctx keylen key ctx (iv_of ivSequence) 1 true Hk Hiv) as Hpt.
  pose proof (prepare_ctx keylen key ctx (iv_of ivSequence) 1 false Hk Hiv) as Hpf.
  cbv iota in Hpt, Hpf.
  destruct Hk as (_ & _ & HB & HF & _).
  unfold Encrypt. rewrite He. unfold EVP_EncryptInit_ex_iv.
  rewrite Hil. fold (iv_of ivSequence). rewrite Hbs, Hbs'.
  unfold GetSize. set (L := length P).
  destruct (nat_div_mod_16 L) as [HLq HLr].
  assert (Hrb : forall pad B F,
             EVP_CIPHER_CTX_block_size (ready_ctx keylen key 1 (iv_of ivSequence) pad B F)
             = 16) by reflexivity.
  destruct (Z.of_nat L <? 16) eqn:Eshort.
  - (* one padded block *)
    rewrite Hpt, Hrb. cbn [negb andb]. cbv iota.
    apply Z.ltb_lt in Eshort.
    rewrite (EncryptUpdate_short keylen key 1 _ true _ _ P) by (fold L; lia).
    cbn [obind]. rsimpl.
    destruct (EncryptFinal_ex_pad keylen key (iv_of ivSequence) (iv_of ivSequence) 0
                P (skipn (length P) (buf ctx)) (final ctx) 0 ltac:(fold L; lia) Hiv)
      as [ctx' Hfin].
    rewrite Hfin. cbn [obind]. rsimpl.
    pose proof (cbc128_encrypt_length key 1 (iv_of ivSequence) (padded_block P)
                  ltac:(unfold padded_block; fold L; len) Hiv) as [Hct _].
    replace (0 + 16) with (0 + Z.of_nat (length (fst (cbc128_encrypt key 1
              (iv_of ivSequence) (padded_block P))))) by (rewrite Hct; reflexivity).
    rewrite assemble by (cbn [length]; lia).
    unfold expected_ciphertext. fold L.
    replace (L <? 16)%nat with true by (symmetry; apply Nat.ltb_lt; lia).
    eexists. repeat split.
  - apply Z.ltb_ge in Eshort.
    rewrite Hpf, Hrb. cbn [negb andb]. rewrite rem_16.
    destruct (Z.of_nat (L mod 16) >? 0) eqn:Ects.
    + (* ciphertext stealing *)
      apply Z.gtb_lt in Ects.
      assert (Hq : (1 <= L / 16)%nat)
        by (apply Nat.div_le_lower_bound; lia).
      rewrite (EncryptUpdate_cts_ready keylen key 1 _ false _ _ P (L / 16) (L mod 16))
        by (try assumption; lia).
      cbn [obind]. rsimpl.
      pose proof (cbc128_length key 1 (L / 16 - 1) (iv_of ivSequence) P
                    ltac:(fold L; lia) Hiv) as [Hc Hi1].
      destruct (EncryptFinal_cts_ready keylen key (iv_of ivSequence)
                  (snd (cbc128 key 1 (L / 16 - 1) (iv_of ivSequence) P))
                  EVP_CIPH_NO_PADDING
                  (skipn (16 * (L / 16)) P)
                  (skipn (L mod 16) (firstn 16 P ++ skipn 16 (buf ctx)))
                  (firstn 16 (skipn (16 * (L / 16 - 1)) P))
                  (skipn 16 (final ctx)) (L mod 16)
                  ltac:(fold L; len) ltac:(lia) ltac:(fold L; len) Hi1)
        as [ctx' Hfin].
      rewrite Hfin. clear Hfin. rsimpl.
      set (T := AES_encrypt key (xor_loop 16 (firstn 16 (skipn (16 * (L / 16 - 1)) P))
                   (snd (cbc128 key 1 (L / 16 - 1) (iv_of ivSequence) P)))).
      set (X := AES_encrypt key (xor_loop 16
                   (skipn (16 * (L / 16)) P ++ repeat Byte.x00 (16 - L mod 16)) T)).
      assert (HT : length T = 16%nat)
        by (apply AES_encrypt_length; rewrite xor_loop_length; fold L; len).
      assert (HX : length X = 16%nat)
        by (apply AES_encrypt_length; rewrite xor_loop_length; fold L; len).
      replace (16 + Z.of_nat (L mod 16))
        with (Z.of_nat (length (X ++ firstn (L mod 16) T))) by len.
      rewrite assemble by len.
      rewrite Nat2Z.id, firstn_full by lia.
      unfold expected_ciphertext. fold L.
      replace (L <? 16)%nat with false by (symmetry; apply Nat.ltb_ge; lia).
      replace (L mod 16 =? 0)%nat with false by (symmetry; apply Nat.eqb_neq; lia).
      subst T X. unfold cbc128. change (negb (1 =? 0)) with true. cbv iota.
      destruct (cbc128_encrypt key (L / 16 - 1) (iv_of ivSequence) P) as [c iv1].
      cbn [fst snd]. eexists. repeat split.
    + (* whole blocks *)
      assert (Hr0 : (L mod 16 = 0)%nat) by lia.
      assert (Hq : (1 <= L / 16)%nat)
        by (apply Nat.div_le_lower_bound; lia).
      rewrite (EncryptUpdate_whole keylen key 1 _ false _ _ P _ (L / 16))
        by (fold L; lia).
      cbn [obind]. rsimpl.
      rewrite (EncryptFinal_ex_nopad _ keylen) by reflexivity.
      cbn [obind]. rsimpl.
      pose proof (cbc128_length key 1 (L / 16) (iv_of ivSequence) P
                    ltac:(fold L; lia) Hiv) as [Hc _].
      change (Z.of_nat (length P) + 0)
        with (Z.of_nat (length P) + Z.of_nat (length (@nil byte))).
      rewrite assemble by (cbn [length]; fold L; lia).
      rewrite Nat2Z.id, firstn_full, app_nil_r by (fold L; lia).
      unfold expected_ciphertext. fold L.
      replace (L <? 16)%nat with false by (symmetry; apply Nat.ltb_ge; lia).
      replace (L mod 16 =? 0)%nat with true by (symmetry; apply Nat.eqb_eq; lia).
      unfold cbc128. change (negb (1 =? 0)) with true. cbv iota.
      eexists. repeat split.
Qed.

Lemma expected_ciphertext_length (key ivec P : list byte) :
  length ivec = 16%nat ->
  length (expected_ciphertext key ivec P)
  = if (length P <? 16)%nat then 16%nat else length P.
Proof.
  intros Hiv. unfold expected_ciphertext. set (L := length P).
  destruct (nat_div_mod_16 L) as [HLq HLr].
  destruct (L <? 16)%nat eqn:E1.
  - apply Nat.ltb_lt in E1.
    apply (cbc128_encrypt_length key 1 ivec (padded_block P));
      [unfold padded_block; fold L; len | exact Hiv].
  - apply Nat.ltb_ge in E1.
    assert (Hq : (1 <= L / 16)%nat) by (apply Nat.div_le_lower_bound; lia).
    destruct (L mod 16 =? 0)%nat eqn:E2.
    + apply Nat.eqb_eq in E2.
      rewrite (proj1 (cbc128_encrypt_length key (L / 16) ivec P ltac:(fold L; lia) Hiv)).
      lia.
    + apply Nat.eqb_neq in E2.
      pose proof (cbc128_encrypt_length key (L / 16 - 1) ivec P ltac:(fold L; lia) Hiv)
        as [Hc Hi1].
      destruct (cbc128_encrypt key (L / 16 - 1) ivec P) as [c iv1].
      cbn [fst snd] in *.
      rewrite !length_app, length_firstn.
      rewrite !AES_encrypt_length by (rewrite xor_loop_length; fold L; len).
      lia.
Qed.

(** What [Decrypt] returns on a keyed engine for the ciphertext of [P],
    given the padding flag [Encrypt] reported. *)
Lemma Decrypt_keyed (e : H235CryptoEngine) (ctx : EVP_CIPHER_CTX) (keylen : Z)
  (key P : list byte) (ivSequence : option (list byte)) :
  m_decryptCtx e = Some ctx -> keyed_ctx keylen key ctx -> seq_ok ivSequence ->
  exists e',
    Decrypt e (expected_ciphertext key (iv_of ivSequence) P) ivSequence
            (GetSize P <? 16)
    = Returns {| bytes := P;
                 rtpPadding_out := GetSize P <? 16;
                 engine_after := e';
                 crypt_trace := [] |}
    /\ m_encryptCtx e' = m_encryptCtx e
    /\ m_algorithmOID e' = m_algorithmOID e.
Proof.
  intros He Hk Hs.
  pose proof (iv_of_length ivSequence Hs) as Hiv.
  destruct (ready_after_init keylen key ctx (iv_of ivSequence) 0 Hk)
    as (Hbs & Hil & Hbs').
  pose proof (prepare_ctx keylen key ctx (iv_of ivSequence) 0 true Hk Hiv) as Hpt.
  pose proof (prepare_ctx keylen key ctx (iv_of ivSequence) 0 false Hk Hiv) as Hpf.
  cbv iota in Hpt, Hpf.
  destruct Hk as (_ & _ & HB & HF & _).
  pose proof (expected_ciphertext_length key (iv_of ivSequence) P Hiv) as Hlen.
  unfold Decrypt. rewrite He. unfold EVP_DecryptInit_ex_iv.
  rewrite Hil. fold (iv_of ivSequence).
  unfold GetSize in *. set (L := length P) in *.
  set (D := expected_ciphertext key (iv_of ivSequence) P) in *.
  destruct (nat_div_mod_16 L) as [HLq HLr].
  assert (Hrb : forall pad B F,
             EVP_CIPHER_CTX_block_size (ready_ctx keylen key 0 (iv_of ivSequence) pad B F)
             = 16) by reflexivity.
  destruct (Z.of_nat L <? 16) eqn:Eshort.
  - (* one padded block *)
    rewrite Hpt, Hrb. cbn [negb andb]. cbv iota.
    apply Z.ltb_lt in Eshort.
    replace (L <? 16)%nat with true in Hlen by (symmetry; apply Nat.ltb_lt; lia).
    assert (HD : D = fst (cbc128_encrypt key 1 (iv_of ivSequence) (padded_block P))).
    { subst D. unfold expected_ciphertext. fold L.
      replace (L <? 16)%nat with true by (symmetry; apply Nat.ltb_lt; lia).
      reflexivity. }
    assert (Hpb : length (padded_block P) = 16%nat)
      by (unfold padded_block; fold L; len).
    pose proof (cbc128_roundtrip key 1 (iv_of ivSequence) (padded_block P) []
                  Hpb Hiv) as Hrt.
    rewrite app_nil_r, <- HD in Hrt.
    rewrite (DecryptUpdate_pad_whole keylen key _ _ _ D _ 1) by (try assumption; lia).
    unfold cbc128. change (negb (0 =? 0)) with false. cbv iota.
    rewrite Hrt. cbn [obind fst snd]. rsimpl.
    change (16 * (1 - 1))%nat with 0%nat. change (skipn 0 (padded_block P))
      with (padded_block P).
    rewrite (DecryptFinal_relaxed_pad _ keylen P (skipn 16 (final ctx)))
      by (try reflexivity; fold L; lia).
    cbn [obind]. rsimpl. change (Z.of_nat 0) with 0. fold L.
    rewrite assemble by (rewrite ?Hpb; fold L; lia).
    eexists. repeat split.
  - apply Z.ltb_ge in Eshort.
    replace (L <? 16)%nat with false in Hlen by (symmetry; apply Nat.ltb_ge; lia).
    rewrite Hpf, Hrb. cbn [negb andb]. rewrite Hlen, rem_16.
    assert (Hq : (1 <= L / 16)%nat) by (apply Nat.div_le_lower_bound; lia).
    destruct (Z.of_nat (L mod 16) >? 0) eqn:Ects.
    + (* ciphertext stealing *)
      apply Z.gtb_lt in Ects.
      set (q := (L / 16)%nat) in *. set (r := (L mod 16)%nat) in *.
      set (ivec := iv_of ivSequence) in *.
      set (P0 := firstn (16 * (q - 1)) P).
      set (blk := firstn 16 (skipn (16 * (q - 1)) P)).
      set (tail := skipn (16 * q) P).
      assert (HP0 : length P0 = (16 * (q - 1))%nat) by (subst P0; fold L; len).
      assert (Hblk : length blk = 16%nat) by (subst blk; fold L; len).
      assert (Htail : length tail = r) by (subst tail; fold L; len).
      assert (HP : P = P0 ++ blk ++ tail).
      { subst P0 blk tail.
        rewrite <- (firstn_skipn (16 * (q - 1)) P) at 1. f_equal.
        rewrite <- (firstn_skipn 16 (skipn (16 * (q - 1)) P)) at 1. f_equal.
        rewrite skipn_skipn. f_equal. lia. }
      set (c := fst (cbc128_encrypt key (q - 1) ivec P)).
      set (iv1 := snd (cbc128_encrypt key (q - 1) ivec P)).
      set (T := AES_encrypt key (xor_loop 16 blk iv1)).
      set (X := AES_encrypt key (xor_loop 16 (tail ++ repeat Byte.x00 (16 - r)) T)).
      pose proof (cbc128_encrypt_length key (q - 1) ivec P ltac:(fold L; lia) Hiv)
        as [Hc Hi1]. fold c in Hc. fold iv1 in Hi1.
      assert (HT : length T = 16%nat)
        by (apply AES_encrypt_length; rewrite xor_loop_length; exact Hblk).
      assert (HX : length X = 16%nat)
        by (apply AES_encrypt_length; rewrite xor_loop_length; len).
      assert (HD : D = c ++ X ++ firstn r T).
      { subst D. unfold expected_ciphertext. fold L.
        replace (L <? 16)%nat with false by (symmetry; apply Nat.ltb_ge; lia).
        replace (L mod 16 =? 0)%nat with false by (symmetry; apply Nat.eqb_neq; lia).
        fold q r. subst c iv1 T X blk tail.
        destruct (cbc128_encrypt key (q - 1) ivec P) as [c0 i0]. reflexivity. }
      assert (Hrt : cbc128 key 0 (q - 1) ivec D = (P0, iv1)).
      { unfold cbc128. change (negb (0 =? 0)) with false. cbv iota.
        rewrite HD. subst c iv1.
        rewrite <- (cbc128_encrypt_firstn key (q - 1) ivec P (16 * (q - 1))) by lia.
        fold P0. apply cbc128_roundtrip; assumption. }
      unfold EVP_DecryptUpdate_cts.
      replace (Z.of_nat L) with (Z.of_nat (length D)) by (rewrite Hlen; reflexivity).
      rewrite (EncryptUpdate_cts_ready keylen key 0 _ false _ _ D q r)
        by (try assumption; lia).
      cbn [obind]. rsimpl. rewrite Hrt. cbn [fst snd].
      replace (skipn (16 * q) D) with (firstn r T).
      2:{ rewrite HD, app_assoc. symmetry. apply skipn_app_l. len. }
      replace (firstn 16 (skipn (16 * (q - 1)) D)) with X.
      2:{ rewrite HD, skipn_app_l by lia. symmetry. apply firstn_app_l. lia. }
      destruct (DecryptFinal_cts_ready keylen key ivec iv1 EVP_CIPH_NO_PADDING
                  tail (skipn r (firstn 16 D ++ skipn 16 (buf ctx)))
                  blk (skipn 16 (final ctx)) r Htail ltac:(lia) Hblk Hi1)
        as [ctx' Hfin].
      fold T X in Hfin. rewrite Hfin. clear Hfin. rsimpl.
      replace (16 + Z.of_nat r) with (Z.of_nat (length (blk ++ tail))) by len.
      rewrite assemble by len.
      rewrite Nat2Z.id, firstn_full by lia.
      rewrite <- HP. eexists. repeat split.
    + (* whole blocks *)
      assert (Hr0 : (L mod 16 = 0)%nat) by lia.
      assert (HD : D = fst (cbc128_encrypt key (L / 16) (iv_of ivSequence) P)).
      { subst D. unfold expected_ciphertext. fold L.
        replace (L <? 16)%nat with false by (symmetry; apply Nat.ltb_ge; lia).
        replace (L mod 16 =? 0)%nat with true by (symmetry; apply Nat.eqb_eq; lia).
        reflexivity. }
      pose proof (cbc128_roundtrip key (L / 16) (iv_of ivSequence) P []
                    ltac:(fold L; lia) Hiv) as Hrt.
      rewrite app_nil_r, <- HD in Hrt.
      replace (Z.of_nat L) with (Z.of_nat (length D))
        by (rewrite Hlen; reflexivity).
      rewrite DecryptUpdate_nopad by lia.
      rewrite (EncryptUpdate_whole keylen key 0 _ false _ _ D _ (L / 16)) by lia.
      unfold cbc128. change (negb (0 =? 0)) with false. cbv iota.
      rewrite Hrt. cbn [obind fst snd]. rsimpl.
      rewrite DecryptFinal_relaxed_nopad by reflexivity.
      cbn [obind]. rsimpl. rewrite Hlen.
      change (Z.of_nat L + 0) with (Z.of_nat L + Z.of_nat (length (@nil byte))).
      rewrite assemble by (cbn [length]; fold L; lia).
      rewrite Nat2Z.id, firstn_full, app_nil_r by (fold L; lia).
      eexists. repeat split.
Qed.


(** *** The engine *)

Lemma supported_select (oid : string) (keylen : Z) :
  supported oid keylen -> select_cipher oid = Some (EVP_aes_cbc keylen).
Proof.
  intros [[-> ->] | [[-> ->] | (-> & -> & Hb)]]; unfold select_cipher.
  - reflexivity.
  - reflexivity.
  - rewrite Hb. reflexivity.
Qed.

Lemma supported_keylen (oid : string) (keylen : Z) :
  supported oid keylen -> keylen = 16 \/ keylen = 24 \/ keylen = 32.
Proof. intros [[_ ->] | [[_ ->] | (_ & -> & _)]]; auto. Qed.

Lemma EVP_CipherInit_ex_key_keyed (keylen : Z) (key : list byte) (enc : Z) :
  keyed_ctx keylen (firstn (Z.to_nat keylen) key)
            (EVP_CipherInit_ex_key (EVP_aes_cbc keylen) key enc).
Proof.
  unfold keyed_ctx, EVP_CipherInit_ex_key. cbn.
  repeat split; auto.
Qed.

(** After [SetKey] with a supported algorithm both contexts are keyed. *)
Lemma SetKey_keyed (e : H235CryptoEngine) (key : PBYTEArray) (keylen : Z) :
  supported (m_algorithmOID e) keylen ->
  exists ce cd,
    SetKey e key
    = ({| m_algorithmOID := m_algorithmOID e; m_encryptCtx := Some ce;
          m_decryptCtx := Some cd |}, [])
    /\ keyed_ctx keylen (firstn (Z.to_nat keylen) key) ce
    /\ keyed_ctx keylen (firstn (Z.to_nat keylen) key) cd.
Proof.
  intros Hs. unfold SetKey. rewrite (supported_select _ _ Hs).
  eexists. eexists. split; [reflexivity|].
  split; apply EVP_CipherInit_ex_key_keyed.
Qed.

(** [Decrypt] after [Encrypt], on engines that hold the same key. *)
Lemma Encrypt_Decrypt (e1 e2 : H235CryptoEngine) (ce cd : EVP_CIPHER_CTX)
  (keylen : Z) (key P : list byte) (ivSequence : option (list byte)) :
  m_encryptCtx e1 = Some ce -> keyed_ctx keylen key ce ->
  m_decryptCtx e2 = Some cd -> keyed_ctx keylen key cd ->
  seq_ok ivSequence ->
  exists r r',
    Encrypt e1 P ivSequence = Returns r
    /\ rtpPadding_out r = (GetSize P <? 16)
    /\ length (bytes r) = (if GetSize P <? 16 then 16%nat else length P)
    /\ crypt_trace r = []
    /\ m_decryptCtx (engine_after r) = m_decryptCtx e1
    /\ Decrypt e2 (bytes r) ivSequence (rtpPadding_out r) = Returns r'
    /\ bytes r' = P /\ crypt_trace r' = [].
Proof.
  intros He1 Hk1 He2 Hk2 Hs.
  destruct (Encrypt_keyed e1 ce keylen key P ivSequence He1 Hk1 Hs)
    as (e1' & HE & Hd1 & _).
  destruct (Decrypt_keyed e2 cd keylen key P ivSequence He2 Hk2 Hs)
    as (e2' & HD & _).
  assert (Hlen : length (expected_ciphertext key (iv_of ivSequence) P)
                 = if GetSize P <? 16 then 16%nat else length P).
  { rewrite (expected_ciphertext_length _ _ _ (iv_of_length _ Hs)).
    unfold GetSize.
    destruct (Z.of_nat (length P) <? 16) eqn:E.
    - replace (length P <? 16)%nat with true
        by (symmetry; apply Nat.ltb_lt; lia). reflexivity.
    - replace (length P <? 16)%nat with false
        by (symmetry; apply Nat.ltb_ge; lia). reflexivity. }
  eexists. eexists. split; [exact HE|].
  cbn [bytes rtpPadding_out engine_after crypt_trace].
  split; [reflexivity|]. split; [exact Hlen|]. split; [reflexivity|].
  split; [exact Hd1|]. split; [exact HD|]. split; reflexivity.
Qed.

(** The same on one engine built with its key. *)
Lemma engine_roundtrip (oid : string) (keylen : Z) (key P : list byte)
  (ivSequence : option (list byte)) :
  supported oid keylen -> seq_ok ivSequence ->
  exists r r',
    Encrypt (H235CryptoEngine_new_key oid key) P ivSequence = Returns r
    /\ rtpPadding_out r = (GetSize P <? 16)
    /\ length (bytes r) = (if GetSize P <? 16 then 16%nat else length P)
    /\ crypt_trace r = []
    /\ Decrypt (engine_after r) (bytes r) ivSequence (rtpPadding_out r) = Returns r'
    /\ bytes r' = P /\ crypt_trace r' = [].
Proof.
  intros Hsup Hs.
  destruct (SetKey_keyed (H235CryptoEngine_new oid) key keylen Hsup)
    as (ce & cd & HS & Hce & Hcd).
  unfold H235CryptoEngine_new_key. rewrite HS. cbn [fst].
  set (e := {| m_algorithmOID := _; m_encryptCtx := Some ce; m_decryptCtx := Some cd |}).
  destruct (Encrypt_keyed e ce keylen _ P ivSequence eq_refl Hce Hs)
    as (e' & HE & Hd & _).
  destruct (Decrypt_keyed e' cd keylen _ P ivSequence Hd Hcd Hs)
    as (e'' & HD & _).
  assert (Hlen : length (expected_ciphertext (firstn (Z.to_nat keylen) key)
                           (iv_of ivSequence) P)
                 = if GetSize P <? 16 then 16%nat else length P).
  { rewrite (expected_ciphertext_length _ _ _ (iv_of_length _ Hs)).
    unfold GetSize.
    destruct (Z.of_nat (length P) <? 16) eqn:E.
    - replace (length P <? 16)%nat with true
        by (symmetry; apply Nat.ltb_lt; lia). reflexivity.
    - replace (length P <? 16)%nat with false
        by (symmetry; apply Nat.ltb_ge; lia). reflexivity. }
  eexists. eexists. split; [exact HE|].
  cbn [bytes rtpPadding_out engine_after crypt_trace].
  split; [reflexivity|]. split; [exact Hlen|]. split; [reflexivity|].
  split; [exact HD|]. split; reflexivity.
Qed.

(** C1: for AES128, AES192 and AES256, every key of the algorithm's key
    length, every 6-byte sequence value and every plaintext [P] whose
    length is one of 1, 15, 16, 17, 31, 32, 33, 1024, [Decrypt] applied to
    what [Encrypt] returns, with the same sequence value and the padding
    flag [Encrypt] produced, returns exactly [P]. *)
Theorem C1_Decrypt_Encrypt_roundtrip :
  forall (oid : string) (keylen : Z) (key seq P : list byte),
    supported oid keylen -> Z.of_nat (length key) = keylen ->
    length seq = 6%nat ->
    In (length P) [1; 15; 16; 17; 31; 32; 33; 1024]%nat ->
    exists r r',
      Encrypt (H235CryptoEngine_new_key oid key) P (Some seq) = Returns r
      /\ Decrypt (engine_after r) (bytes r) (Some seq) (rtpPadding_out r) = Returns r'
      /\ bytes r' = P.
Proof.
  intros oid keylen key seq P Hsup _ Hseq _.
  destruct (engine_roundtrip oid keylen key P (Some seq) Hsup Hseq)
    as (r & r' & HE & _ & _ & _ & HD & HP & _).
  exists r, r'. auto.
Qed.

(** C5: for every plaintext shorter than one block, [Encrypt] sets the
    [rtpPadding] flag and returns exactly one block, and [Decrypt] of that
    block with [rtpPadding] true returns the original bytes. *)
Theorem C5_short_plaintext_uses_padding :
  forall (oid : string) (keylen : Z) (key P : list byte)
         (ivSequence : option (list byte)),
    supported oid keylen -> Z.of_nat (length key) = keylen -> seq_ok ivSequence ->
    GetSize P < AES_BLOCK_SIZE ->
    exists r r',
      Encrypt (H235CryptoEngine_new_key oid key) P ivSequence = Returns r
      /\ rtpPadding_out r = true
      /\ GetSize (bytes r) = AES_BLOCK_SIZE
      /\ Decrypt (engine_after r) (bytes r) ivSequence true = Returns r'
      /\ bytes r' = P.
Proof.
  intros oid keylen key P ivSequence Hsup _ Hs HL. unfold AES_BLOCK_SIZE in *.
  destruct (engine_roundtrip oid keylen key P ivSequence Hsup Hs)
    as (r & r' & HE & Hflag & Hlen & _ & HD & HP & _).
  assert (E : (GetSize P <? 16) = true) by (apply Z.ltb_lt; exact HL).
  rewrite E in Hflag, Hlen. rewrite Hflag in HD.
  exists r, r'. unfold GetSize. rewrite Hlen. auto.
Qed.


(** *** The session *)

Lemma RAND_bytes_length (rnd : list byte) (n : Z) :
  0 <= n -> length (RAND_bytes rnd n) = Z.to_nat n.
Proof. intros Hn. unfold RAND_bytes, SetSize. len. Qed.

Lemma GenerateRandomKey_supported (e : H235CryptoEngine) (rnd : list byte)
  (keylen : Z) :
  supported (m_algorithmOID e) keylen ->
  exists ce cd,
    GenerateRandomKey e rnd
    = (RAND_bytes rnd keylen,
       {| m_algorithmOID := m_algorithmOID e; m_encryptCtx := Some ce;
          m_decryptCtx := Some cd |}, [])
    /\ keyed_ctx keylen (RAND_bytes rnd keylen) ce
    /\ keyed_ctx keylen (RAND_bytes rnd keylen) cd.
Proof.
  intros Hsup.
  assert (Hgen : GenerateRandomKey_oid e (m_algorithmOID e) rnd
                 = (RAND_bytes rnd keylen, [])).
  { unfold GenerateRandomKey_oid.
    destruct Hsup as [[-> ->] | [[-> ->] | (-> & -> & Hb)]].
    - reflexivity.
    - reflexivity.
    - rewrite Hb. reflexivity. }
  destruct (SetKey_keyed e (RAND_bytes rnd keylen) keylen Hsup)
    as (ce & cd & HS & Hce & Hcd).
  rewrite firstn_full in Hce, Hcd
    by (rewrite RAND_bytes_length; destruct (supported_keylen _ _ Hsup) as [-> | [-> | ->]]; lia).
  exists ce, cd. unfold GenerateRandomKey. rewrite Hgen, HS. auto.
Qed.



(** *** Ciphertext stealing keeps the length *)

Lemma ctx_do_cipher_keeps (ctx : EVP_CIPHER_CTX) (input : list byte) (inl : Z) :
  cipher_keeps_length (cipher ctx) ->
  0 <= inl -> inl mod block_size (cipher ctx) = 0 ->
  (Z.to_nat inl <= length input)%nat ->
  exists r o iv',
    ctx_do_cipher ctx input inl = (r, o, set_iv ctx iv')
    /\ (r =? 0) = false /\ length o = Z.to_nat inl.
Proof.
  intros Hk Hi Hm Hl. unfold ctx_do_cipher.
  specialize (Hk (cipher_data ctx) (encrypt ctx) (iv ctx)
                 (firstn (Z.to_nat inl) input)).
  rewrite length_firstn, Nat.min_l, Z2Nat.id in Hk by lia.
  destruct (Hk Hm) as [Hr Ho].
  destruct (do_cipher _ _ _ _ _) as [[r o] iv']. cbn [fst snd] in *.
  exists r, o, iv'. repeat split; [apply Z.eqb_neq; exact Hr | exact Ho].
Qed.

Lemma land_mask (z bl k : Z) :
  0 <= k -> bl = 2 ^ k -> Z.land z (bl - 1) = z mod bl.
Proof.
  intros Hk ->. rewrite <- Z.land_ones by exact Hk.
  rewrite Z.ones_equiv. reflexivity.
Qed.

Lemma EncryptUpdate_cts_fresh (ctx : EVP_CIPHER_CTX) (P : list byte) (bl k : Z) :
  block_size (cipher ctx) = bl -> 0 <= k -> bl = 2 ^ k ->
  bl <= EVP_MAX_BLOCK_LENGTH -> fresh_ctx ctx ->
  cipher_keeps_length (cipher ctx) ->
  GetSize P >= bl -> GetSize P mod bl <> 0 ->
  exists r1,
    EVP_EncryptUpdate_cts ctx P (GetSize P) = Returns r1
    /\ ret r1 = 1
    /\ Z.of_nat (length (out_bytes r1)) = outl r1
    /\ outl r1 = GetSize P - bl - GetSize P mod bl
    /\ cipher (ctx_after r1) = cipher ctx
    /\ final_used (ctx_after r1) = 1
    /\ buf_len (ctx_after r1) = GetSize P mod bl
    /\ length (buf (ctx_after r1)) = 32%nat
    /\ length (final (ctx_after r1)) = 32%nat.
Proof.
  intros Hbs Hk Hbl Hmax (Hbuf & Hfu & Hmask & HB & HF) Hkeep HL Hmod.
  unfold EVP_MAX_BLOCK_LENGTH in Hmax. unfold GetSize in *.
  set (L := Z.of_nat (length P)) in *.
  assert (Hblpos : 0 < bl) by (rewrite Hbl; apply Z.pow_pos_nonneg; lia).
  pose proof (Z.mod_pos_bound L bl Hblpos) as Hr.
  pose proof (Z.div_mod L bl ltac:(lia)) as Hdm.
  assert (Hq : 1 <= L / bl) by (apply Z.div_le_lower_bound; lia).
  assert (HLgt : bl < L).
  { destruct (Z.eq_dec L bl) as [E | E]; [|lia].
    rewrite E, Z.mod_same in Hmod by lia. contradiction. }
  destruct ctx as [c e bln o i b fl cd fu bm fi]. rsimpl. subst bln fu bm.
  unfold EVP_EncryptUpdate_cts, EVP_MAX_BLOCK_LENGTH. rsimpl. rewrite Hbs.
  zrew (bl <=? 32) true.
  zrew (0 + L <=? bl) false. change (0 =? 0) with true. rsimpl.
  change (1 =? 0) with false. rsimpl. rewrite !Z.sub_0_r.
  destruct (Z.leb_spec (L - bl) bl) as [Hle | Hgt].
  - (* one whole block and the tail *)
    assert (Hq1 : L / bl = 1) by nia.
    eexists. split; [reflexivity|]. rsimpl.
    repeat split; try reflexivity.
    + nia.
    + nia.
    + rewrite !memcpy_length; try lia; rewrite ?memcpy_length; len.
    + rewrite !memcpy_length; try lia; rewrite ?memcpy_length; len.
  - (* at least two whole blocks *)
    assert (Hq2 : 2 <= L / bl) by (apply Z.div_le_lower_bound; lia).
    match goal with |- context [ctx_do_cipher ?x ?y ?z] =>
      destruct (ctx_do_cipher_keeps x y z) as (r & o1 & iv1 & Hdc & Hrz & Ho1)
    end.
    { exact Hkeep. }
    { lia. }
    { rsimpl. rewrite Hbs. apply Z.mod_same. lia. }
    { rewrite memcpy_length; lia. }
    rewrite Hdc. rsimpl. rewrite Hrz. rsimpl.
    rewrite (land_mask _ bl k Hk Hbl).
    assert (Hm2 : (L - bl) mod bl = L mod bl).
    { replace (L - bl) with (L + (-1) * bl) by lia. apply Z.mod_add. lia. }
    rewrite Hm2. zrew (L mod bl =? 0) false. rsimpl.
    match goal with |- context [ctx_do_cipher ?x ?y ?z] =>
      destruct (ctx_do_cipher_keeps x y z) as (r2 & o2 & iv2 & Hdc2 & Hrz2 & Ho2)
    end.
    { exact Hkeep. }
    { nia. }
    { rsimpl. rewrite Hbs.
      replace (L - bl - (bl + L mod bl)) with ((L / bl - 2) * bl) by nia.
      apply Z.mod_mul. lia. }
    { rewrite length_skipn. nia. }
    rewrite Hdc2. rsimpl. rewrite Hrz2.
    eexists. split; [reflexivity|]. rsimpl.
    repeat split; try reflexivity.
    + rewrite !length_app, Ho1, Ho2. cbn [length]. nia.
    + lia.
    + rewrite memcpy_length; try lia.
      * rewrite memcpy_length; lia.
      * rewrite memcpy_length; lia.
      * rewrite !length_skipn. nia.
    + rewrite memcpy_length; try lia. rewrite !length_skipn. nia.
Qed.

Lemma EncryptFinal_cts_pending (ctx : EVP_CIPHER_CTX) (bl : Z) :
  block_size (cipher ctx) = bl -> bl <= EVP_MAX_BLOCK_LENGTH ->
  cipher_keeps_length (cipher ctx) ->
  EVP_CIPHER_CTX_mode ctx = EVP_CIPH_ECB_MODE
  \/ EVP_CIPHER_CTX_mode ctx = EVP_CIPH_CBC_MODE ->
  final_used ctx = 1 -> 0 < buf_len ctx < bl ->
  length (buf ctx) = 32%nat -> length (final ctx) = 32%nat ->
  ret (EVP_EncryptFinal_cts ctx) = 1
  /\ outl (EVP_EncryptFinal_cts ctx) = bl + buf_len ctx
  /\ Z.of_nat (length (out_bytes (EVP_EncryptFinal_cts ctx))) = bl + buf_len ctx.
Proof.
  intros Hbs Hmax Hkeep Hmode Hfu Hbuf HB HF.
  unfold EVP_MAX_BLOCK_LENGTH in Hmax.
  destruct ctx as [c e bln o i b fl cd fu bm fi]. rsimpl. subst fu.
  unfold EVP_EncryptFinal_cts. unfold EVP_CIPHER_CTX_mode in *. rsimpl.
  rewrite Hbs. change (1 =? 0) with false. zrew (bln =? 0) false. rsimpl.
  assert (Hsame : bl mod block_size c = 0) by (rewrite Hbs; apply Z.mod_same; lia).
  destruct Hmode as [Hm | Hm]; rewrite Hm.
  - change (EVP_CIPH_ECB_MODE =? EVP_CIPH_ECB_MODE) with true. rsimpl.
    match goal with |- context [ctx_do_cipher ?x ?y ?z] =>
      destruct (ctx_do_cipher_keeps x y z Hkeep ltac:(lia) Hsame ltac:(rsimpl; lia))
        as (r & tmp & iv1 & Hdc & Hrz & Htmp)
    end.
    rewrite Hdc. rsimpl. rewrite Hrz. rsimpl.
    match goal with |- context [ctx_do_cipher ?x ?y ?z] =>
      destruct (ctx_do_cipher_keeps x y z Hkeep ltac:(lia) Hsame
                  ltac:(rsimpl; rewrite memcpy_length; rewrite ?length_skipn; lia))
        as (r2 & o2 & iv2 & Hdc2 & Hrz2 & Ho2)
    end.
    rewrite Hdc2. rsimpl. rewrite Hrz2. rsimpl.
    repeat split.
    rewrite memcpy_append by lia. len.
  - change (EVP_CIPH_CBC_MODE =? EVP_CIPH_ECB_MODE) with false.
    change (EVP_CIPH_CBC_MODE =? EVP_CIPH_CBC_MODE) with true. rsimpl.
    match goal with |- context [ctx_do_cipher ?x ?y ?z] =>
      destruct (ctx_do_cipher_keeps x y z Hkeep ltac:(lia) Hsame ltac:(rsimpl; lia))
        as (r & tmp & iv1 & Hdc & Hrz & Htmp)
    end.
    rewrite Hdc. rsimpl. rewrite Hrz. rsimpl.
    match goal with |- context [ctx_do_cipher ?x ?y ?z] =>
      destruct (ctx_do_cipher_keeps x y z Hkeep ltac:(lia) Hsame
                  ltac:(rsimpl; rewrite memset_length; lia))
        as (r2 & o2 & iv2 & Hdc2 & Hrz2 & Ho2)
    end.
    rewrite Hdc2. rsimpl. rewrite Hrz2. rsimpl.
    repeat split.
    rewrite memcpy_append by lia. len.
Qed.

(** C3: on a context as [EVP_EncryptInit_ex] leaves it, with a block
    cipher in ECB or CBC mode, the ciphertext-stealing calls turn a
    plaintext of [L >= block_size] bytes, [L] not a multiple of the block
    size, into exactly [L] bytes: both calls succeed, each stores as many
    bytes as it reports in [*outl], and the two counts add up to [L]. *)
Theorem C3_cts_keeps_the_length :
  forall (ctx : EVP_CIPHER_CTX) (P : list byte) (k : Z),
    0 <= k -> block_size (cipher ctx) = 2 ^ k ->
    block_size (cipher ctx) <= EVP_MAX_BLOCK_LENGTH ->
    fresh_ctx ctx -> cipher_keeps_length (cipher ctx) ->
    EVP_CIPHER_CTX_mode ctx = EVP_CIPH_ECB_MODE
    \/ EVP_CIPHER_CTX_mode ctx = EVP_CIPH_CBC_MODE ->
    GetSize P >= block_size (cipher ctx) ->
    GetSize P mod block_size (cipher ctx) <> 0 ->
    exists r1,
      EVP_EncryptUpdate_cts ctx P (GetSize P) = Returns r1
      /\ ret r1 = 1
      /\ ret (EVP_EncryptFinal_cts (ctx_after r1)) = 1
      /\ Z.of_nat (length (out_bytes r1)) = outl r1
      /\ Z.of_nat (length (out_bytes (EVP_EncryptFinal_cts (ctx_after r1))))
         = outl (EVP_EncryptFinal_cts (ctx_after r1))
      /\ outl r1 + outl (EVP_EncryptFinal_cts (ctx_after r1)) = GetSize P
      /\ GetSize (out_bytes r1 ++ out_bytes (EVP_EncryptFinal_cts (ctx_after r1)))
         = GetSize P.
Proof.
  intros ctx P k Hk Hbl Hmax Hfresh Hkeep Hmode HL Hmod.
  destruct (EncryptUpdate_cts_fresh ctx P (block_size (cipher ctx)) k
              eq_refl Hk Hbl Hmax Hfresh Hkeep HL Hmod)
    as (r1 & Hup & Hret & Hlen1 & Hout1 & Hc & Hfu & Hbuf & HB & HF).
  assert (Hblpos : 0 < block_size (cipher ctx))
    by (rewrite Hbl; apply Z.pow_pos_nonneg; lia).
  pose proof (Z.mod_pos_bound (GetSize P) _ Hblpos) as Hr.
  destruct (EncryptFinal_cts_pending (ctx_after r1) (block_size (cipher ctx)))
    as (Hret2 & Hout2 & Hlen2).
  - rewrite Hc. reflexivity.
  - exact Hmax.
  - rewrite Hc. exact Hkeep.
  - unfold EVP_CIPHER_CTX_mode in *. rewrite Hc. exact Hmode.
  - exact Hfu.
  - rewrite Hbuf. lia.
  - exact HB.
  - exact HF.
  - exists r1. split; [exact Hup|]. split; [exact Hret|]. split; [exact Hret2|].
    split; [exact Hlen1|]. split; [lia|]. split; [lia|].
    unfold GetSize in *. rewrite length_app. lia.
Qed.

(** AES in CBC and in ECB mode keeps the length. *)
Lemma cbc128_out_length (key : list byte) (enc : Z) (n : nat) :
  forall ivec input,
    (16 * n <= length input)%nat ->
    length (fst (cbc128 key enc n ivec input)) = (16 * n)%nat.
Proof.
  unfold cbc128. destruct (negb (enc =? 0)).
  - induction n as [|n IH]; intros ivec input Hin; cbn [cbc128_encrypt].
    + reflexivity.
    + specialize (IH (AES_encrypt key (xor_loop 16 (firstn 16 input) ivec))
                     (skipn 16 input) ltac:(len)).
      destruct (cbc128_encrypt key n _ (skipn 16 input)) as [rest iv'].
      cbn [fst] in *. rewrite length_app, IH.
      rewrite AES_encrypt_length by (rewrite xor_loop_length; len). lia.
  - induction n as [|n IH]; intros ivec input Hin; cbn [cbc128_decrypt].
    + reflexivity.
    + specialize (IH (firstn 16 input) (skipn 16 input) ltac:(len)).
      destruct (cbc128_decrypt key n _ (skipn 16 input)) as [rest iv'].
      cbn [fst] in *. rewrite length_app, IH, xor_loop_length.
      rewrite AES_decrypt_length by len. lia.
Qed.

Lemma ecb_blocks_length (f : list byte -> list byte) (n : nat) :
  (forall b, length b = 16%nat -> length (f b) = 16%nat) ->
  forall input, (16 * n <= length input)%nat ->
    length (ecb_blocks f n input) = (16 * n)%nat.
Proof.
  intros Hf. induction n as [|n IH]; intros input Hin; cbn [ecb_blocks].
  - reflexivity.
  - rewrite length_app, IH, Hf by len. lia.
Qed.

Lemma whole_blocks (input : list byte) :
  Z.of_nat (length input) mod 16 = 0 ->
  (16 * (length input / 16) = length input)%nat.
Proof.
  intros Hm. pose proof (Nat.div_mod_eq (length input) 16) as H.
  assert (length input mod 16 = 0)%nat
    by (apply Nat2Z.inj; rewrite Nat2Z.inj_mod; exact Hm).
  lia.
Qed.

Lemma aes_cbc_keeps_length (keylen : Z) : cipher_keeps_length (EVP_aes_cbc keylen).
Proof.
  intros key enc ivec input Hm. cbn [block_size do_cipher EVP_aes_cbc] in *.
  unfold AES_BLOCK_SIZE in Hm. unfold aes_cbc_cipher.
  pose proof (whole_blocks input Hm) as Hw.
  pose proof (cbc128_out_length key enc (length input / 16) ivec input ltac:(lia))
    as Hlen.
  unfold cbc128 in Hlen.
  destruct (if negb (enc =? 0) then _ else _) as [o iv'].
  cbn [fst snd] in *. split; [discriminate | lia].
Qed.

Lemma aes_ecb_keeps_length (keylen : Z) : cipher_keeps_length (EVP_aes_ecb keylen).
Proof.
  intros key enc ivec input Hm. cbn [block_size do_cipher EVP_aes_ecb] in *.
  unfold AES_BLOCK_SIZE in Hm. unfold aes_ecb_cipher. cbn [fst snd].
  pose proof (whole_blocks input Hm) as Hw.
  split; [discriminate|].
  rewrite ecb_blocks_length; [exact Hw | | lia].
  destruct (negb (enc =? 0)); [apply AES_encrypt_length | apply AES_decrypt_length].
Qed.

(** *** Feeding the ciphertext-stealing update in pieces *)

Lemma memcpy_memcpy_app (B P1 P2 : list byte) (b0 n : Z) :
  0 <= b0 -> 0 <= n ->
  b0 + Z.of_nat (length P1) + n <= Z.of_nat (length B) ->
  memcpy (memcpy B b0 P1 (Z.of_nat (length P1))) (b0 + Z.of_nat (length P1)) P2 n
  = memcpy B b0 (P1 ++ P2) (Z.of_nat (length P1) + n).
Proof.
  intros Hb Hn Hlen. unfold memcpy.
  rewrite Nat2Z.id, (firstn_full (length P1) P1) by lia.
  replace (Z.to_nat (b0 + Z.of_nat (length P1))) with (Z.to_nat b0 + length P1)%nat by lia.
  replace (Z.to_nat (Z.of_nat (length P1) + n)) with (length P1 + Z.to_nat n)%nat by lia.
  assert (HA : length (firstn (Z.to_nat b0) B) = Z.to_nat b0) by len.
  rewrite (app_assoc (firstn (Z.to_nat b0) B) P1).
  rewrite (firstn_app_l (Z.to_nat b0 + length P1)) by len.
  rewrite (skipn_app_ge (Z.to_nat b0 + length P1 + Z.to_nat n)) by len.
  rewrite skipn_skipn.
  rewrite (firstn_app_ge (length P1 + Z.to_nat n) P1) by lia.
  rewrite <- !app_assoc. do 3 f_equal.
  - f_equal. lia.
  - f_equal. len.
Qed.

(** X1: the ciphertext-stealing update call may be fed in pieces.  On a
    context that holds no block back, a first piece that still fits the
    buffer is only stored: the call returns 1 and stores nothing; the call
    on the piece that follows then ends exactly as one call on both pieces
    together does: same return code, same bytes, same [*outl], same
    context. *)
Theorem EncryptUpdate_cts_in_two_pieces :
  forall (ctx : EVP_CIPHER_CTX) (P1 P2 : list byte),
    block_size (cipher ctx) <= EVP_MAX_BLOCK_LENGTH ->
    Z.of_nat (length (buf ctx)) = EVP_MAX_BLOCK_LENGTH ->
    final_used ctx = 0 -> 0 <= buf_len ctx ->
    buf_len ctx + GetSize P1 <= block_size (cipher ctx) ->
    exists r1,
      EVP_EncryptUpdate_cts ctx P1 (GetSize P1) = Returns r1
      /\ ret r1 = 1 /\ outl r1 = 0 /\ out_bytes r1 = []
      /\ EVP_EncryptUpdate_cts (ctx_after r1) P2 (GetSize P2)
         = EVP_EncryptUpdate_cts ctx (P1 ++ P2) (GetSize (P1 ++ P2)).
Proof.
  intros ctx P1 P2 Hmax HB Hfu Hb0 Hfit.
  unfold EVP_MAX_BLOCK_LENGTH in *. unfold GetSize in *.
  destruct ctx as [c e b0 o i B fl cd fu bm fi]. rsimpl. subst fu.
  set (bl := block_size c) in *.
  set (l1 := Z.of_nat (length P1)) in *.
  assert (Hfirst : EVP_EncryptUpdate_cts
            {| cipher := c; encrypt := e; buf_len := b0; oiv := o; iv := i; buf := B;
               ctx_flags := fl; cipher_data := cd; final_used := 0; block_mask := bm;
               final := fi |} P1 l1
          = Returns (evp 1
              {| cipher := c; encrypt := e; buf_len := b0 + l1; oiv := o; iv := i;
                 buf := memcpy B b0 P1 l1;
                 ctx_flags := fl; cipher_data := cd; final_used := 0; block_mask := bm;
                 final := fi |} [] 0 [])).
  { unfold EVP_EncryptUpdate_cts, EVP_MAX_BLOCK_LENGTH. rsimpl. fold bl.
    zrew (bl <=? 32) true. zrew (b0 + l1 <=? bl) true. reflexivity. }
  eexists. split; [exact Hfirst|]. rsimpl.
  split; [reflexivity|]. split; [reflexivity|]. split; [reflexivity|].
  unfold EVP_EncryptUpdate_cts, EVP_MAX_BLOCK_LENGTH. rsimpl. fold bl.
  zrew (bl <=? 32) true. rsimpl.
  rewrite length_app, Nat2Z.inj_add. fold l1.
  set (l2 := Z.of_nat (length P2)).
  replace (b0 + l1 + l2 <=? bl) with (b0 + (l1 + l2) <=? bl) by (f_equal; lia).
  destruct (Z.leb_spec (b0 + (l1 + l2)) bl) as [Hle | Hgt].
  - subst l1 l2. rewrite memcpy_memcpy_app by lia.
    do 3 f_equal. lia.
  - change (0 =? 0) with true. rsimpl. change (1 =? 0) with false. rsimpl.
    subst l1. rewrite memcpy_memcpy_app by lia.
    replace (Z.of_nat (length P1) + (bl - (b0 + Z.of_nat (length P1)))) with (bl - b0) by lia.
    replace (skipn (Z.to_nat (bl - (b0 + Z.of_nat (length P1)))) P2)
      with (skipn (Z.to_nat (bl - b0)) (P1 ++ P2))
      by (rewrite skipn_app_ge by lia; f_equal; lia).
    replace (l2 - (bl - (b0 + Z.of_nat (length P1))))
      with (Z.of_nat (length P1) + l2 - (bl - b0)) by lia.
    reflexivity.
Qed.

(** *** Ciphertext stealing, decrypt direction *)

Lemma DecryptFinal_cts_pending (ctx : EVP_CIPHER_CTX) (bl : Z) :
  block_size (cipher ctx) = bl -> bl <= EVP_MAX_BLOCK_LENGTH ->
  cipher_keeps_length (cipher ctx) ->
  EVP_CIPHER_CTX_mode ctx = EVP_CIPH_ECB_MODE
  \/ EVP_CIPHER_CTX_mode ctx = EVP_CIPH_CBC_MODE ->
  final_used ctx = 1 -> 0 < buf_len ctx < bl ->
  length (buf ctx) = 32%nat -> length (final ctx) = 32%nat ->
  ret (EVP_DecryptFinal_cts ctx) = 1
  /\ outl (EVP_DecryptFinal_cts ctx) = bl + buf_len ctx
  /\ Z.of_nat (length (out_bytes (EVP_DecryptFinal_cts ctx))) = bl + buf_len ctx
  /\ trace (EVP_DecryptFinal_cts ctx) = [].
Proof.
  intros Hbs Hmax Hkeep Hmode Hfu Hbuf HB HF.
  unfold EVP_MAX_BLOCK_LENGTH in Hmax.
  destruct ctx as [c e bln o i b fl cd fu bm fi]. rsimpl. subst fu.
  unfold EVP_DecryptFinal_cts. unfold EVP_CIPHER_CTX_mode in *. rsimpl.
  rewrite Hbs. change (1 =? 0) with false. zrew (bln =? 0) false. rsimpl.
  assert (Hsame : bl mod block_size c = 0) by (rewrite Hbs; apply Z.mod_same; lia).
  destruct Hmode as [Hm | Hm]; rewrite Hm.
  - change (EVP_CIPH_ECB_MODE =? EVP_CIPH_ECB_MODE) with true. rsimpl.
    match goal with |- context [ctx_do_cipher ?x ?y ?z] =>
      destruct (ctx_do_cipher_keeps x y z Hkeep ltac:(lia) Hsame ltac:(rsimpl; lia))
        as (r & tmp & iv1 & Hdc & Hrz & Htmp)
    end.
    rewrite Hdc. rsimpl. rewrite Hrz. rsimpl.
    match goal with |- context [ctx_do_cipher ?x ?y ?z] =>
      destruct (ctx_do_cipher_keeps x y z Hkeep ltac:(lia) Hsame
                  ltac:(rsimpl; rewrite memcpy_length; rewrite ?length_skipn; lia))
        as (r2 & o2 & iv2 & Hdc2 & Hrz2 & Ho2)
    end.
    rewrite Hdc2. rsimpl. rewrite Hrz2. rsimpl.
    repeat split.
    rewrite memcpy_append by lia. len.
  - change (EVP_CIPH_CBC_MODE =? EVP_CIPH_ECB_MODE) with false.
    change (EVP_CIPH_CBC_MODE =? EVP_CIPH_CBC_MODE) with true. rsimpl.
    match goal with |- context [ctx_do_cipher ?x ?y ?z] =>
      destruct (ctx_do_cipher_keeps x y z Hkeep ltac:(lia) Hsame ltac:(rsimpl; lia))
        as (r & tmp & iv1 & Hdc & Hrz & Htmp)
    end.
    rewrite Hdc. rsimpl. rewrite Hrz. rsimpl.
    match goal with |- context [ctx_do_cipher ?x ?y ?z] =>
      destruct (ctx_do_cipher_keeps x y z Hkeep ltac:(lia) Hsame
                  ltac:(rsimpl; rewrite memcpy_length;
                        rewrite ?memset_length, ?length_skipn, ?xor_loop_length; lia))
        as (r2 & o2 & iv2 & Hdc2 & Hrz2 & Ho2)
    end.
    rewrite Hdc2. rsimpl. rewrite Hrz2. rsimpl.
    repeat split.
    rewrite memcpy_append by (rewrite !xor_loop_length; lia).
    rewrite length_app, !xor_loop_length, length_firstn, !xor_loop_length. lia.
Qed.

(** X2: the decrypt direction of ciphertext stealing keeps the length.
    On a context as [EVP_DecryptInit_ex] leaves it, with a block cipher in
    ECB or CBC mode, the calls turn any input of [L >= block_size] bytes,
    [L] not a multiple of the block size, into exactly [L] bytes: both
    calls succeed, the final call traces nothing, each stores as many
    bytes as it reports in [*outl], and the two counts add up to [L]. *)
Theorem cts_decrypt_keeps_the_length :
  forall (ctx : EVP_CIPHER_CTX) (C : list byte) (k : Z),
    0 <= k -> block_size (cipher ctx) = 2 ^ k ->
    block_size (cipher ctx) <= EVP_MAX_BLOCK_LENGTH ->
    fresh_ctx ctx -> cipher_keeps_length (cipher ctx) ->
    EVP_CIPHER_CTX_mode ctx = EVP_CIPH_ECB_MODE
    \/ EVP_CIPHER_CTX_mode ctx = EVP_CIPH_CBC_MODE ->
    GetSize C >= block_size (cipher ctx) ->
    GetSize C mod block_size (cipher ctx) <> 0 ->
    exists r1,
      EVP_DecryptUpdate_cts ctx C (GetSize C) = Returns r1
      /\ ret r1 = 1
      /\ ret (EVP_DecryptFinal_cts (ctx_after r1)) = 1
      /\ trace (EVP_DecryptFinal_cts (ctx_after r1)) = []
      /\ Z.of_nat (length (out_bytes r1)) = outl r1
      /\ Z.of_nat (length (out_bytes (EVP_DecryptFinal_cts (ctx_after r1))))
         = outl (EVP_DecryptFinal_cts (ctx_after r1))
      /\ outl r1 + outl (EVP_DecryptFinal_cts (ctx_after r1)) = GetSize C.
Proof.
  intros ctx C k Hk Hbl Hmax Hfresh Hkeep Hmode HL Hmod.
  destruct (EncryptUpdate_cts_fresh ctx C (block_size (cipher ctx)) k
              eq_refl Hk Hbl Hmax Hfresh Hkeep HL Hmod)
    as (r1 & Hup & Hret & Hlen1 & Hout1 & Hc & Hfu & Hbuf & HB & HF).
  assert (Hblpos : 0 < block_size (cipher ctx))
    by (rewrite Hbl; apply Z.pow_pos_nonneg; lia).
  pose proof (Z.mod_pos_bound (GetSize C) _ Hblpos) as Hr.
  destruct (DecryptFinal_cts_pending (ctx_after r1) (block_size (cipher ctx)))
    as (Hret2 & Hout2 & Hlen2 & Htr2).
  - rewrite Hc. reflexivity.
  - exact Hmax.
  - rewrite Hc. exact Hkeep.
  - unfold EVP_CIPHER_CTX_mode in *. rewrite Hc. exact Hmode.
  - exact Hfu.
  - rewrite Hbuf. lia.
  - exact HB.
  - exact HF.
  - exists r1. unfold EVP_DecryptUpdate_cts.
    split; [exact Hup|]. split; [exact Hret|]. split; [exact Hret2|].
    split; [exact Htr2|].
    split; [exact Hlen1|]. split; [lia|]. lia.
Qed.

(** *** Ciphertext stealing in ECB mode *)

Lemma ecb_blocks_firstn (f : list byte -> list byte) (n : nat) :
  forall input m, (16 * n <= m)%nat ->
    ecb_blocks f n (firstn m input) = ecb_blocks f n input.
Proof.
  induction n as [|n IH]; intros input m Hm; cbn [ecb_blocks].
  - reflexivity.
  - rewrite firstn_firstn, Nat.min_l by lia.
    rewrite skipn_firstn_comm, IH by lia. reflexivity.
Qed.

Lemma ecb_blocks_ext (f : list byte -> list byte) (n : nat) (a b : list byte) :
  firstn (16 * n) a = firstn (16 * n) b -> ecb_blocks f n a = ecb_blocks f n b.
Proof.
  intros H. rewrite <- (ecb_blocks_firstn f n a (16 * n)) by lia.
  rewrite H. apply ecb_blocks_firstn. lia.
Qed.

(** ECB decryption undoes ECB encryption block by block. *)
Lemma ecb_blocks_roundtrip (key : list byte) (n : nat) :
  forall input t, length input = (16 * n)%nat ->
    ecb_blocks (AES_decrypt key) n (ecb_blocks (AES_encrypt key) n input ++ t) = input.
Proof.
  induction n as [|n IH]; intros input t Hin; cbn [ecb_blocks].
  - destruct input; [reflexivity | discriminate].
  - assert (Hb : length (firstn 16 input) = 16%nat) by len.
    rewrite <- app_assoc.
    rewrite firstn_app_l, skipn_app_l by (rewrite AES_encrypt_length; auto).
    rewrite AES_decrypt_encrypt by exact Hb.
    rewrite IH by len. apply firstn_skipn.
Qed.

Lemma ctx_do_cipher_ecb (keylen : Z) (ctx : EVP_CIPHER_CTX) (input : list byte)
  (inl : Z) (n : nat) :
  cipher ctx = EVP_aes_ecb keylen ->
  Z.to_nat inl = (16 * n)%nat -> (16 * n <= length input)%nat ->
  ctx_do_cipher ctx input inl
  = (1, ecb_blocks (ecb_direction (cipher_data ctx) (encrypt ctx)) n input,
     set_iv ctx (iv ctx)).
Proof.
  intros Hc Hn Hlen. unfold ctx_do_cipher. rewrite Hc.
  cbn [do_cipher EVP_aes_ecb]. unfold aes_ecb_cipher. rewrite Hn.
  replace (length (firstn (16 * n) input) / 16)%nat with n
    by (rewrite length_firstn, Nat.min_l, Nat.mul_comm, Nat.div_mul by lia; reflexivity).
  rewrite ecb_blocks_firstn by lia. reflexivity.
Qed.

Lemma EncryptUpdate_cts_ecb (keylen : Z) (ctx : EVP_CIPHER_CTX) (P : list byte)
  (q r : nat) :
  cipher ctx = EVP_aes_ecb keylen -> fresh_ctx ctx ->
  length P = (16 * q + r)%nat -> (1 <= q)%nat -> (0 < r < 16)%nat ->
  EVP_EncryptUpdate_cts ctx P (Z.of_nat (length P))
  = Returns
      (evp 1
         {| cipher := EVP_aes_ecb keylen; encrypt := encrypt ctx;
            buf_len := Z.of_nat r; oiv := oiv ctx; iv := iv ctx;
            buf := skipn (16 * q) P ++ skipn r (firstn 16 P ++ skipn 16 (buf ctx));
            ctx_flags := ctx_flags ctx; cipher_data := cipher_data ctx;
            final_used := 1; block_mask := 15;
            final := firstn 16 (skipn (16 * (q - 1)) P) ++ skipn 16 (final ctx) |}
         (ecb_blocks (ecb_direction (cipher_data ctx) (encrypt ctx)) (q - 1) P)
         (Z.of_nat (16 * (q - 1))) []).
Proof.
  intros Hc (Hbl & Hfu & Hbm & HB & HF) HL Hq Hr.
  destruct ctx as [c e bl o i B fl cd fu bm F]. rsimpl. subst c bl fu bm.
  rsimpl. unfold AES_BLOCK_SIZE.
  assert (HP16 : firstn 16 (memcpy B 0 P 16) = firstn 16 P).
  { apply (memcpy_0_firstn B P 16); lia. }
  unfold EVP_EncryptUpdate_cts. rsimpl. unfold AES_BLOCK_SIZE.
  change (16 <=? EVP_MAX_BLOCK_LENGTH) with true.
  zrew (0 + Z.of_nat (length P) <=? 16) false.
  change (0 =? 0) with true. change (1 =? 0) with false. rsimpl.
  change (16 - 0) with 16. change (16 - 1) with 15.
  destruct (Nat.eq_dec q 1) as [-> | Hq1].
  - zrew (Z.of_nat (length P) - 16 <=? 16) true.
    change (16 * (1 - 1))%nat with 0%nat. change (skipn 0 P) with P.
    cbn [ecb_blocks].
    replace (Z.of_nat (length P) - 16) with (Z.of_nat r) by lia.
    rewrite !memcpy_0. rewrite Nat2Z.id. change (Z.to_nat 16) with 16%nat.
    rewrite (firstn_app_le 16) by len. rewrite firstn_firstn.
    change (Nat.min 16 16) with 16%nat.
    rewrite (firstn_full r) by len.
    reflexivity.
  - zrew (Z.of_nat (length P) - 16 <=? 16) false.
    rewrite (ctx_do_cipher_ecb keylen _ _ 16 1)
      by (try reflexivity; rewrite memcpy_length by lia; lia).
    rsimpl. change (1 =? 0) with false. rsimpl.
    rewrite land15.
    replace ((Z.of_nat (length P) - 16) mod 16) with (Z.of_nat r).
    2:{ rewrite HL. replace (Z.of_nat (16 * q + r) - 16)
          with (Z.of_nat r + Z.of_nat (q - 1) * 16) by lia.
        rewrite Z.mod_add, Z.mod_small by lia. reflexivity. }
    zrew (Z.of_nat r =? 0) false. rsimpl.
    replace (Z.of_nat (length P) - 16 - (16 + Z.of_nat r))
      with (Z.of_nat (16 * (q - 2))) by lia.
    rewrite (ctx_do_cipher_ecb keylen _ _ _ (q - 2)) by (try reflexivity; len).
    rsimpl. change (1 =? 0) with false. rsimpl.
    change (Z.to_nat 16) with 16%nat. rewrite !memcpy_0.
    change (Z.to_nat 16) with 16%nat. rewrite !Nat2Z.id.
    rewrite (ecb_blocks_ext _ 1 (firstn 16 P ++ skipn 16 B) P)
      by (rewrite firstn_app_le, firstn_firstn by len; reflexivity).
    replace (q - 1)%nat with (S (q - 2)) by lia.
    cbn [ecb_blocks app].
    rewrite !skipn_skipn, app_nil_r.
    replace (Z.to_nat (Z.of_nat (16 * (q - 2)) + 16) + 16)%nat with (16 * q)%nat by lia.
    replace (16 * (q - 2) + 16)%nat with (16 * S (q - 2))%nat by lia.
    rewrite (firstn_full r) by len.
    replace (0 + 16 + Z.of_nat (16 * (q - 2))) with (Z.of_nat (16 * S (q - 2))) by lia.
    reflexivity.
Qed.

Lemma memcpy_steal (a B' t : list byte) (r : nat) :
  length a = r -> (r <= 16)%nat -> length t = 16%nat ->
  firstn 16 (memcpy (a ++ B') (Z.of_nat r) (skipn r t) (16 - Z.of_nat r))
  = a ++ skipn r t.
Proof.
  intros Ha Hr Ht. unfold memcpy. rewrite Nat2Z.id.
  replace (Z.to_nat (16 - Z.of_nat r)) with (16 - r)%nat by lia.
  rewrite (firstn_app_l r) by (symmetry; exact Ha).
  rewrite (firstn_full (16 - r)) by len.
  rewrite app_assoc. apply firstn_app_l. len.
Qed.

Lemma EncryptFinal_cts_ecb (keylen : Z) (key ivec iv1 : list byte) (fl enc : Z)
  (tail B' blk F' : list byte) (r : nat) :
  length tail = r -> (0 < r < 16)%nat -> length blk = 16%nat ->
  let f := ecb_direction key enc in
  (forall b, length b = 16%nat -> length (f b) = 16%nat) ->
  let T := f blk in
  let X := f (tail ++ skipn r T) in
  exists ctx',
    EVP_EncryptFinal_cts
      {| cipher := EVP_aes_ecb keylen; encrypt := enc; buf_len := Z.of_nat r;
         oiv := ivec; iv := iv1; buf := tail ++ B'; ctx_flags := fl;
         cipher_data := key; final_used := 1; block_mask := 15;
         final := blk ++ F' |}
    = evp 1 ctx' (X ++ firstn r T) (16 + Z.of_nat r) [].
Proof.
  intros Ht Hr Hb f Hf T X.
  assert (HT : length T = 16%nat) by (apply Hf; exact Hb).
  assert (HX : length X = 16%nat) by (apply Hf; len).
  unfold EVP_EncryptFinal_cts, EVP_CIPHER_CTX_mode. rsimpl.
  change (1 =? 0) with false. zrew (Z.of_nat r =? 0) false.
  change (Z.land EVP_CIPH_ECB_MODE EVP_CIPH_MODE =? EVP_CIPH_ECB_MODE) with true.
  rsimpl. unfold AES_BLOCK_SIZE.
  rewrite (ctx_do_cipher_ecb keylen _ _ 16 1) by (try reflexivity; len).
  rsimpl. change (1 =? 0) with false. rsimpl.
  cbn [ecb_blocks]. rewrite app_nil_r.
  rewrite (firstn_app_l 16 blk) by (symmetry; exact Hb).
  fold f. fold T.
  rewrite (ctx_do_cipher_ecb keylen _ _ 16 1)
    by (try reflexivity; unfold memcpy; len).
  rsimpl. change (1 =? 0) with false. rsimpl.
  cbn [ecb_blocks]. rewrite app_nil_r. rewrite !Nat2Z.id.
  rewrite memcpy_steal by (try assumption; lia).
  fold f. fold X.
  rewrite (memcpy_append X) by exact HX.
  rewrite Nat2Z.id. eexists. reflexivity.
Qed.

Lemma DecryptFinal_cts_ecb (keylen : Z) (key ivec iv1 : list byte) (fl : Z)
  (tail B' blk F' : list byte) (r : nat) :
  length tail = r -> (0 < r < 16)%nat -> length blk = 16%nat ->
  let T := AES_encrypt key blk in
  let X := AES_encrypt key (tail ++ skipn r T) in
  exists ctx',
    EVP_DecryptFinal_cts
      {| cipher := EVP_aes_ecb keylen; encrypt := 0; buf_len := Z.of_nat r;
         oiv := ivec; iv := iv1; buf := firstn r T ++ B'; ctx_flags := fl;
         cipher_data := key; final_used := 1; block_mask := 15;
         final := X ++ F' |}
    = evp 1 ctx' (blk ++ tail) (16 + Z.of_nat r) [].
Proof.
  intros Ht Hr Hb T X.
  assert (HT : length T = 16%nat) by (apply AES_encrypt_length; exact Hb).
  assert (Hin : length (tail ++ skipn r T) = 16%nat) by len.
  assert (HX : length X = 16%nat) by (apply AES_encrypt_length; exact Hin).
  assert (HDX : AES_decrypt key X = tail ++ skipn r T)
    by (apply AES_decrypt_encrypt; exact Hin).
  assert (HDT : AES_decrypt key T = blk) by (apply AES_decrypt_encrypt; exact Hb).
  unfold EVP_DecryptFinal_cts, EVP_CIPHER_CTX_mode. rsimpl.
  change (1 =? 0) with false. zrew (Z.of_nat r =? 0) false.
  change (Z.land EVP_CIPH_ECB_MODE EVP_CIPH_MODE =? EVP_CIPH_ECB_MODE) with true.
  rsimpl. unfold AES_BLOCK_SIZE.
  rewrite (ctx_do_cipher_ecb keylen _ _ 16 1) by (try reflexivity; len).
  rsimpl. change (1 =? 0) with false. rsimpl.
  unfold ecb_direction. change (negb (0 =? 0)) with false. cbv iota.
  cbn [ecb_blocks]. rewrite app_nil_r.
  rewrite (firstn_app_l 16 X) by (symmetry; exact HX).
  rewrite HDX, !Nat2Z.id.
  rewrite (skipn_app_l r tail) by (symmetry; exact Ht).
  rewrite (ctx_do_cipher_ecb keylen _ _ 16 1)
    by (try reflexivity; unfold memcpy; len).
  rsimpl. change (1 =? 0) with false. rsimpl.
  unfold ecb_direction. change (negb (0 =? 0)) with false. cbv iota.
  cbn [ecb_blocks]. rewrite app_nil_r.
  assert (Hbuf : firstn 16 (memcpy (firstn r T ++ B') (Z.of_nat r) (skipn r T)
                              (16 - Z.of_nat r)) = T).
  { rewrite memcpy_steal by (try assumption; len). apply firstn_skipn. }
  rewrite Hbuf, HDT.
  rewrite (memcpy_append blk) by exact Hb.
  rewrite ?Nat2Z.id, (firstn_app_l r tail) by (symmetry; exact Ht).
  eexists. reflexivity.
Qed.

(** X3: ciphertext stealing in ECB mode round-trips.  With AES in ECB
    mode under one key, what the encrypting update and final calls store
    for a plaintext of at least 16 bytes whose length is not a multiple of
    16 has the length of the plaintext, and the decrypting update and
    final calls turn it back into the plaintext. *)
Theorem cts_ecb_roundtrip :
  forall (ce cd : EVP_CIPHER_CTX) (keylen : Z) (P : list byte),
    cipher ce = EVP_aes_ecb keylen -> cipher cd = EVP_aes_ecb keylen ->
    cipher_data cd = cipher_data ce -> encrypt ce <> 0 -> encrypt cd = 0 ->
    fresh_ctx ce -> fresh_ctx cd ->
    (16 <= length P)%nat -> (length P mod 16 <> 0)%nat ->
    exists r1 r1',
      EVP_EncryptUpdate_cts ce P (GetSize P) = Returns r1
      /\ ret r1 = 1 /\ ret (EVP_EncryptFinal_cts (ctx_after r1)) = 1
      /\ let C := out_bytes r1 ++ out_bytes (EVP_EncryptFinal_cts (ctx_after r1)) in
         length C = length P
         /\ EVP_DecryptUpdate_cts cd C (GetSize C) = Returns r1'
         /\ ret r1' = 1 /\ ret (EVP_DecryptFinal_cts (ctx_after r1')) = 1
         /\ out_bytes r1' ++ out_bytes (EVP_DecryptFinal_cts (ctx_after r1')) = P.
Proof.
  intros ce cd keylen P Hce Hcd Hkey Henc Hdec Hfe Hfd HL Hmod.
  unfold GetSize. set (L := length P) in *.
  destruct (nat_div_mod_16 L) as [HLq HLr].
  set (q := (L / 16)%nat) in *. set (r := (L mod 16)%nat) in *.
  assert (Hq : (1 <= q)%nat) by (apply Nat.div_le_lower_bound; lia).
  set (key := cipher_data ce) in *.
  assert (HdirE : ecb_direction key (encrypt ce) = AES_encrypt key).
  { unfold ecb_direction. replace (encrypt ce =? 0) with false by (symmetry; zb).
    reflexivity. }
  set (P0 := firstn (16 * (q - 1)) P).
  set (blk := firstn 16 (skipn (16 * (q - 1)) P)).
  set (tail := skipn (16 * q) P).
  assert (HP0 : length P0 = (16 * (q - 1))%nat) by (subst P0; fold L; len).
  assert (Hblk : length blk = 16%nat) by (subst blk; fold L; len).
  assert (Htail : length tail = r) by (subst tail; fold L; len).
  assert (HP : P = P0 ++ blk ++ tail).
  { subst P0 blk tail.
    rewrite <- (firstn_skipn (16 * (q - 1)) P) at 1. f_equal.
    rewrite <- (firstn_skipn 16 (skipn (16 * (q - 1)) P)) at 1. f_equal.
    rewrite skipn_skipn. f_equal. lia. }
  set (c := ecb_blocks (AES_encrypt key) (q - 1) P).
  assert (Hc : length c = (16 * (q - 1))%nat)
    by (apply ecb_blocks_length; [apply AES_encrypt_length | fold L; lia]).
  set (T := AES_encrypt key blk).
  set (X := AES_encrypt key (tail ++ skipn r T)).
  assert (HT : length T = 16%nat) by (apply AES_encrypt_length; exact Hblk).
  assert (HX : length X = 16%nat) by (apply AES_encrypt_length; len).
  (* encryption *)
  pose proof (EncryptUpdate_cts_ecb keylen ce P q r Hce Hfe HLq Hq ltac:(lia)) as Hup.
  fold L key in Hup. rewrite HdirE in Hup. fold c tail blk in Hup. rewrite Hup.
  eexists. eexists. split; [reflexivity|]. rsimpl.
  split; [reflexivity|].
  destruct (EncryptFinal_cts_ecb keylen key (oiv ce) (iv ce) (ctx_flags ce) (encrypt ce)
              tail (skipn r (firstn 16 P ++ skipn 16 (buf ce))) blk
              (skipn 16 (final ce)) r Htail ltac:(lia) Hblk)
    as [ctx' Hfin].
  { rewrite HdirE. apply AES_encrypt_length. }
  rewrite HdirE in Hfin. fold T X in Hfin. rewrite Hfin. rsimpl.
  split; [reflexivity|].
  set (C := c ++ X ++ firstn r T).
  assert (HC : length C = (16 * q + r)%nat) by (subst C; len).
  split; [fold L; lia|].
  (* decryption *)
  unfold EVP_DecryptUpdate_cts.
  rewrite (EncryptUpdate_cts_ecb keylen cd C q r Hcd Hfd HC Hq ltac:(lia)).
  rewrite Hkey, Hdec. fold key.
  split; [reflexivity|]. rsimpl. split; [reflexivity|].
  assert (Hrt : ecb_blocks (ecb_direction key 0) (q - 1) C = P0).
  { unfold ecb_direction. change (negb (0 =? 0)) with false. cbv iota.
    subst C c.
    rewrite <- (ecb_blocks_firstn (AES_encrypt key) (q - 1) P (16 * (q - 1))) by lia.
    fold P0. apply ecb_blocks_roundtrip. exact HP0. }
  fold C. rewrite Hrt.
  replace (skipn (16 * q) C) with (firstn r T).
  2:{ subst C. rewrite app_assoc. symmetry. apply skipn_app_l. len. }
  replace (firstn 16 (skipn (16 * (q - 1)) C)) with X.
  2:{ subst C. rewrite skipn_app_l by lia. symmetry. apply firstn_app_l. lia. }
  destruct (DecryptFinal_cts_ecb keylen key (oiv cd) (iv cd) (ctx_flags cd)
              tail (skipn r (firstn 16 C ++ skipn 16 (buf cd))) blk
              (skipn 16 (final cd)) r Htail ltac:(lia) Hblk)
    as [ctx'' Hfin'].
  fold T X in Hfin'. rewrite Hfin'. rsimpl.
  split; [reflexivity|]. symmetry. exact HP.
Qed.

(** *** The contexts stay keyed *)

Lemma ready_ctx_keyed (keylen : Z) (key : list byte) (enc : Z) (ivec : list byte)
  (pad : bool) (B F : list byte) :
  length B = 32%nat -> length F = 32%nat -> length ivec = 16%nat ->
  keyed_ctx keylen key (ready_ctx keylen key enc ivec pad B F).
Proof.
  intros HB HF Hi. unfold keyed_ctx, ready_ctx. rsimpl.
  repeat split; try assumption. destruct pad; auto.
Qed.

Lemma EncryptFinal_cts_keeps (keylen : Z) (key : list byte) (ctx : EVP_CIPHER_CTX) :
  keyed_ctx keylen key ctx -> 0 <= buf_len ctx <= 16 ->
  keyed_ctx keylen key (ctx_after (EVP_EncryptFinal_cts ctx)).
Proof.
  intros Hk Hbl.
  destruct ctx as [c e bln o i b fl cd fu bm fi].
  pose proof Hk as (Hc & Hkd & HB & HF & Hi & Ho & Hfl). rsimpl. subst c cd.
  unfold EVP_EncryptFinal_cts, EVP_CIPHER_CTX_mode. rsimpl.
  destruct (fu =? 0); [exact Hk|].
  destruct (bln =? 0); [exact Hk|].
  change (Z.land EVP_CIPH_CBC_MODE EVP_CIPH_MODE =? EVP_CIPH_ECB_MODE) with false.
  change (Z.land EVP_CIPH_CBC_MODE EVP_CIPH_MODE =? EVP_CIPH_CBC_MODE) with true.
  rsimpl. unfold AES_BLOCK_SIZE.
  rewrite (ctx_do_cipher_cbc keylen _ _ 16 1) by (try reflexivity; rsimpl; lia).
  rsimpl. change (1 =? 0) with false. rsimpl.
  assert (Hm : length (memset b bln Byte.x00 (16 - bln)) = 32%nat)
    by (rewrite memset_length; lia).
  rewrite (ctx_do_cipher_cbc keylen _ _ 16 1) by (try reflexivity; rsimpl; lia).
  rsimpl. change (1 =? 0) with false. rsimpl.
  unfold keyed_ctx. rsimpl. repeat split; try assumption.
  apply cbc128_length; [lia|]. apply cbc128_length; [lia | exact Hi].
Qed.

Lemma DecryptFinal_cts_keeps (keylen : Z) (key : list byte) (ctx : EVP_CIPHER_CTX) :
  keyed_ctx keylen key ctx -> 0 <= buf_len ctx <= 16 ->
  keyed_ctx keylen key (ctx_after (EVP_DecryptFinal_cts ctx)).
Proof.
  intros Hk Hbl.
  destruct ctx as [c e bln o i b fl cd fu bm fi].
  pose proof Hk as (Hc & Hkd & HB & HF & Hi & Ho & Hfl). rsimpl. subst c cd.
  unfold EVP_DecryptFinal_cts, EVP_CIPHER_CTX_mode. rsimpl.
  destruct (fu =? 0); [exact Hk|].
  destruct (bln =? 0); [exact Hk|].
  change (Z.land EVP_CIPH_CBC_MODE EVP_CIPH_MODE =? EVP_CIPH_ECB_MODE) with false.
  change (Z.land EVP_CIPH_CBC_MODE EVP_CIPH_MODE =? EVP_CIPH_CBC_MODE) with true.
  rsimpl. unfold AES_BLOCK_SIZE.
  assert (Hm : length (memset b bln Byte.x00 (16 - bln)) = 32%nat)
    by (rewrite memset_length; lia).
  rewrite (ctx_do_cipher_cbc keylen _ _ 16 1) by (try reflexivity; rsimpl; lia).
  rsimpl. change (1 =? 0) with false. rsimpl.
  pose proof (cbc128_length key e 1 i fi ltac:(lia) Hi) as [Ht Hi1].
  match goal with |- context [memcpy ?d bln ?s (16 - bln)] =>
    assert (Hm2 : length (memcpy d bln s (16 - bln)) = 32%nat)
      by (rewrite memcpy_length; rewrite ?length_skipn, ?xor_loop_length; lia)
  end.
  rewrite (ctx_do_cipher_cbc keylen _ _ 16 1) by (try reflexivity; rsimpl; lia).
  rsimpl. change (1 =? 0) with false. rsimpl.
  unfold keyed_ctx. rsimpl. repeat split; try assumption.
  apply cbc128_length; [lia | exact Hi1].
Qed.

Lemma EncryptFinal_ex_keeps (keylen : Z) (key : list byte) (ctx : EVP_CIPHER_CTX)
  (outl0 : Z) :
  keyed_ctx keylen key ctx -> 0 <= buf_len ctx <= 16 ->
  exists r,
    EVP_EncryptFinal_ex ctx outl0 = Returns r
    /\ keyed_ctx keylen key (ctx_after r).
Proof.
  intros Hk Hbl.
  destruct ctx as [c e bln o i b fl cd fu bm fi].
  pose proof Hk as (Hc & Hkd & HB & HF & Hi & Ho & Hfl). rsimpl. subst c cd.
  unfold EVP_EncryptFinal_ex. rsimpl. unfold AES_BLOCK_SIZE.
  change (16 <=? EVP_MAX_BLOCK_LENGTH) with true. change (16 =? 1) with false.
  rsimpl.
  destruct (Z.land fl EVP_CIPH_NO_PADDING =? 0); rsimpl.
  - assert (Hm : length (memset b bln (int_to_uchar (16 - bln)) (16 - bln)) = 32%nat)
      by (rewrite memset_length; lia).
    rewrite (ctx_do_cipher_cbc keylen _ _ 16 1) by (try reflexivity; rsimpl; lia).
    rsimpl. change (1 =? 0) with false. rsimpl.
    eexists. split; [reflexivity|]. rsimpl.
    unfold keyed_ctx. rsimpl. repeat split; try assumption.
    apply cbc128_length; [lia | exact Hi].
  - destruct (bln =? 0); rsimpl; eexists; (split; [reflexivity | exact Hk]).
Qed.

(** [Encrypt] leaves its context keyed. *)
Lemma Encrypt_keeps_keyed (e : H235CryptoEngine) (ctx : EVP_CIPHER_CTX) (keylen : Z)
  (key P : list byte) (ivSequence : option (list byte)) :
  m_encryptCtx e = Some ctx -> keyed_ctx keylen key ctx -> seq_ok ivSequence ->
  exists r ctx',
    Encrypt e P ivSequence = Returns r
    /\ m_encryptCtx (engine_after r) = Some ctx'
    /\ keyed_ctx keylen key ctx'.
Proof.
  intros He Hk Hs.
  pose proof (iv_of_length ivSequence Hs) as Hiv.
  destruct (ready_after_init keylen key ctx (iv_of ivSequence) 1 Hk)
    as (Hbs & Hil & Hbs').
  pose proof (prepare_ctx keylen key ctx (iv_of ivSequence) 1 true Hk Hiv) as Hpt.
  pose proof (prepare_ctx keylen key ctx (iv_of ivSequence) 1 false Hk Hiv) as Hpf.
  cbv iota in Hpt, Hpf.
  destruct Hk as (_ & _ & HB & HF & _).
  unfold Encrypt. rewrite He. unfold EVP_EncryptInit_ex_iv.
  rewrite Hil. fold (iv_of ivSequence). rewrite Hbs, Hbs'.
  unfold GetSize. set (L := length P).
  destruct (nat_div_mod_16 L) as [HLq HLr].
  assert (Hrb : forall pad B F,
             EVP_CIPHER_CTX_block_size (ready_ctx keylen key 1 (iv_of ivSequence) pad B F)
             = 16) by reflexivity.
  destruct (Z.of_nat L <? 16) eqn:Eshort.
  - (* one padded block *)
    rewrite Hpt, Hrb. cbn [negb andb]. cbv iota.
    apply Z.ltb_lt in Eshort.
    rewrite (EncryptUpdate_short keylen key 1 _ true _ _ P) by (fold L; lia).
    cbn [obind]. rsimpl.
    match goal with |- context [EVP_EncryptFinal_ex ?x 0] =>
      destruct (EncryptFinal_ex_keeps keylen key x 0) as (r2 & Hr2 & Hk2)
    end.
    { unfold keyed_ctx. rsimpl. repeat split; auto. fold L. len. }
    { rsimpl. fold L. lia. }
    rewrite Hr2. cbn [obind].
    eexists. eexists. split; [reflexivity|].
    cbn [engine_after m_encryptCtx]. split; [reflexivity | exact Hk2].
  - apply Z.ltb_ge in Eshort.
    rewrite Hpf, Hrb. cbn [negb andb]. rewrite rem_16.
    destruct (Z.of_nat (L mod 16) >? 0) eqn:Ects.
    + (* ciphertext stealing *)
      apply Z.gtb_lt in Ects.
      assert (Hq : (1 <= L / 16)%nat)
        by (apply Nat.div_le_lower_bound; lia).
      rewrite (EncryptUpdate_cts_ready keylen key 1 _ false _ _ P (L / 16) (L mod 16))
        by (try assumption; lia).
      cbn [obind]. rsimpl.
      pose proof (cbc128_length key 1 (L / 16 - 1) (iv_of ivSequence) P
                    ltac:(fold L; lia) Hiv) as [Hc Hi1].
      eexists. eexists. split; [reflexivity|].
      cbn [engine_after m_encryptCtx]. split; [reflexivity|].
      apply EncryptFinal_cts_keeps.
      * unfold keyed_ctx. rsimpl. repeat split; auto; fold L; len.
      * rsimpl. lia.
    + (* whole blocks *)
      assert (Hr0 : (L mod 16 = 0)%nat) by lia.
      assert (Hq : (1 <= L / 16)%nat)
        by (apply Nat.div_le_lower_bound; lia).
      rewrite (EncryptUpdate_whole keylen key 1 _ false _ _ P _ (L / 16))
        by (fold L; lia).
      cbn [obind]. rsimpl.
      rewrite (EncryptFinal_ex_nopad _ keylen) by reflexivity.
      cbn [obind]. rsimpl.
      pose proof (cbc128_length key 1 (L / 16) (iv_of ivSequence) P
                    ltac:(fold L; lia) Hiv) as [Hc Hi1].
      eexists. eexists. split; [reflexivity|].
      cbn [engine_after m_encryptCtx]. split; [reflexivity|].
      unfold keyed_ctx. rsimpl. repeat split; auto.
Qed.

(** *** [Decrypt] on any input *)

(** [Decrypt] hands the padding flag back and touches neither the
    algorithm nor the encryption context. *)
Lemma Decrypt_other_fields (e : H235CryptoEngine) (data : PBYTEArray)
  (ivSequence : option (list byte)) (rtpPadding : bool) (r : crypt_result) :
  Decrypt e data ivSequence rtpPadding = Returns r ->
  rtpPadding_out r = rtpPadding
  /\ m_encryptCtx (engine_after r) = m_encryptCtx e
  /\ m_algorithmOID (engine_after r) = m_algorithmOID e.
Proof.
  unfold Decrypt. destruct (m_decryptCtx e) as [ctx|]; [|discriminate].
  match goal with |- context [if ?b then _ else _] => destruct b end.
  - destruct (EVP_DecryptUpdate_cts _ _ _) as [r1| |]; cbn [obind];
      try discriminate.
    intros H. injection H as <-. repeat split.
  - destruct (EVP_DecryptUpdate _ _ _ _) as [r1| |]; cbn [obind];
      try discriminate.
    destruct (EVP_DecryptFinal_relaxed _) as [r2| |]; cbn [obind];
      try discriminate.
    intros H. injection H as <-. repeat split.
Qed.

(** An empty input: nothing comes back; with the padding flag the final
    call misses its block and says so. *)
Lemma Decrypt_empty (e : H235CryptoEngine) (ctx : EVP_CIPHER_CTX) (keylen : Z)
  (key : list byte) (ivSequence : option (list byte)) (rtpPadding : bool) :
  m_decryptCtx e = Some ctx -> keyed_ctx keylen key ctx -> seq_ok ivSequence ->
  exists r ctx',
    Decrypt e [] ivSequence rtpPadding = Returns r
    /\ bytes r = []
    /\ crypt_trace r
       = (if rtpPadding
          then [msg_wrong_final_block;
                "H235	EVP_DecryptFinal_ex() failed - incorrect padding ?"%string]
          else [])
    /\ m_decryptCtx (engine_after r) = Some ctx'
    /\ keyed_ctx keylen key ctx'.
Proof.
  intros He Hk Hs.
  pose proof (iv_of_length ivSequence Hs) as Hiv.
  destruct (ready_after_init keylen key ctx (iv_of ivSequence) 0 Hk)
    as (Hbs & Hil & Hbs').
  pose proof (prepare_ctx keylen key ctx (iv_of ivSequence) 0 rtpPadding Hk Hiv) as Hp.
  pose proof Hk as (_ & _ & HB & HF & _).
  unfold Decrypt. rewrite He. unfold EVP_DecryptInit_ex_iv.
  rewrite Hil. fold (iv_of ivSequence). rewrite Hp.
  change (EVP_CIPHER_CTX_block_size (ready_ctx keylen key 0 (iv_of ivSequence)
            rtpPadding (buf ctx) (final ctx))) with 16.
  change (GetSize []) with 0. change (Z.rem 0 16 >? 0) with false.
  rewrite andb_false_r.
  assert (Hrk : keyed_ctx keylen key
                  (ready_ctx keylen key 0 (iv_of ivSequence) rtpPadding
                     (buf ctx) (final ctx)))
    by (apply ready_ctx_keyed; assumption).
  destruct rtpPadding; cbn; eexists; eexists;
    (split; [reflexivity|]); cbn [bytes crypt_trace engine_after m_decryptCtx];
    (split; [reflexivity|]); (split; [reflexivity|]); (split; [reflexivity|]);
    exact Hrk.
Qed.

(** Fewer than 16 bytes without the padding flag: the ciphertext-stealing
    calls have no whole block to work on, the final call fails, and
    [Decrypt] returns an empty array. *)
Lemma Decrypt_short_nopad (e : H235CryptoEngine) (ctx : EVP_CIPHER_CTX) (keylen : Z)
  (key data : list byte) (ivSequence : option (list byte)) :
  m_decryptCtx e = Some ctx -> keyed_ctx keylen key ctx -> seq_ok ivSequence ->
  (0 < length data < 16)%nat ->
  exists r ctx',
    Decrypt e data ivSequence false = Returns r
    /\ bytes r = []
    /\ crypt_trace r = [msg_expecting_ciphertext;
                        "H235	EVP_DecryptFinal_cts() failed"%string]
    /\ m_decryptCtx (engine_after r) = Some ctx'
    /\ keyed_ctx keylen key ctx'.
Proof.
  intros He Hk Hs HL.
  pose proof (iv_of_length ivSequence Hs) as Hiv.
  destruct (ready_after_init keylen key ctx (iv_of ivSequence) 0 Hk)
    as (Hbs & Hil & Hbs').
  pose proof (prepare_ctx keylen key ctx (iv_of ivSequence) 0 false Hk Hiv) as Hp.
  cbv iota in Hp.
  pose proof Hk as (_ & _ & HB & HF & _).
  unfold Decrypt. rewrite He. unfold EVP_DecryptInit_ex_iv.
  rewrite Hil. fold (iv_of ivSequence). rewrite Hp.
  change (EVP_CIPHER_CTX_block_size (ready_ctx keylen key 0 (iv_of ivSequence)
            false (buf ctx) (final ctx))) with 16.
  unfold GetSize. rewrite rem_16, Nat.mod_small by lia.
  zrew (Z.of_nat (length data) >? 0) true. cbn [negb andb]. cbv iota.
  unfold EVP_DecryptUpdate_cts, EVP_EncryptUpdate_cts, ready_ctx. rsimpl.
  unfold AES_BLOCK_SIZE. change (16 <=? EVP_MAX_BLOCK_LENGTH) with true.
  zrew (0 + Z.of_nat (length data) <=? 16) true. rsimpl. cbn [obind]. rsimpl.
  unfold EVP_DecryptFinal_cts. rsimpl. change (0 =? 0) with true. rsimpl.
  eexists. eexists. split; [reflexivity|].
  cbn [bytes crypt_trace engine_after m_decryptCtx].
  split; [reflexivity|]. split; [reflexivity|]. split; [reflexivity|].
  unfold keyed_ctx. rsimpl. repeat split; auto.
  rewrite memcpy_length; lia.
Qed.

(** Whole blocks without the padding flag: plain CBC decryption. *)
Lemma Decrypt_blocks_nopad (e : H235CryptoEngine) (ctx : EVP_CIPHER_CTX) (keylen : Z)
  (key data : list byte) (ivSequence : option (list byte)) (n : nat) :
  m_decryptCtx e = Some ctx -> keyed_ctx keylen key ctx -> seq_ok ivSequence ->
  length data = (16 * n)%nat -> (1 <= n)%nat ->
  exists r ctx',
    Decrypt e data ivSequence false = Returns r
    /\ bytes r = fst (cbc128_decrypt key n (iv_of ivSequence) data)
    /\ crypt_trace r = []
    /\ m_decryptCtx (engine_after r) = Some ctx'
    /\ keyed_ctx keylen key ctx'.
Proof.
  intros He Hk Hs HM Hn.
  pose proof (iv_of_length ivSequence Hs) as Hiv.
  destruct (ready_after_init keylen key ctx (iv_of ivSequence) 0 Hk)
    as (Hbs & Hil & Hbs').
  pose proof (prepare_ctx keylen key ctx (iv_of ivSequence) 0 false Hk Hiv) as Hpf.
  cbv iota in Hpf.
  pose proof Hk as (_ & _ & HB & HF & _).
  unfold Decrypt. rewrite He. unfold EVP_DecryptInit_ex_iv.
  rewrite Hil. fold (iv_of ivSequence). rewrite Hpf.
  change (EVP_CIPHER_CTX_block_size (ready_ctx keylen key 0 (iv_of ivSequence) false
            (buf ctx) (final ctx))) with 16.
  unfold GetSize. rewrite rem_16.
  replace (length data mod 16)%nat with 0%nat
    by (rewrite HM, Nat.mul_comm, Nat.Div0.mod_mul; reflexivity).
  cbn [negb andb Z.of_nat]. change (0 >? 0) with false. cbv iota.
  rewrite DecryptUpdate_nopad by lia.
  rewrite (EncryptUpdate_whole keylen key 0 _ false _ _ data _ n) by lia.
  unfold cbc128. change (negb (0 =? 0)) with false. cbv iota.
  cbn [obind]. rsimpl.
  rewrite DecryptFinal_relaxed_nopad by reflexivity.
  cbn [obind]. rsimpl.
  pose proof (cbc128_decrypt_length key n (iv_of ivSequence) data ltac:(lia) Hiv)
    as [Ho Hi1].
  change (Z.of_nat (length data) + 0)
    with (Z.of_nat (length data) + Z.of_nat (length (@nil byte))).
  rewrite assemble by (cbn [length]; lia).
  rewrite Nat2Z.id, firstn_full, app_nil_r by lia.
  eexists. eexists. split; [reflexivity|].
  cbn [bytes crypt_trace engine_after m_decryptCtx].
  split; [reflexivity|]. split; [reflexivity|]. split; [reflexivity|].
  unfold keyed_ctx, ready_ctx. rsimpl. repeat split; auto.
Qed.

(** Any input of whole blocks and a tail, without the padding flag: the
    ciphertext-stealing calls decode all of it. *)
Lemma Decrypt_cts_any (e : H235CryptoEngine) (ctx : EVP_CIPHER_CTX) (keylen : Z)
  (key data : list byte) (ivSequence : option (list byte)) (q r : nat) :
  m_decryptCtx e = Some ctx -> keyed_ctx keylen key ctx -> seq_ok ivSequence ->
  length data = (16 * q + r)%nat -> (1 <= q)%nat -> (0 < r < 16)%nat ->
  exists res ctx',
    Decrypt e data ivSequence false = Returns res
    /\ length (bytes res) = length data
    /\ firstn (16 * (q - 1)) (bytes res)
       = fst (cbc128_decrypt key (q - 1) (iv_of ivSequence) data)
    /\ crypt_trace res = []
    /\ m_decryptCtx (engine_after res) = Some ctx'
    /\ keyed_ctx keylen key ctx'.
Proof.
  intros He Hk Hs HL Hq Hr.
  pose proof (iv_of_length ivSequence Hs) as Hiv.
  destruct (ready_after_init keylen key ctx (iv_of ivSequence) 0 Hk)
    as (Hbs & Hil & Hbs').
  pose proof (prepare_ctx keylen key ctx (iv_of ivSequence) 0 false Hk Hiv) as Hpf.
  cbv iota in Hpf.
  pose proof Hk as (_ & _ & HB & HF & _).
  unfold Decrypt. rewrite He. unfold EVP_DecryptInit_ex_iv.
  rewrite Hil. fold (iv_of ivSequence). rewrite Hpf.
  change (EVP_CIPHER_CTX_block_size (ready_ctx keylen key 0 (iv_of ivSequence) false
            (buf ctx) (final ctx))) with 16.
  unfold GetSize. rewrite rem_16.
  replace (length data mod 16)%nat with r
    by (rewrite HL, Nat.add_comm, Nat.mul_comm, Nat.Div0.mod_add, Nat.mod_small; lia).
  zrew (Z.of_nat r >? 0) true. cbn [negb andb]. cbv iota.
  unfold EVP_DecryptUpdate_cts.
  rewrite (EncryptUpdate_cts_ready keylen key 0 _ false _ _ data q r)
    by (try assumption; lia).
  cbn [obind]. rsimpl.
  pose proof (cbc128_length key 0 (q - 1) (iv_of ivSequence) data ltac:(lia) Hiv)
    as [Hc Hi1].
  match goal with |- context [EVP_DecryptFinal_cts ?x] => set (c1 := x) end.
  assert (Hk1 : keyed_ctx keylen key c1)
    by (subst c1; unfold keyed_ctx; rsimpl; repeat split; auto; len).
  destruct (DecryptFinal_cts_pending c1 16) as (Hret & Houtl & Hol & Htr).
  { reflexivity. }
  { unfold EVP_MAX_BLOCK_LENGTH. lia. }
  { apply aes_cbc_keeps_length. }
  { right. reflexivity. }
  { reflexivity. }
  { subst c1. rsimpl. lia. }
  { subst c1. rsimpl. len. }
  { subst c1. rsimpl. len. }
  pose proof (DecryptFinal_cts_keeps keylen key c1 Hk1 ltac:(subst c1; rsimpl; lia))
    as Hk2.
  set (r2 := EVP_DecryptFinal_cts c1) in *.
  rewrite Hret, Houtl, Htr.
  replace (buf_len c1) with (Z.of_nat r) in * by reflexivity.
  replace (16 + Z.of_nat r) with (Z.of_nat (length (out_bytes r2))) by lia.
  rewrite assemble by lia.
  eexists. eexists. split; [reflexivity|].
  cbn [bytes crypt_trace engine_after m_decryptCtx].
  split; [len|]. split.
  { rewrite Nat2Z.id. rewrite firstn_app_le by len. rewrite firstn_firstn.
    rewrite Nat.min_id. unfold cbc128. change (negb (0 =? 0)) with false. cbv iota.
    apply firstn_full. unfold cbc128 in Hc. cbn in Hc. lia. }
  split; [reflexivity|]. split; [reflexivity | exact Hk2].
Qed.

(** With padding on, [EVP_DecryptUpdate] decrypts the whole blocks of an
    input that ends in a partial block and keeps the rest in [buf]. *)
Lemma DecryptUpdate_pad_partial (keylen : Z) (key ivec B F M : list byte)
  (outl0 : Z) (q r : nat) :
  length M = (16 * q + r)%nat -> (0 < r < 16)%nat -> length B = 32%nat ->
  EVP_DecryptUpdate (ready_ctx keylen key 0 ivec true B F) outl0 M (Z.of_nat (length M))
  = Returns
      (evp 1
         {| cipher := EVP_aes_cbc keylen; encrypt := 0; buf_len := Z.of_nat r;
            oiv := ivec; iv := snd (cbc128 key 0 q ivec M);
            buf := skipn (16 * q) M ++ skipn r B;
            ctx_flags := 0; cipher_data := key; final_used := 0;
            block_mask := 15; final := F |}
         (fst (cbc128 key 0 q ivec M)) (Z.of_nat (16 * q)) []).
Proof.
  intros HM Hr HB.
  assert (Hmod : Z.of_nat (length M) mod 16 = Z.of_nat r).
  { rewrite HM. replace (Z.of_nat (16 * q + r)) with (Z.of_nat r + Z.of_nat q * 16) by lia.
    rewrite Z.mod_add, Z.mod_small by lia. reflexivity. }
  unfold EVP_DecryptUpdate.
  zrew (Z.of_nat (length M) <=? 0) false.
  unfold ready_ctx. rsimpl. unfold AES_BLOCK_SIZE.
  change (Z.land 0 EVP_CIPH_NO_PADDING =? 0) with true.
  change (16 <=? EVP_MAX_BLOCK_LENGTH) with true.
  change (0 =? 0) with true. rsimpl.
  unfold EVP_EncryptUpdate. rsimpl.
  zrew (Z.of_nat (length M) <=? 0) false.
  rewrite land15, Hmod. change (0 =? 0) with true.
  zrew (Z.of_nat r =? 0) false. rsimpl. unfold AES_BLOCK_SIZE.
  change (16 <=? EVP_MAX_BLOCK_LENGTH) with true. rsimpl.
  unfold EVP_EncryptUpdate_blocks. rsimpl. unfold AES_BLOCK_SIZE.
  change (16 - 1) with 15. rewrite land15, Hmod.
  replace (Z.of_nat (length M) - Z.of_nat r) with (Z.of_nat (16 * q)) by lia.
  destruct q as [|q'].
  - change (Z.of_nat (16 * 0)) with 0. change (0 >? 0) with false. rsimpl.
    change (1 =? 0) with false. zrew (Z.of_nat r =? 0) false. rsimpl.
    cbn [obind]. rsimpl. change (1 =? 0) with false.
    change (16 >? 1) with true. zrew (Z.of_nat r =? 0) false. rsimpl.
    rewrite cbc128_0. cbn [fst snd].
    rewrite memcpy_0. change (Z.to_nat 0) with 0%nat. change (skipn 0 M) with M.
    rewrite Nat2Z.id. rewrite firstn_full by lia.
    change (16 * 0)%nat with 0%nat. change (skipn 0 M) with M.
    reflexivity.
  - zrew (Z.of_nat (16 * S q') >? 0) true.
    rewrite (ctx_do_cipher_cbc keylen _ _ _ (S q')) by (try reflexivity; lia).
    rsimpl. change (1 =? 0) with false. rsimpl. zrew (Z.of_nat r =? 0) false.
    rsimpl. cbn [obind]. rsimpl. change (1 =? 0) with false.
    change (16 >? 1) with true. zrew (Z.of_nat r =? 0) false. rsimpl.
    change (1 =? 0) with false. rsimpl.
    rewrite memcpy_0. rewrite !Nat2Z.id.
    rewrite (firstn_full r) by len.
    replace (0 + Z.of_nat (16 * S q')) with (Z.of_nat (16 * S q')) by lia.
    zrew (Z.of_nat r =? 0) false. reflexivity.
Qed.

(** A partial block at the end of an input that is flagged as padded:
    the whole blocks are decrypted, the final call fails. *)
Lemma Decrypt_partial_pad (e : H235CryptoEngine) (ctx : EVP_CIPHER_CTX) (keylen : Z)
  (key data : list byte) (ivSequence : option (list byte)) (q r : nat) :
  m_decryptCtx e = Some ctx -> keyed_ctx keylen key ctx -> seq_ok ivSequence ->
  length data = (16 * q + r)%nat -> (0 < r < 16)%nat ->
  exists res ctx',
    Decrypt e data ivSequence true = Returns res
    /\ bytes res = fst (cbc128_decrypt key q (iv_of ivSequence) data)
    /\ crypt_trace res
       = [msg_wrong_final_block;
          "H235	EVP_DecryptFinal_ex() failed - incorrect padding ?"%string]
    /\ m_decryptCtx (engine_after res) = Some ctx'
    /\ keyed_ctx keylen key ctx'.
Proof.
  intros He Hk Hs HL Hr.
  pose proof (iv_of_length ivSequence Hs) as Hiv.
  destruct (ready_after_init keylen key ctx (iv_of ivSequence) 0 Hk)
    as (Hbs & Hil & Hbs').
  pose proof (prepare_ctx keylen key ctx (iv_of ivSequence) 0 true Hk Hiv) as Hpt.
  cbv iota in Hpt.
  pose proof Hk as (_ & _ & HB & HF & _).
  unfold Decrypt. rewrite He. unfold EVP_DecryptInit_ex_iv.
  rewrite Hil. fold (iv_of ivSequence). rewrite Hpt.
  cbn [negb andb]. cbv iota. unfold GetSize.
  rewrite (DecryptUpdate_pad_partial keylen key _ _ _ data _ q r) by assumption.
  cbn [obind]. rsimpl.
  pose proof (cbc128_length key 0 q (iv_of ivSequence) data ltac:(lia) Hiv)
    as [Hc Hi1].
  unfold EVP_DecryptFinal_relaxed. rsimpl. unfold AES_BLOCK_SIZE.
  change (Z.land 0 EVP_CIPH_NO_PADDING =? 0) with true.
  change (16 >? 1) with true. zrew (Z.of_nat r =? 0) false. rsimpl.
  cbn [obind]. rsimpl.
  change (Z.of_nat (16 * q) + 0)
    with (Z.of_nat (16 * q) + Z.of_nat (length (@nil byte))).
  rewrite assemble by (cbn [length]; lia).
  rewrite Nat2Z.id, firstn_full, app_nil_r by lia.
  eexists. eexists. split; [reflexivity|].
  cbn [bytes crypt_trace engine_after m_decryptCtx].
  split; [reflexivity|]. split; [reflexivity|]. split; [reflexivity|].
  unfold keyed_ctx. rsimpl. repeat split; auto. len.
Qed.

(** Whole blocks flagged as padded: the last byte of the decrypted data
    says how many bytes to drop; when it is not between 1 and 16 the last
    block is dropped altogether and the failure is traced. *)
Lemma Decrypt_blocks_pad (e : H235CryptoEngine) (ctx : EVP_CIPHER_CTX) (keylen : Z)
  (key data : list byte) (ivSequence : option (list byte)) (n : nat) :
  m_decryptCtx e = Some ctx -> keyed_ctx keylen key ctx -> seq_ok ivSequence ->
  length data = (16 * n)%nat -> (1 <= n)%nat ->
  let M := fst (cbc128_decrypt key n (iv_of ivSequence) data) in
  let p := uchar_to_int (nth (16 * n - 1) M Byte.x00) in
  exists res ctx',
    Decrypt e data ivSequence true = Returns res
    /\ (if (1 <=? p) && (p <=? 16)
        then bytes res = firstn (16 * n - Z.to_nat p) M /\ crypt_trace res = []
        else bytes res = firstn (16 * (n - 1)) M
             /\ crypt_trace res
                = [msg_bad_decrypt;
                   "H235	EVP_DecryptFinal_ex() failed - incorrect padding ?"%string])
    /\ m_decryptCtx (engine_after res) = Some ctx'
    /\ keyed_ctx keylen key ctx'.
Proof.
  intros He Hk Hs HL Hn M p.
  pose proof (iv_of_length ivSequence Hs) as Hiv.
  destruct (ready_after_init keylen key ctx (iv_of ivSequence) 0 Hk)
    as (Hbs & Hil & Hbs').
  pose proof (prepare_ctx keylen key ctx (iv_of ivSequence) 0 true Hk Hiv) as Hpt.
  cbv iota in Hpt.
  pose proof Hk as (_ & _ & HB & HF & _).
  pose proof (cbc128_length key 0 n (iv_of ivSequence) data ltac:(lia) Hiv)
    as [Hc Hi1].
  unfold cbc128 in Hc, Hi1. change (negb (0 =? 0)) with false in Hc, Hi1.
  cbv iota in Hc, Hi1. fold M in Hc.
  unfold Decrypt. rewrite He. unfold EVP_DecryptInit_ex_iv.
  rewrite Hil. fold (iv_of ivSequence). rewrite Hpt.
  cbn [negb andb]. cbv iota. unfold GetSize.
  rewrite (DecryptUpdate_pad_whole keylen key _ _ _ data _ n) by assumption.
  unfold cbc128. change (negb (0 =? 0)) with false. cbv iota. fold M.
  cbn [obind]. rsimpl.
  unfold EVP_DecryptFinal_relaxed. rsimpl. unfold AES_BLOCK_SIZE.
  change (Z.land 0 EVP_CIPH_NO_PADDING =? 0) with true.
  change (16 >? 1) with true. change (0 =? 0) with true. change (1 =? 0) with false.
  change (16 <=? EVP_MAX_BLOCK_LENGTH) with true. rsimpl.
  change (Z.to_nat (16 - 1)) with 15%nat.
  assert (Hnth : nth 15 (skipn (16 * (n - 1)) M ++ skipn 16 (final ctx)) Byte.x00
                 = nth (16 * n - 1) M Byte.x00).
  { rewrite app_nth1 by len. rewrite nth_skipn. f_equal. lia. }
  rewrite Hnth. fold p.
  assert (Hp : 0 <= p) by (subst p; unfold uchar_to_int; lia).
  destruct (Z.eqb_spec p 0) as [E0 | E0].
  - (* a last byte of 0 *)
    replace ((1 <=? p) && (p <=? 16)) with false
      by (symmetry; apply andb_false_iff; left; zb).
    rsimpl. cbn [obind]. rsimpl.
    change (Z.of_nat (16 * (n - 1)) + 0)
      with (Z.of_nat (16 * (n - 1)) + Z.of_nat (length (@nil byte))).
    rewrite assemble by (cbn [length]; lia).
    rewrite Nat2Z.id, app_nil_r.
    eexists. eexists. split; [reflexivity|].
    cbn [bytes crypt_trace engine_after m_decryptCtx].
    split; [split; reflexivity|]. split; [reflexivity|].
    unfold keyed_ctx. rsimpl. repeat split; auto. len.
  - destruct (Z.gtb_spec p 16) as [E16 | E16]; rsimpl.
    + (* a last byte above 16 *)
      replace ((1 <=? p) && (p <=? 16)) with false
        by (symmetry; apply andb_false_iff; right; zb).
      cbn [obind]. rsimpl.
      change (Z.of_nat (16 * (n - 1)) + 0)
        with (Z.of_nat (16 * (n - 1)) + Z.of_nat (length (@nil byte))).
      rewrite assemble by (cbn [length]; lia).
      rewrite Nat2Z.id, app_nil_r.
      eexists. eexists. split; [reflexivity|].
      cbn [bytes crypt_trace engine_after m_decryptCtx].
      split; [split; reflexivity|]. split; [reflexivity|].
      unfold keyed_ctx. rsimpl. repeat split; auto. len.
    + (* between 1 and 16 *)
      replace ((1 <=? p) && (p <=? 16)) with true
        by (symmetry; apply andb_true_iff; split; zb).
      cbn [obind]. rsimpl.
      rewrite copy_loop_firstn.
      rewrite (firstn_app_le (Z.to_nat (16 - p))) by len.
      set (o2 := firstn (Z.to_nat (16 - p)) (skipn (16 * (n - 1)) M)).
      assert (Ho2 : length o2 = Z.to_nat (16 - p)) by (subst o2; len).
      replace (16 - p) with (Z.of_nat (length o2)) by lia.
      rewrite assemble by lia.
      rewrite Nat2Z.id.
      eexists. eexists. split; [reflexivity|].
      cbn [bytes crypt_trace engine_after m_decryptCtx].
      split; [split; [|reflexivity]|].
      * subst o2.
        rewrite <- (firstn_skipn (16 * (n - 1)) (firstn (16 * n - Z.to_nat p) M)).
        rewrite firstn_firstn, Nat.min_l by lia. f_equal.
        rewrite skipn_firstn_comm. f_equal. lia.
      * split; [reflexivity|].
        unfold keyed_ctx. rsimpl. repeat split; auto. len.
Qed.

(** [Decrypt] on a keyed engine, whatever it is given: it returns, with no
    more bytes than it took, and its context stays keyed. *)
Lemma Decrypt_any (e : H235CryptoEngine) (ctx : EVP_CIPHER_CTX) (keylen : Z)
  (key data : list byte) (ivSequence : option (list byte)) (rtpPadding : bool) :
  m_decryptCtx e = Some ctx -> keyed_ctx keylen key ctx -> seq_ok ivSequence ->
  exists r ctx',
    Decrypt e data ivSequence rtpPadding = Returns r
    /\ (length (bytes r) <= length data)%nat
    /\ m_decryptCtx (engine_after r) = Some ctx'
    /\ keyed_ctx keylen key ctx'.
Proof.
  intros He Hk Hs.
  pose proof (iv_of_length ivSequence Hs) as Hiv.
  destruct (nat_div_mod_16 (length data)) as [HLq HLr].
  set (q := (length data / 16)%nat) in *. set (r := (length data mod 16)%nat) in *.
  destruct (Nat.eq_dec r 0) as [Hr0 | Hr0].
  - destruct (Nat.eq_dec q 0) as [Hq0 | Hq0].
    + (* nothing *)
      assert (Hd : data = []) by (apply length_zero_iff_nil; lia).
      rewrite Hd.
      destruct (Decrypt_empty e ctx keylen key ivSequence rtpPadding He Hk Hs)
        as (res & ctx' & HD & Hb & _ & Hc & Hk').
      exists res, ctx'. rewrite Hb. cbn [length]. auto.
    + (* whole blocks *)
      destruct rtpPadding.
      * destruct (Decrypt_blocks_pad e ctx keylen key data ivSequence q He Hk Hs
                    ltac:(lia) ltac:(lia))
          as (res & ctx' & HD & Hb & Hc & Hk').
        exists res, ctx'. split; [exact HD|]. split; [|auto].
        destruct (_ && _); destruct Hb as [-> _]; rewrite length_firstn; lia.
      * destruct (Decrypt_blocks_nopad e ctx keylen key data ivSequence q He Hk Hs
                    ltac:(lia) ltac:(lia))
          as (res & ctx' & HD & Hb & _ & Hc & Hk').
        exists res, ctx'. split; [exact HD|]. split; [|auto].
        rewrite Hb.
        rewrite (proj1 (cbc128_decrypt_length key q (iv_of ivSequence) data
                          ltac:(lia) Hiv)). lia.
  - destruct rtpPadding.
    + (* a partial block flagged as padded *)
      destruct (Decrypt_partial_pad e ctx keylen key data ivSequence q r He Hk Hs
                  ltac:(lia) ltac:(lia))
        as (res & ctx' & HD & Hb & _ & Hc & Hk').
      exists res, ctx'. split; [exact HD|]. split; [|auto].
      rewrite Hb.
      rewrite (proj1 (cbc128_decrypt_length key q (iv_of ivSequence) data
                        ltac:(lia) Hiv)). lia.
    + destruct (Nat.eq_dec q 0) as [Hq0 | Hq0].
      * (* less than a block *)
        destruct (Decrypt_short_nopad e ctx keylen key data ivSequence He Hk Hs
                    ltac:(lia))
          as (res & ctx' & HD & Hb & _ & Hc & Hk').
        exists res, ctx'. rewrite Hb. cbn [length]. split; [exact HD|].
        split; [lia | auto].
      * (* ciphertext stealing *)
        destruct (Decrypt_cts_any e ctx keylen key data ivSequence q r He Hk Hs
                    ltac:(lia) ltac:(lia) ltac:(lia))
          as (res & ctx' & HD & Hb & _ & _ & Hc & Hk').
        exists res, ctx'. split; [exact HD|]. split; [lia | auto].
Qed.

Lemma Decrypt_keeps_engine (e : H235CryptoEngine) (keylen : Z)
  (key data : list byte) (ivSequence : option (list byte)) (rtpPadding : bool) :
  keyed_engine keylen key e -> seq_ok ivSequence ->
  exists r,
    Decrypt e data ivSequence rtpPadding = Returns r
    /\ (length (bytes r) <= length data)%nat
    /\ rtpPadding_out r = rtpPadding
    /\ keyed_engine keylen key (engine_after r).
Proof.
  intros (ce & cd & Hce & Hkce & Hcd & Hkcd) Hs.
  destruct (Decrypt_any e cd keylen key data ivSequence rtpPadding Hcd Hkcd Hs)
    as (r & cd' & HD & Hlen & Hcd' & Hkcd').
  destruct (Decrypt_other_fields e data ivSequence rtpPadding r HD)
    as (Hflag & Henc & _).
  exists r. split; [exact HD|]. split; [exact Hlen|]. split; [exact Hflag|].
  exists ce, cd'. rewrite Henc. auto.
Qed.

Lemma Encrypt_keeps_engine (e : H235CryptoEngine) (keylen : Z)
  (key P : list byte) (ivSequence : option (list byte)) :
  keyed_engine keylen key e -> seq_ok ivSequence ->
  exists r,
    Encrypt e P ivSequence = Returns r
    /\ bytes r = expected_ciphertext key (iv_of ivSequence) P
    /\ rtpPadding_out r = (GetSize P <? 16)
    /\ crypt_trace r = []
    /\ keyed_engine keylen key (engine_after r).
Proof.
  intros (ce & cd & Hce & Hkce & Hcd & Hkcd) Hs.
  destruct (Encrypt_keyed e ce keylen key P ivSequence Hce Hkce Hs)
    as (e' & HE & Hd & _).
  destruct (Encrypt_keeps_keyed e ce keylen key P ivSequence Hce Hkce Hs)
    as (r & ce' & HE' & Hce' & Hkce').
  rewrite HE in HE'. injection HE' as <-.
  eexists. split; [exact HE|].
  cbn [bytes rtpPadding_out crypt_trace engine_after] in *.
  split; [reflexivity|]. split; [reflexivity|]. split; [reflexivity|].
  exists ce', cd. rewrite Hd. auto.
Qed.

(** [SetKey] with a supported algorithm keys the engine. *)
Lemma SetKey_keys_engine (oid : string) (keylen : Z) (key : list byte) :
  supported oid keylen ->
  keyed_engine keylen (firstn (Z.to_nat keylen) key) (H235CryptoEngine_new_key oid key).
Proof.
  intros Hsup.
  destruct (SetKey_keyed (H235CryptoEngine_new oid) key keylen Hsup)
    as (ce & cd & HS & Hce & Hcd).
  unfold H235CryptoEngine_new_key. rewrite HS. cbn [fst].
  exists ce, cd. auto.
Qed.

(** X4: on a keyed engine, [Decrypt] without the padding flag of an input
    of 1 to 15 bytes returns an empty array: the ciphertext-stealing final
    call has no whole block and fails, which is only traced. *)
Theorem Decrypt_drops_a_short_ciphertext :
  forall (e : H235CryptoEngine) (keylen : Z) (key data : list byte)
         (ivSequence : option (list byte)),
    keyed_engine keylen key e -> seq_ok ivSequence ->
    (0 < length data < 16)%nat ->
    exists r,
      Decrypt e data ivSequence false = Returns r
      /\ bytes r = []
      /\ crypt_trace r = [msg_expecting_ciphertext;
                          "H235	EVP_DecryptFinal_cts() failed"%string].
Proof.
  intros e keylen key data ivSequence (ce & cd & _ & _ & Hcd & Hkcd) Hs HL.
  destruct (Decrypt_short_nopad e cd keylen key data ivSequence Hcd Hkcd Hs HL)
    as (r & _ & HD & Hb & Ht & _).
  exists r. auto.
Qed.

(** X5: on a keyed engine, [Decrypt] with the padding flag of [n >= 1]
    whole blocks decrypts them in CBC mode and lets the last decrypted
    byte [p] decide: for [1 <= p <= 16] the last [p] bytes are dropped and
    nothing is traced; otherwise the whole last block is dropped and the
    failure is only traced. *)
Theorem Decrypt_strips_what_the_last_byte_says :
  forall (e : H235CryptoEngine) (keylen : Z) (key data : list byte)
         (ivSequence : option (list byte)) (n : nat),
    keyed_engine keylen key e -> seq_ok ivSequence ->
    length data = (16 * n)%nat -> (1 <= n)%nat ->
    let M := fst (cbc128_decrypt key n (iv_of ivSequence) data) in
    let p := uchar_to_int (nth (16 * n - 1) M Byte.x00) in
    exists r,
      Decrypt e data ivSequence true = Returns r
      /\ if (1 <=? p) && (p <=? 16)
         then bytes r = firstn (16 * n - Z.to_nat p) M /\ crypt_trace r = []
         else bytes r = firstn (16 * (n - 1)) M
              /\ crypt_trace r
                 = [msg_bad_decrypt;
                    "H235	EVP_DecryptFinal_ex() failed - incorrect padding ?"%string].
Proof.
  intros e keylen key data ivSequence n (ce & cd & _ & _ & Hcd & Hkcd) Hs HL Hn M p.
  destruct (Decrypt_blocks_pad e cd keylen key data ivSequence n Hcd Hkcd Hs HL Hn)
    as (r & _ & HD & Hb & _).
  exists r. split; [exact HD | exact Hb].
Qed.

(** Without the padding flag, at least one block of anything. *)
Lemma Decrypt_nopad_any_blocks (e : H235CryptoEngine) (keylen : Z)
  (key data : list byte) (ivSequence : option (list byte)) :
  keyed_engine keylen key e -> seq_ok ivSequence ->
  (16 <= length data)%nat ->
  exists r,
    Decrypt e data ivSequence false = Returns r
    /\ length (bytes r) = length data
    /\ crypt_trace r = [].
Proof.
  intros (ce & cd & _ & _ & Hcd & Hkcd) Hs HL.
  pose proof (iv_of_length ivSequence Hs) as Hiv.
  destruct (nat_div_mod_16 (length data)) as [HLq HLr].
  assert (Hq : (1 <= length data / 16)%nat) by (apply Nat.div_le_lower_bound; lia).
  destruct (Nat.eq_dec (length data mod 16) 0) as [Hr0 | Hr0].
  - destruct (Decrypt_blocks_nopad e cd keylen key data ivSequence (length data / 16)
                Hcd Hkcd Hs ltac:(lia) Hq)
      as (r & _ & HD & Hb & Ht & _).
    exists r. split; [exact HD|]. split; [|exact Ht].
    rewrite Hb.
    rewrite (proj1 (cbc128_decrypt_length key (length data / 16) (iv_of ivSequence)
                      data ltac:(lia) Hiv)). lia.
  - destruct (Decrypt_cts_any e cd keylen key data ivSequence (length data / 16)
                (length data mod 16) Hcd Hkcd Hs HLq Hq ltac:(lia))
      as (r & _ & HD & Hb & _ & Ht & _).
    exists r. auto.
Qed.

(** X6: on a keyed engine, [Decrypt] without the padding flag takes any
    input of at least 16 bytes as a ciphertext: it returns as many bytes
    as it was given and traces nothing. *)
Theorem Decrypt_accepts_any_ciphertext :
  forall (e : H235CryptoEngine) (keylen : Z) (key data : list byte)
         (ivSequence : option (list byte)),
    keyed_engine keylen key e -> seq_ok ivSequence ->
    (16 <= length data)%nat ->
    exists r,
      Decrypt e data ivSequence false = Returns r
      /\ length (bytes r) = length data
      /\ crypt_trace r = [].
Proof.
  intros e keylen key data ivSequence Hk Hs HL.
  exact (Decrypt_nopad_any_blocks e keylen key data ivSequence Hk Hs HL).
Qed.

(** X7: a partial block at the end of an input flagged as padded: on a
    keyed engine [Decrypt] returns the CBC decryption of the whole blocks,
    leaves the rest out, and only traces that the final block is wrong. *)
Theorem Decrypt_leaves_out_a_partial_block :
  forall (e : H235CryptoEngine) (keylen : Z) (key data : list byte)
         (ivSequence : option (list byte)),
    keyed_engine keylen key e -> seq_ok ivSequence ->
    (length data mod 16 <> 0)%nat ->
    exists r,
      Decrypt e data ivSequence true = Returns r
      /\ bytes r = fst (cbc128_decrypt key (length data / 16) (iv_of ivSequence) data)
      /\ length (bytes r) = (16 * (length data / 16))%nat
      /\ crypt_trace r
         = [msg_wrong_final_block;
            "H235	EVP_DecryptFinal_ex() failed - incorrect padding ?"%string].
Proof.
  intros e keylen key data ivSequence (ce & cd & _ & _ & Hcd & Hkcd) Hs Hr.
  pose proof (iv_of_length ivSequence Hs) as Hiv.
  destruct (nat_div_mod_16 (length data)) as [HLq HLr].
  destruct (Decrypt_partial_pad e cd keylen key data ivSequence (length data / 16)
              (length data mod 16) Hcd Hkcd Hs HLq ltac:(lia))
    as (r & _ & HD & Hb & Ht & _).
  exists r. split; [exact HD|]. split; [exact Hb|]. split; [|exact Ht].
  rewrite Hb.
  apply (cbc128_decrypt_length key (length data / 16) (iv_of ivSequence) data);
    [lia | exact Hiv].
Qed.

(** X8: an empty input on a keyed engine gives an empty array; with the
    padding flag the missing final block is traced, without it nothing
    is. *)
Theorem Decrypt_of_nothing :
  forall (e : H235CryptoEngine) (keylen : Z) (key : list byte)
         (ivSequence : option (list byte)) (rtpPadding : bool),
    keyed_engine keylen key e -> seq_ok ivSequence ->
    exists r,
      Decrypt e [] ivSequence rtpPadding = Returns r
      /\ bytes r = []
      /\ crypt_trace r
         = if rtpPadding
           then [msg_wrong_final_block;
                 "H235	EVP_DecryptFinal_ex() failed - incorrect padding ?"%string]
           else [].
Proof.
  intros e keylen key ivSequence rtpPadding (ce & cd & _ & _ & Hcd & Hkcd) Hs.
  destruct (Decrypt_empty e cd keylen key ivSequence rtpPadding Hcd Hkcd Hs)
    as (r & _ & HD & Hb & Ht & _).
  exists r. auto.
Qed.

(** X9: on a keyed engine [Decrypt] returns for every input and either
    padding flag, never with more bytes than it was given, hands the flag
    back unchanged, and leaves the engine keyed with the same key. *)
Theorem Decrypt_never_grows_and_stays_keyed :
  forall (e : H235CryptoEngine) (keylen : Z) (key data : list byte)
         (ivSequence : option (list byte)) (rtpPadding : bool),
    keyed_engine keylen key e -> seq_ok ivSequence ->
    exists r,
      Decrypt e data ivSequence rtpPadding = Returns r
      /\ (length (bytes r) <= length data)%nat
      /\ rtpPadding_out r = rtpPadding
      /\ keyed_engine keylen key (engine_after r).
Proof.
  intros e keylen key data ivSequence rtpPadding Hk Hs.
  exact (Decrypt_keeps_engine e keylen key data ivSequence rtpPadding Hk Hs).
Qed.

(** X10: [Encrypt] leaves a keyed engine keyed with the same key, and
    what it returns does not depend on what the engine encrypted before:
    after any [Encrypt], a second one gives the bytes and the flag it
    gives on the engine as it was. *)
Theorem Encrypt_ignores_earlier_calls :
  forall (e : H235CryptoEngine) (keylen : Z) (key P P' : list byte)
         (ivSequence ivSequence' : option (list byte)),
    keyed_engine keylen key e -> seq_ok ivSequence -> seq_ok ivSequence' ->
    exists r r1 r2,
      Encrypt e P ivSequence = Returns r
      /\ keyed_engine keylen key (engine_after r)
      /\ Encrypt (engine_after r) P' ivSequence' = Returns r1
      /\ Encrypt e P' ivSequence' = Returns r2
      /\ bytes r1 = bytes r2
      /\ rtpPadding_out r1 = rtpPadding_out r2.
Proof.
  intros e keylen key P P' s s' Hk Hs Hs'.
  destruct (Encrypt_keeps_engine e keylen key P s Hk Hs)
    as (r & HE & _ & _ & _ & Hk').
  destruct (Encrypt_keeps_engine (engine_after r) keylen key P' s' Hk' Hs')
    as (r1 & HE1 & Hb1 & Hf1 & _).
  destruct (Encrypt_keeps_engine e keylen key P' s' Hk Hs')
    as (r2 & HE2 & Hb2 & Hf2 & _).
  exists r, r1, r2. rewrite Hb1, Hb2, Hf1, Hf2. auto 10.
Qed.

(** *** Sessions that hold the media key *)

(** X11: a session whose media engine is keyed takes any frame in
    [ReadFrame]: the call returns [true] whatever [Decrypt] traced, the
    payload does not grow, the padding bit stays as it came, and the
    session can read on. *)
Theorem ReadFrame_takes_any_frame :
  forall (s : H235Session) (keylen : Z) (key : list byte) (frame : RTP_DataFrame),
    keyed_engine keylen key (m_context s) ->
    exists s2 f2,
      ReadFrame s frame = Returns (true, s2, f2)
      /\ (length (payload f2) <= length (payload frame))%nat
      /\ padding f2 = padding frame
      /\ keyed_engine keylen key (m_context s2).
Proof.
  intros s keylen key frame Hk.
  destruct (Decrypt_keeps_engine (m_context s) keylen key (payload frame) None
              (padding frame) Hk I)
    as (r & HD & Hlen & _ & Hk').
  unfold ReadFrame. rewrite HD. cbn [obind].
  eexists. eexists. split; [reflexivity|].
  cbn [payload padding m_context set_m_context]. auto.
Qed.

(** X12: between two sessions whose media engines hold the same key, a
    frame whose padding bit says whether the payload is shorter than a
    block comes back from [ReadFrame] as it went into [WriteFrame], and
    both sessions stay keyed, so the next frame does too. *)
Theorem frames_round_trip_and_sessions_stay_keyed :
  forall (m s : H235Session) (keylen : Z) (key : list byte) (frame : RTP_DataFrame),
    keyed_engine keylen key (m_context m) ->
    keyed_engine keylen key (m_context s) ->
    padding frame = (GetSize (payload frame) <? 16) ->
    exists m2 s2 f1 f2,
      WriteFrame m frame = Returns (true, m2, f1)
      /\ ReadFrame s f1 = Returns (true, s2, f2)
      /\ payload f2 = payload frame
      /\ keyed_engine keylen key (m_context m2)
      /\ keyed_engine keylen key (m_context s2).
Proof.
  intros m s keylen key frame Hm Hs Hpad.
  destruct (Encrypt_keeps_engine (m_context m) keylen key (payload frame) None Hm I)
    as (r & HE & Hb & _ & _ & Hm').
  destruct (Decrypt_keeps_engine (m_context s) keylen key (bytes r) None
              (padding frame) Hs I)
    as (r' & HD & _ & _ & Hs').
  destruct Hs as (ce & cd & _ & _ & Hcd & Hkcd).
  destruct (Decrypt_keyed (m_context s) cd keylen key (payload frame) None Hcd Hkcd I)
    as (e' & HD' & _).
  rewrite <- Hb, <- Hpad, HD in HD'. injection HD' as HD'.
  unfold WriteFrame. rewrite HE. cbn [obind].
  eexists. eexists. eexists. eexists. split; [reflexivity|].
  unfold ReadFrame. cbn [payload padding]. rewrite HD. cbn [obind].
  split; [reflexivity|].
  cbn [payload m_context set_m_context].
  split; [rewrite HD'; reflexivity|]. split; assumption.
Qed.

(** X13: [WriteFrame] passes no sequence value to [Encrypt]: on a keyed
    session every frame is encrypted under the IV of 16 zero bytes,
    wherever it comes in the stream.  So two frames with the same payload
    leave [WriteFrame] with the same payload, whatever the two sessions
    that hold the key have written before; the padding bit of the frame
    is left as it was. *)
Theorem WriteFrame_uses_the_zero_IV :
  forall (s s' : H235Session) (keylen : Z) (key : list byte)
         (f g : RTP_DataFrame),
    keyed_engine keylen key (m_context s) ->
    keyed_engine keylen key (m_context s') ->
    payload g = payload f ->
    exists s2 f1 s2' g1,
      WriteFrame s f = Returns (true, s2, f1)
      /\ WriteFrame s' g = Returns (true, s2', g1)
      /\ payload f1 = expected_ciphertext key (repeat Byte.x00 16) (payload f)
      /\ payload g1 = payload f1
      /\ padding f1 = padding f
      /\ keyed_engine keylen key (m_context s2).
Proof.
  intros s s' keylen key f g Hk Hk' Hfg.
  destruct (Encrypt_keeps_engine (m_context s) keylen key (payload f) None Hk I)
    as (r & HE & Hb & _ & _ & Hk2).
  destruct (Encrypt_keeps_engine (m_context s') keylen key (payload g) None Hk' I)
    as (r' & HE' & Hb' & _).
  unfold WriteFrame. rewrite HE, HE'. cbn [obind].
  eexists. eexists. eexists. eexists.
  split; [reflexivity|]. split; [reflexivity|].
  cbn [payload padding m_context set_m_context].
  split; [exact Hb|]. split; [rewrite Hb, Hb', Hfg; reflexivity|].
  split; [reflexivity | exact Hk2].
Qed.

(** X14: the key transport of a supported algorithm, with a
    Diffie-Hellman secret that has the bytes of a key: the master's media
    key is the [keylen] bytes drawn by [RAND_bytes], the encoded key has
    the same length, and after [DecodeMediaKey] the media engines of both
    sessions are keyed with it. *)
Theorem handshake_keys_both_sessions :
  forall (dh : H235_DiffieHellman) (oid : string) (keylen : Z)
         (rnd rnd' : list byte),
    supported oid keylen ->
    (Z.to_nat keylen <= length (ComputeSessionKey dh))%nat ->
    let master := snd (CreateSession (H235Session_new dh oid) true rnd) in
    let slave := snd (CreateSession (H235Session_new dh oid) false rnd') in
    let mk := RAND_bytes rnd keylen in
    exists ek master' slave',
      EncodeMediaKey master = Returns (ek, master')
      /\ DecodeMediaKey slave ek = Returns slave'
      /\ length ek = Z.to_nat keylen
      /\ m_crytoMasterKey master' = mk
      /\ m_crytoMasterKey slave' = mk
      /\ keyed_engine keylen mk (m_context master')
      /\ keyed_engine keylen mk (m_context slave').
Proof.
  intros dh oid keylen rnd rnd' Hsup _ master slave mk.
  set (dk := firstn (Z.to_nat keylen) (ComputeSessionKey dh)).
  assert (Hkl : keylen = 16 \/ keylen = 24 \/ keylen = 32)
    by (exact (supported_keylen _ _ Hsup)).
  assert (Hmk : length mk = Z.to_nat keylen)
    by (apply RAND_bytes_length; lia).
  assert (Hmk16 : (GetSize mk <? 16) = false)
    by (unfold GetSize; rewrite Hmk; apply Z.ltb_ge; lia).
  destruct (SetKey_keyed (H235CryptoEngine_new oid) (ComputeSessionKey dh) keylen Hsup)
    as (ce & cd & HSdh & Hce & Hcd). fold dk in Hce, Hcd.
  destruct (GenerateRandomKey_supported (H235CryptoEngine_new oid) rnd keylen Hsup)
    as (me & md & HG & Hme & Hmd). fold mk in HG, Hme, Hmd.
  destruct (SetKey_keyed (H235CryptoEngine_new oid) mk keylen Hsup)
    as (se & sd & HSm & Hse & Hsd).
  rewrite firstn_full in Hse, Hsd by lia.
  cbn [m_algorithmOID H235CryptoEngine_new] in HSdh, HG, HSm.
  assert (Hmaster : master
          = {| m_dh := dh;
               m_context := {| m_algorithmOID := oid; m_encryptCtx := Some me;
                               m_decryptCtx := Some md |};
               m_dhcontext := {| m_algorithmOID := oid; m_encryptCtx := Some ce;
                                 m_decryptCtx := Some cd |};
               m_isInitialised := true; m_isMaster := true;
               m_dhSessionkey := ComputeSessionKey dh;
               m_crytoMasterKey := mk |}).
  { subst master. unfold CreateSession, H235Session_new.
    cbn [m_dh m_context m_dhcontext m_isMaster m_crytoMasterKey].
    rewrite HSdh, HG. reflexivity. }
  assert (Hslave : slave
          = {| m_dh := dh;
               m_context := H235CryptoEngine_new oid;
               m_dhcontext := {| m_algorithmOID := oid; m_encryptCtx := Some ce;
                                 m_decryptCtx := Some cd |};
               m_isInitialised := true; m_isMaster := false;
               m_dhSessionkey := ComputeSessionKey dh;
               m_crytoMasterKey := PBYTEArray_new 0 |}).
  { subst slave. unfold CreateSession, H235Session_new.
    cbn [m_dh m_context m_dhcontext m_isMaster m_crytoMasterKey].
    rewrite HSdh. reflexivity. }
  rewrite Hmaster, Hslave. clear Hmaster Hslave master slave.
  destruct (Encrypt_keyed {| m_algorithmOID := oid; m_encryptCtx := Some ce;
                             m_decryptCtx := Some cd |}
              ce keylen dk mk None eq_refl Hce I) as (e1 & HE & Hd1 & _).
  cbn [m_decryptCtx] in Hd1.
  destruct (Decrypt_keyed {| m_algorithmOID := oid; m_encryptCtx := Some ce;
                             m_decryptCtx := Some cd |}
              cd keylen dk mk None eq_refl Hcd I) as (e2 & HD & _).
  rewrite Hmk16 in HE, HD.
  pose proof (expected_ciphertext_length dk (iv_of None) mk (iv_of_length None I))
    as Hek.
  replace (length mk <? 16)%nat with false in Hek
    by (symmetry; apply Nat.ltb_ge; lia).
  unfold EncodeMediaKey, DecodeMediaKey, set_m_dhcontext, set_m_crytoMasterKey,
    set_m_context.
  cbn [m_dh m_context m_dhcontext m_isInitialised m_isMaster m_dhSessionkey
       m_crytoMasterKey].
  rewrite HE. cbn [obind bytes engine_after].
  eexists. eexists. eexists. split; [reflexivity|].
  rewrite HD. cbn [obind bytes engine_after m_crytoMasterKey m_context].
  rewrite HSm. cbn [fst].
  split; [reflexivity|]. split; [rewrite Hek; exact Hmk|].
  split; [reflexivity|]. split; [reflexivity|].
  cbn [m_context]. split.
  - exists me, md. auto.
  - exists se, sd. auto.
Qed.

(** X15: [DecodeMediaKey] checks nothing about the key it is handed: on
    a session whose key-transport engine is keyed, any array that has at
    least the bytes of a key is decoded into a media key of the same
    length as the array, and the media engine is keyed with the first
    [keylen] bytes of it. *)
Theorem DecodeMediaKey_takes_any_key :
  forall (s : H235Session) (keylen : Z) (dk ek : list byte),
    keyed_engine keylen dk (m_dhcontext s) ->
    supported (m_algorithmOID (m_context s)) keylen ->
    (Z.to_nat keylen <= length ek)%nat ->
    exists s',
      DecodeMediaKey s ek = Returns s'
      /\ length (m_crytoMasterKey s') = length ek
      /\ keyed_engine keylen (firstn (Z.to_nat keylen) (m_crytoMasterKey s'))
           (m_context s').
Proof.
  intros s keylen dk ek Hk Hsup HL.
  assert (Hkl : keylen = 16 \/ keylen = 24 \/ keylen = 32)
    by (exact (supported_keylen _ _ Hsup)).
  destruct (Decrypt_nopad_any_blocks (m_dhcontext s) keylen dk ek None Hk I
              ltac:(lia))
    as (r & HD & Hb & _).
  destruct (SetKey_keyed (m_context s) (bytes r) keylen Hsup)
    as (ce & cd & HS & Hce & Hcd).
  unfold DecodeMediaKey. rewrite HD. cbn [obind].
  unfold set_m_context, set_m_crytoMasterKey, set_m_dhcontext.
  cbn [m_crytoMasterKey m_context]. rewrite HS. cbn [fst].
  eexists. split; [reflexivity|].
  cbn [m_crytoMasterKey m_context].
  split; [exact Hb|]. exists ce, cd. auto.
Qed.

(** *** Sessions without a media key *)

(** X16: a session passes frames straight to its media engine: before
    [CreateSession], and on the slave's side after [CreateSession] until
    [DecodeMediaKey] has run, that engine has no cipher context, and
    [WriteFrame] and [ReadFrame] work on uninitialised contexts, whatever
    the algorithm; [CreateSession] has returned [true] all the same.  The
    Diffie-Hellman secret has the bytes of a key. *)
Theorem frames_before_the_media_key :
  forall (dh : H235_DiffieHellman) (oid : string) (rnd : list byte)
         (frame : RTP_DataFrame),
    (forall keylen : Z,
        supported oid keylen ->
        (Z.to_nat keylen <= length (ComputeSessionKey dh))%nat) ->
    let fresh := H235Session_new dh oid in
    let slave := snd (CreateSession fresh false rnd) in
    WriteFrame fresh frame = Undefined /\ ReadFrame fresh frame = Undefined
    /\ EncodeMediaKey fresh = Undefined
    /\ fst (CreateSession fresh false rnd) = true
    /\ IsInitialised slave = true
    /\ WriteFrame slave frame = Undefined /\ ReadFrame slave frame = Undefined.
Proof.
  intros dh oid rnd frame _ fresh slave.
  repeat split.
Qed.

(** X17: with an algorithm [SetKey] does not know, [CreateSession] still
    returns [true] and marks the session initialised; the master's media
    key is empty, and every call that encrypts or decrypts works on an
    uninitialised context. *)
Theorem session_of_an_unsupported_algorithm :
  forall (dh : H235_DiffieHellman) (oid : string) (isMaster : bool)
         (rnd key : list byte) (frame : RTP_DataFrame),
    select_cipher oid = None ->
    let s := snd (CreateSession (H235Session_new dh oid) isMaster rnd) in
    fst (CreateSession (H235Session_new dh oid) isMaster rnd) = true
    /\ IsInitialised s = true /\ IsActive s = false
    /\ m_crytoMasterKey s = []
    /\ EncodeMediaKey s = Undefined /\ DecodeMediaKey s key = Undefined
    /\ WriteFrame s frame = Undefined /\ ReadFrame s frame = Undefined.
Proof.
  intros dh oid isMaster rnd key frame Hnone s.
  assert (HS : forall k, SetKey (H235CryptoEngine_new oid) k
                         = (H235CryptoEngine_new oid,
                            [("Unsupported algorithm " ++ oid)%string])).
  { intros k. unfold SetKey. cbn [m_algorithmOID H235CryptoEngine_new].
    rewrite Hnone. reflexivity. }
  assert (HG : GenerateRandomKey_oid (H235CryptoEngine_new oid) oid rnd
               = ([], [("Unsupported algorithm " ++ oid)%string])).
  { unfold select_cipher in Hnone. unfold GenerateRandomKey_oid.
    cbn [m_algorithmOID H235CryptoEngine_new].
    destruct (String.eqb oid OID_AES128); [discriminate|].
    destruct (String.eqb oid OID_AES192); [discriminate|].
    destruct (H323_H235_AES256 && String.eqb oid OID_AES256); [discriminate|].
    reflexivity. }
  assert (Hs : s = {| m_dh := dh;
                      m_context := H235CryptoEngine_new oid;
                      m_dhcontext := H235CryptoEngine_new oid;
                      m_isInitialised := true; m_isMaster := isMaster;
                      m_dhSessionkey := ComputeSessionKey dh;
                      m_crytoMasterKey := [] |}).
  { subst s. unfold CreateSession, H235Session_new.
    cbn [m_dh m_context m_dhcontext m_isMaster m_crytoMasterKey].
    rewrite HS. cbn [fst].
    destruct isMaster.
    - unfold GenerateRandomKey. cbn [m_algorithmOID H235CryptoEngine_new].
      rewrite HG, HS. reflexivity.
    - reflexivity. }
  split.
  { unfold CreateSession. cbn [m_isMaster]. destruct isMaster.
    - destruct (GenerateRandomKey _ _) as [[k e'] t]. reflexivity.
    - reflexivity. }
  rewrite Hs. repeat split.
Qed.

(** *** Keys *)

(** X18: [GenerateRandomKey] on an engine of a supported algorithm draws
    a key of the algorithm's key length, returns it and keys the engine
    with it, tracing nothing; with any other algorithm it returns an
    empty key, leaves the engine as it is, and traces the algorithm
    twice, once for the key and once for [SetKey]. *)
Theorem GenerateRandomKey_keys_the_engine :
  forall (e : H235CryptoEngine) (rnd : list byte),
    (forall keylen : Z,
        supported (m_algorithmOID e) keylen ->
        exists e',
          GenerateRandomKey e rnd = (RAND_bytes rnd keylen, e', [])
          /\ GetSize (RAND_bytes rnd keylen) = keylen
          /\ keyed_engine keylen (RAND_bytes rnd keylen) e')
    /\ (select_cipher (m_algorithmOID e) = None ->
        GenerateRandomKey e rnd
        = ([], e, [("Unsupported algorithm " ++ m_algorithmOID e)%string;
                   ("Unsupported algorithm " ++ m_algorithmOID e)%string])).
Proof.
  intros e rnd. split.
  - intros keylen Hsup.
    destruct (GenerateRandomKey_supported e rnd keylen Hsup)
      as (ce & cd & HG & Hce & Hcd).
    eexists. split; [exact HG|]. split.
    + unfold GetSize. rewrite RAND_bytes_length;
        destruct (supported_keylen _ _ Hsup) as [-> | [-> | ->]]; lia.
    + exists ce, cd. auto.
  - intros Hnone. unfold GenerateRandomKey, GenerateRandomKey_oid, SetKey.
    rewrite Hnone. unfold select_cipher in Hnone.
    destruct (String.eqb (m_algorithmOID e) OID_AES128); [discriminate|].
    destruct (String.eqb (m_algorithmOID e) OID_AES192); [discriminate|].
    destruct (H323_H235_AES256 && String.eqb (m_algorithmOID e) OID_AES256);
      [discriminate|].
    reflexivity.
Qed.

(** X19: [GenerateRandomKey(algorithmOID)] compares its argument with
    AES128 only; the other two comparisons read the engine's own
    algorithm.  So on an AES192 engine every argument other than AES128
    gets a 24-byte key, and on an AES128 engine every argument other than
    AES128, AES192 included, gets an empty key and is traced as
    unsupported. *)
Theorem GenerateRandomKey_oid_answers_for_the_engine :
  forall (e : H235CryptoEngine) (algorithmOID : string) (rnd : list byte),
    algorithmOID <> OID_AES128 ->
    (m_algorithmOID e = OID_AES192 ->
     GenerateRandomKey_oid e algorithmOID rnd = (RAND_bytes rnd 24, [])
     /\ GetSize (RAND_bytes rnd 24) = 24)
    /\ (m_algorithmOID e = OID_AES128 ->
        GenerateRandomKey_oid e algorithmOID rnd
        = ([], [("Unsupported algorithm " ++ algorithmOID)%string])).
Proof.
  intros e oid rnd Hne.
  apply String.eqb_neq in Hne.
  unfold GenerateRandomKey_oid. rewrite Hne. split.
  - intros ->. split; [reflexivity|].
    unfold GetSize. rewrite RAND_bytes_length; lia.
  - intros ->. change (String.eqb OID_AES128 OID_AES192) with false.
    change (String.eqb OID_AES128 OID_AES256) with false.
    rewrite andb_false_r. reflexivity.
Qed.

(** X20: [Decrypt] inverts [Encrypt] at every length: between two engines
    keyed alike, for every plaintext, the empty one included, and every
    sequence value, [Encrypt] returns 16 bytes for a plaintext shorter
    than a block and as many bytes as the plaintext otherwise, and
    [Decrypt] with the flag [Encrypt] produced returns the plaintext;
    neither traces anything. *)
Theorem Decrypt_inverts_Encrypt_at_every_length :
  forall (e1 e2 : H235CryptoEngine) (keylen : Z) (key P : list byte)
         (ivSequence : option (list byte)),
    keyed_engine keylen key e1 -> keyed_engine keylen key e2 ->
    seq_ok ivSequence ->
    exists r r',
      Encrypt e1 P ivSequence = Returns r
      /\ rtpPadding_out r = (GetSize P <? 16)
      /\ length (bytes r) = (if GetSize P <? 16 then 16%nat else length P)
      /\ crypt_trace r = []
      /\ Decrypt e2 (bytes r) ivSequence (rtpPadding_out r) = Returns r'
      /\ bytes r' = P /\ crypt_trace r' = [].
Proof.
  intros e1 e2 keylen key P s (ce & _ & Hce & Hkce & _) (_ & cd & _ & _ & Hcd & Hkcd) Hs.
  destruct (Encrypt_Decrypt e1 e2 ce cd keylen key P s Hce Hkce Hcd Hkcd Hs)
    as (r & r' & H1 & H2 & H3 & H4 & _ & H5 & H6 & H7).
  exists r, r'. auto 10.
Qed.

(** *** What [Encrypt] computes *)

Lemma cbc128_encrypt_app (key : list byte) (n m : nat) :
  forall ivec input,
    cbc128_encrypt key (n + m) ivec input
    = (fst (cbc128_encrypt key n ivec input)
         ++ fst (cbc128_encrypt key m (snd (cbc128_encrypt key n ivec input))
                   (skipn (16 * n) input)),
       snd (cbc128_encrypt key m (snd (cbc128_encrypt key n ivec input))
              (skipn (16 * n) input))).
Proof.
  induction n as [|n IH]; intros ivec input.
  - cbn [Nat.add cbc128_encrypt fst snd app]. change (16 * 0)%nat with 0%nat.
    cbn [skipn]. destruct (cbc128_encrypt key m ivec input); reflexivity.
  - cbn [Nat.add cbc128_encrypt].
    rewrite IH.
    destruct (cbc128_encrypt key n _ (skipn 16 input)) as [c1 iv1]. cbn [fst snd].
    rewrite skipn_skipn.
    replace (16 * n + 16)%nat with (16 * S n)%nat by lia.
    rewrite app_assoc. reflexivity.
Qed.

(** X21: what [Encrypt] returns on a keyed engine, in terms of CBC
    encryption under the derived IV.  Below 16 bytes: the CBC encryption
    of the plaintext padded to one block with bytes of value [16 - L].
    A multiple of 16: the CBC encryption of the plaintext, nothing added.
    Otherwise, with [q] whole blocks and [r] more bytes: the CBC
    encryption of the plaintext filled up with zero bytes, with its last
    two blocks swapped and the block that now comes last cut to [r]
    bytes. *)
Theorem Encrypt_is_CBC_with_stealing :
  forall (e : H235CryptoEngine) (keylen : Z) (key P : list byte)
         (ivSequence : option (list byte)),
    keyed_engine keylen key e -> seq_ok ivSequence ->
    let L := length P in
    let q := (L / 16)%nat in
    let r := (L mod 16)%nat in
    let ivec := iv_of ivSequence in
    exists res,
      Encrypt e P ivSequence = Returns res
      /\ bytes res
         = if (L <? 16)%nat then fst (cbc128_encrypt key 1 ivec (padded_block P))
           else if (r =? 0)%nat then fst (cbc128_encrypt key q ivec P)
           else
             let C := fst (cbc128_encrypt key (q + 1) ivec
                             (P ++ repeat Byte.x00 (16 - r))) in
             firstn (16 * (q - 1)) C ++ skipn (16 * q) C
               ++ firstn r (skipn (16 * (q - 1)) C).
Proof.
  intros e keylen key P s Hk Hs L q r ivec.
  destruct (Encrypt_keeps_engine e keylen key P s Hk Hs) as (res & HE & Hb & _).
  exists res. split; [exact HE|]. rewrite Hb. clear HE Hb res.
  pose proof (iv_of_length s Hs) as Hiv. fold ivec in Hiv.
  unfold expected_ciphertext. fold L ivec q r.
  destruct (L <? 16)%nat eqn:E1; [reflexivity|].
  destruct (r =? 0)%nat eqn:E2; [reflexivity|].
  apply Nat.ltb_ge in E1. apply Nat.eqb_neq in E2.
  destruct (nat_div_mod_16 L) as [HLq HLr]. fold q r in HLq, HLr.
  assert (Hq : (1 <= q)%nat) by (apply Nat.div_le_lower_bound; lia).
  set (Z0 := repeat Byte.x00 (16 - r)).
  assert (HZ0 : length Z0 = (16 - r)%nat) by (subst Z0; len).
  replace (q + 1)%nat with ((q - 1) + 2)%nat by lia.
  rewrite cbc128_encrypt_app.
  rewrite <- (cbc128_encrypt_firstn key (q - 1) ivec (P ++ Z0) (16 * (q - 1)))
    by lia.
  rewrite (firstn_app_le (16 * (q - 1)) P Z0) by (fold L; lia).
  rewrite (cbc128_encrypt_firstn key (q - 1) ivec P (16 * (q - 1))) by lia.
  pose proof (cbc128_encrypt_length key (q - 1) ivec P ltac:(fold L; lia) Hiv)
    as [Hc Hi1].
  destruct (cbc128_encrypt key (q - 1) ivec P) as [c iv1]. cbn [fst snd] in *.
  cbn [cbc128_encrypt fst snd]. rewrite !app_nil_r.
  set (blk := firstn 16 (skipn (16 * (q - 1)) P)).
  assert (Hblk : firstn 16 (skipn (16 * (q - 1)) (P ++ Z0)) = blk).
  { subst blk. rewrite skipn_app, firstn_app_le by (rewrite length_skipn; fold L; lia).
    reflexivity. }
  rewrite Hblk.
  set (T := AES_encrypt key (xor_loop 16 blk iv1)).
  assert (HT : length T = 16%nat)
    by (apply AES_encrypt_length; rewrite xor_loop_length; subst blk; fold L; len).
  assert (Htl : firstn 16 (skipn 16 (skipn (16 * (q - 1)) (P ++ Z0)))
                = skipn (16 * q) P ++ Z0).
  { rewrite skipn_skipn. replace (16 + 16 * (q - 1))%nat with (16 * q)%nat by lia.
    rewrite skipn_app.
    replace (16 * q - length P)%nat with 0%nat by (fold L; lia).
    cbn [skipn]. apply firstn_full. rewrite length_app, length_skipn. fold L. lia. }
  rewrite Htl.
  set (X := AES_encrypt key (xor_loop 16 (skipn (16 * q) P ++ Z0) T)).
  assert (HX : length X = 16%nat).
  { apply AES_encrypt_length. rewrite xor_loop_length, length_app, length_skipn.
    fold L. lia. }
  rewrite (firstn_app_l (16 * (q - 1)) c) by lia.
  rewrite (skipn_app_ge (16 * q) c) by lia.
  replace (16 * q - length c)%nat with 16%nat by lia.
  rewrite (skipn_app_l 16 T) by lia.
  rewrite (skipn_app_l (16 * (q - 1)) c) by lia.
  rewrite (firstn_app_le r T) by lia.
  reflexivity.
Qed.

End Engine.

(* ================================================================== *)
(** ** The properties at concrete inputs

    The toy block transform has what the properties use of AES, so they
    can be run with it. *)

Lemma toy_encrypt_length (key block : list byte) :
  length block = 16%nat -> length (toy_encrypt key block) = 16%nat.
Proof.
  intros H. unfold toy_encrypt. rewrite length_rev, length_map. exact H.
Qed.

Lemma toy_decrypt_length (key block : list byte) :
  length block = 16%nat -> length (toy_decrypt key block) = 16%nat.
Proof.
  intros H. unfold toy_decrypt. rewrite length_map, length_rev. exact H.
Qed.

Lemma toy_decrypt_encrypt (key block : list byte) :
  length block = 16%nat -> toy_decrypt key (toy_encrypt key block) = block.
Proof.
  intros _. unfold toy_decrypt, toy_encrypt.
  rewrite rev_involutive, map_map.
  rewrite <- (map_id block) at 2. apply map_ext.
  intros b. apply byte_xor_cancel.
Qed.

Lemma C1_roundtrip_17_bytes :
  supported true OID_AES128 16
  /\ exists r r',
       Encrypt (H235CryptoEngine_new_key toy_encrypt toy_decrypt true OID_AES128 key_128) (repeat Byte.x41 17)
               (Some seq_0001AABBCCDD) = Returns r
       /\ Decrypt (engine_after r) (bytes r) (Some seq_0001AABBCCDD)
                  (rtpPadding_out r) = Returns r'
       /\ bytes r' = repeat Byte.x41 17.
Proof.
  assert (Hs : supported true OID_AES128 16) by (left; split; reflexivity).
  split; [exact Hs|].
  apply (C1_Decrypt_Encrypt_roundtrip toy_encrypt toy_decrypt true
           toy_encrypt_length toy_decrypt_length toy_decrypt_encrypt
           OID_AES128 16 key_128 seq_0001AABBCCDD (repeat Byte.x41 17) Hs).
  - reflexivity.
  - reflexivity.
  - simpl. tauto.
Defined.

Lemma C5_short_plaintext_3_bytes :
  GetSize (repeat Byte.x41 3) < AES_BLOCK_SIZE
  /\ exists r r',
       Encrypt (H235CryptoEngine_new_key toy_encrypt toy_decrypt true OID_AES192
                 (repeat Byte.x2a 24)) (repeat Byte.x41 3) None
       = Returns r
       /\ rtpPadding_out r = true
       /\ GetSize (bytes r) = AES_BLOCK_SIZE
       /\ Decrypt (engine_after r) (bytes r) None true = Returns r'
       /\ bytes r' = repeat Byte.x41 3.
Proof.
  assert (HL : GetSize (repeat Byte.x41 3) < AES_BLOCK_SIZE) by reflexivity.
  split; [exact HL|].
  apply (C5_short_plaintext_uses_padding toy_encrypt toy_decrypt true
           toy_encrypt_length toy_decrypt_length toy_decrypt_encrypt
           OID_AES192 24 (repeat Byte.x2a 24) (repeat Byte.x41 3) None).
  - right. left. split; reflexivity.
  - reflexivity.
  - exact I.
  - exact HL.
Defined.

Lemma C6_SetIV_16_bytes :
  0 <= 16 <= Z.of_nat (length (PBYTEArray_new 16))
  /\ firstn 16 (SetIV (PBYTEArray_new 16) (Some seq_0001AABBCCDD) 16)
     = seq_0001AABBCCDD ++ seq_0001AABBCCDD ++ firstn 4 seq_0001AABBCCDD.
Proof.
  assert (H : 0 <= 16 <= Z.of_nat (length (PBYTEArray_new 16))) by (simpl; lia).
  split; [exact H|].
  exact (proj1 (proj2 (C6_SetIV_tiles_the_sequence (PBYTEArray_new 16) 16 H)
                  seq_0001AABBCCDD eq_refl)).
Defined.

Lemma C3_cts_20_bytes_ecb :
  let ctx := EVP_CipherInit_ex_key (EVP_aes_ecb toy_encrypt toy_decrypt 16) key_128 1 in
  let P := repeat Byte.x41 20 in
  (fresh_ctx ctx /\ EVP_CIPHER_CTX_mode ctx = EVP_CIPH_ECB_MODE
   /\ GetSize P >= block_size (cipher ctx))
  /\ exists r1,
       EVP_EncryptUpdate_cts ctx P (GetSize P) = Returns r1
       /\ ret r1 = 1
       /\ ret (EVP_EncryptFinal_cts (ctx_after r1)) = 1
       /\ Z.of_nat (length (out_bytes r1)) = outl r1
       /\ Z.of_nat (length (out_bytes (EVP_EncryptFinal_cts (ctx_after r1))))
          = outl (EVP_EncryptFinal_cts (ctx_after r1))
       /\ outl r1 + outl (EVP_EncryptFinal_cts (ctx_after r1)) = GetSize P
       /\ GetSize (out_bytes r1 ++ out_bytes (EVP_EncryptFinal_cts (ctx_after r1)))
          = GetSize P.
Proof.
  intros ctx P.
  assert (Hf : fresh_ctx ctx) by (repeat split; reflexivity).
  assert (Hm : EVP_CIPHER_CTX_mode ctx = EVP_CIPH_ECB_MODE) by reflexivity.
  assert (HL : GetSize P >= block_size (cipher ctx)) by (vm_compute; discriminate).
  split; [auto|].
  apply (C3_cts_keeps_the_length ctx P 4).
  - lia.
  - reflexivity.
  - vm_compute; discriminate.
  - exact Hf.
  - apply (aes_ecb_keeps_length toy_encrypt toy_decrypt
             toy_encrypt_length toy_decrypt_length).
  - left. exact Hm.
  - exact HL.
  - vm_compute; discriminate.
Defined.

Lemma C3_cts_33_bytes_cbc :
  let ctx := EVP_CipherInit_ex_key (EVP_aes_cbc toy_encrypt toy_decrypt 16) key_128 1 in
  let P := repeat Byte.x41 33 in
  exists r1,
    EVP_EncryptUpdate_cts ctx P (GetSize P) = Returns r1
    /\ outl r1 + outl (EVP_EncryptFinal_cts (ctx_after r1)) = 33
    /\ length (out_bytes r1 ++ out_bytes (EVP_EncryptFinal_cts (ctx_after r1)))
       = 33%nat.
Proof.
  intros ctx P. eexists. split; [reflexivity|]. split; reflexivity.
Qed.

Lemma C4_inconsistent_padding_accepted :
  let ctx :=
    set_final_used
      (set_final (EVP_CipherInit_ex_key (EVP_aes_cbc toy_encrypt toy_decrypt 16) key_128 0)
         (repeat Byte.x41 13 ++ [Byte.xff; Byte.x00; Byte.x03] ++ repeat Byte.x00 16))
      1 in
  EVP_DecryptFinal_relaxed ctx = Returns (evp 1 ctx (repeat Byte.x41 13) 13 []).
Proof.
  intros ctx.
  apply (proj1 (C4_relaxed_final_block ctx)).
  - repeat split; try reflexivity; vm_compute; discriminate.
  - vm_compute. split; discriminate.
Defined.

Lemma C7_final_without_pending_block :
  let ctx := EVP_CipherInit_ex_key (EVP_aes_cbc toy_encrypt toy_decrypt 16) key_128 1 in
  final_used ctx = 0
  /\ ret (EVP_EncryptFinal_cts ctx) = 0 /\ outl (EVP_EncryptFinal_cts ctx) = 0
  /\ out_bytes (EVP_EncryptFinal_cts ctx) = []
  /\ cts_error (EVP_EncryptFinal_cts ctx) = Some MissingState
  /\ cts_error (EVP_DecryptFinal_cts ctx) = Some MissingState.
Proof.
  intros ctx.
  assert (H : final_used ctx = 0) by reflexivity.
  split; [exact H|].
  destruct (C7_cts_final_failures ctx (or_introl H))
    as ((H1 & H2 & H3) & _ & H4 & _).
  destruct (H4 (or_introl H)) as [H5 H6].
  repeat split; assumption.
Defined.

Lemma C7_final_in_ofb_mode :
  let ofb := {| block_size := 16; key_len := 16; iv_len := 16; flags := 4;
                do_cipher := aes_cbc_cipher toy_encrypt toy_decrypt |} in
  let ctx := set_buf_len (set_final_used (EVP_CipherInit_ex_key ofb key_128 1) 1) 4 in
  ret (EVP_EncryptFinal_cts ctx) = 0 /\ outl (EVP_EncryptFinal_cts ctx) = 0
  /\ cts_error (EVP_EncryptFinal_cts ctx) = Some UnsupportedMode
  /\ cts_error (EVP_DecryptFinal_cts ctx) = Some UnsupportedMode.
Proof.
  intros ofb ctx. repeat split.
Qed.




(** How [Encrypt] treats a step that fails, seen on a context in OFB mode,
    which the ciphertext-stealing code does not support ([SetKey] never
    installs one): the failure of the final call is traced and the array
    returned is empty. *)
Example Encrypt_only_traces_a_failed_step :
  let ofb := {| block_size := 16; key_len := 16; iv_len := 16; flags := 4;
                do_cipher := aes_cbc_cipher toy_encrypt toy_decrypt |} in
  let e := {| m_algorithmOID := OID_AES128;
              m_encryptCtx := Some (EVP_CipherInit_ex_key ofb key_128 1);
              m_decryptCtx := None |} in
  exists r,
    Encrypt e (repeat Byte.x41 20) None = Returns r
    /\ bytes r = []
    /\ crypt_trace r
       = [msg_unsupported_mode; "H235	EVP_EncryptFinal_cts() failed"%string].
Proof.
  intros ofb e. eexists. split; [reflexivity|]. split; reflexivity.
Qed.

(** *** The further properties at concrete inputs *)

Lemma two_pieces_of_5_and_30_bytes :
  let ctx := EVP_CipherInit_ex_key (EVP_aes_cbc toy_encrypt toy_decrypt 16) key_128 1 in
  let P1 := repeat Byte.x41 5 in
  let P2 := repeat Byte.x42 30 in
  (block_size (cipher ctx) <= EVP_MAX_BLOCK_LENGTH
   /\ Z.of_nat (length (buf ctx)) = EVP_MAX_BLOCK_LENGTH
   /\ final_used ctx = 0 /\ 0 <= buf_len ctx
   /\ buf_len ctx + GetSize P1 <= block_size (cipher ctx))
  /\ exists r1,
       EVP_EncryptUpdate_cts ctx P1 (GetSize P1) = Returns r1
       /\ ret r1 = 1 /\ outl r1 = 0 /\ out_bytes r1 = []
       /\ EVP_EncryptUpdate_cts (ctx_after r1) P2 (GetSize P2)
          = EVP_EncryptUpdate_cts ctx (P1 ++ P2) (GetSize (P1 ++ P2)).
Proof.
  intros ctx P1 P2.
  assert (H1 : block_size (cipher ctx) <= EVP_MAX_BLOCK_LENGTH)
    by (vm_compute; discriminate).
  assert (H2 : Z.of_nat (length (buf ctx)) = EVP_MAX_BLOCK_LENGTH) by reflexivity.
  assert (H3 : final_used ctx = 0) by reflexivity.
  assert (H4 : 0 <= buf_len ctx) by (vm_compute; discriminate).
  assert (H5 : buf_len ctx + GetSize P1 <= block_size (cipher ctx))
    by (vm_compute; discriminate).
  split; [auto|].
  exact (EncryptUpdate_cts_in_two_pieces ctx P1 P2 H1 H2 H3 H4 H5).
Defined.

Lemma cts_decrypt_20_bytes_cbc :
  let ctx := EVP_CipherInit_ex_key (EVP_aes_cbc toy_encrypt toy_decrypt 16) key_128 0 in
  let C := repeat Byte.x41 20 in
  (fresh_ctx ctx /\ EVP_CIPHER_CTX_mode ctx = EVP_CIPH_CBC_MODE
   /\ GetSize C >= block_size (cipher ctx)
   /\ GetSize C mod block_size (cipher ctx) <> 0)
  /\ exists r1,
       EVP_DecryptUpdate_cts ctx C (GetSize C) = Returns r1
       /\ ret r1 = 1
       /\ ret (EVP_DecryptFinal_cts (ctx_after r1)) = 1
       /\ trace (EVP_DecryptFinal_cts (ctx_after r1)) = []
       /\ Z.of_nat (length (out_bytes r1)) = outl r1
       /\ Z.of_nat (length (out_bytes (EVP_DecryptFinal_cts (ctx_after r1))))
          = outl (EVP_DecryptFinal_cts (ctx_after r1))
       /\ outl r1 + outl (EVP_DecryptFinal_cts (ctx_after r1)) = GetSize C.
Proof.
  intros ctx C.
  assert (Hf : fresh_ctx ctx) by (repeat split; reflexivity).
  assert (Hm : EVP_CIPHER_CTX_mode ctx = EVP_CIPH_CBC_MODE) by reflexivity.
  assert (HL : GetSize C >= block_size (cipher ctx)) by (vm_compute; discriminate).
  assert (Hr : GetSize C mod block_size (cipher ctx) <> 0) by (vm_compute; discriminate).
  split; [auto|].
  apply (cts_decrypt_keeps_the_length ctx C 4).
  - lia.
  - reflexivity.
  - vm_compute; discriminate.
  - exact Hf.
  - apply (aes_cbc_keeps_length toy_encrypt toy_decrypt
             toy_encrypt_length toy_decrypt_length).
  - right. exact Hm.
  - exact HL.
  - exact Hr.
Defined.

Lemma cts_ecb_roundtrip_20_bytes :
  let ce := EVP_CipherInit_ex_key (EVP_aes_ecb toy_encrypt toy_decrypt 16) key_128 1 in
  let cd := EVP_CipherInit_ex_key (EVP_aes_ecb toy_encrypt toy_decrypt 16) key_128 0 in
  let P := repeat Byte.x41 20 in
  (fresh_ctx ce /\ fresh_ctx cd /\ cipher_data cd = cipher_data ce
   /\ encrypt ce <> 0 /\ encrypt cd = 0
   /\ (16 <= length P)%nat /\ (length P mod 16 <> 0)%nat)
  /\ exists r1 r1',
       EVP_EncryptUpdate_cts ce P (GetSize P) = Returns r1
       /\ ret r1 = 1 /\ ret (EVP_EncryptFinal_cts (ctx_after r1)) = 1
       /\ let C := out_bytes r1 ++ out_bytes (EVP_EncryptFinal_cts (ctx_after r1)) in
          length C = length P
          /\ EVP_DecryptUpdate_cts cd C (GetSize C) = Returns r1'
          /\ ret r1' = 1 /\ ret (EVP_DecryptFinal_cts (ctx_after r1')) = 1
          /\ out_bytes r1' ++ out_bytes (EVP_DecryptFinal_cts (ctx_after r1')) = P.
Proof.
  intros ce cd P.
  assert (Hfe : fresh_ctx ce) by (repeat split; reflexivity).
  assert (Hfd : fresh_ctx cd) by (repeat split; reflexivity).
  assert (Hk : cipher_data cd = cipher_data ce) by reflexivity.
  assert (He : encrypt ce <> 0) by (vm_compute; discriminate).
  assert (Hd : encrypt cd = 0) by reflexivity.
  assert (HL : (16 <= length P)%nat) by (vm_compute; lia).
  assert (Hr : (length P mod 16 <> 0)%nat) by (vm_compute; discriminate).
  split; [auto 10|].
  exact (cts_ecb_roundtrip toy_encrypt toy_decrypt
           toy_encrypt_length toy_decrypt_encrypt
           ce cd 16 P eq_refl eq_refl Hk He Hd Hfe Hfd HL Hr).
Defined.

Lemma short_ciphertext_of_5_bytes :
  let e := H235CryptoEngine_new_key toy_encrypt toy_decrypt true OID_AES128 key_128 in
  let data := repeat Byte.x41 5 in
  (keyed_engine toy_encrypt toy_decrypt 16 key_128 e
   /\ (0 < length data < 16)%nat)
  /\ exists r,
       Decrypt e data None false = Returns r
       /\ bytes r = []
       /\ crypt_trace r = [msg_expecting_ciphertext;
                           "H235	EVP_DecryptFinal_cts() failed"%string].
Proof.
  intros e data.
  assert (Hk : keyed_engine toy_encrypt toy_decrypt 16 key_128 e).
  { do 2 eexists. repeat split; try reflexivity; left; reflexivity. }
  assert (HL : (0 < length data < 16)%nat) by (vm_compute; lia).
  split; [auto|].
  exact (Decrypt_drops_a_short_ciphertext toy_encrypt toy_decrypt
           e 16 key_128 data None Hk I HL).
Defined.

Lemma two_blocks_flagged_as_padded :
  let e := H235CryptoEngine_new_key toy_encrypt toy_decrypt true OID_AES128 key_128 in
  let data := repeat Byte.x41 32 in
  let M := fst (cbc128_decrypt toy_decrypt key_128 2 (iv_of None) data) in
  let p := uchar_to_int (nth 31 M Byte.x00) in
  (keyed_engine toy_encrypt toy_decrypt 16 key_128 e
   /\ length data = (16 * 2)%nat /\ (1 <= 2)%nat)
  /\ exists r,
       Decrypt e data None true = Returns r
       /\ if (1 <=? p) && (p <=? 16)
          then bytes r = firstn (16 * 2 - Z.to_nat p) M /\ crypt_trace r = []
          else bytes r = firstn (16 * (2 - 1)) M
               /\ crypt_trace r
                  = [msg_bad_decrypt;
                     "H235	EVP_DecryptFinal_ex() failed - incorrect padding ?"%string].
Proof.
  intros e data M p.
  assert (Hk : keyed_engine toy_encrypt toy_decrypt 16 key_128 e).
  { do 2 eexists. repeat split; try reflexivity; left; reflexivity. }
  assert (HL : length data = (16 * 2)%nat) by reflexivity.
  assert (Hn : (1 <= 2)%nat) by lia.
  split; [auto|].
  exact (Decrypt_strips_what_the_last_byte_says toy_encrypt toy_decrypt
           toy_encrypt_length toy_decrypt_length
           e 16 key_128 data None 2 Hk I HL Hn).
Defined.

Lemma any_21_bytes_are_a_ciphertext :
  let e := H235CryptoEngine_new_key toy_encrypt toy_decrypt true OID_AES128 key_128 in
  let data := repeat Byte.x41 21 in
  (keyed_engine toy_encrypt toy_decrypt 16 key_128 e /\ (16 <= length data)%nat)
  /\ exists r,
       Decrypt e data (Some seq_0001AABBCCDD) false = Returns r
       /\ length (bytes r) = length data
       /\ crypt_trace r = [].
Proof.
  intros e data.
  assert (Hk : keyed_engine toy_encrypt toy_decrypt 16 key_128 e).
  { do 2 eexists. repeat split; try reflexivity; left; reflexivity. }
  assert (HL : (16 <= length data)%nat) by (vm_compute; lia).
  split; [auto|].
  exact (Decrypt_accepts_any_ciphertext toy_encrypt toy_decrypt
           toy_encrypt_length toy_decrypt_length
           e 16 key_128 data (Some seq_0001AABBCCDD) Hk eq_refl HL).
Defined.

Lemma partial_block_of_21_bytes_flagged_as_padded :
  let e := H235CryptoEngine_new_key toy_encrypt toy_decrypt true OID_AES128 key_128 in
  let data := repeat Byte.x41 21 in
  (keyed_engine toy_encrypt toy_decrypt 16 key_128 e
   /\ (length data mod 16 <> 0)%nat)
  /\ exists r,
       Decrypt e data None true = Returns r
       /\ bytes r = fst (cbc128_decrypt toy_decrypt key_128 (length data / 16)
                           (iv_of None) data)
       /\ length (bytes r) = (16 * (length data / 16))%nat
       /\ crypt_trace r
          = [msg_wrong_final_block;
             "H235	EVP_DecryptFinal_ex() failed - incorrect padding ?"%string].
Proof.
  intros e data.
  assert (Hk : keyed_engine toy_encrypt toy_decrypt 16 key_128 e).
  { do 2 eexists. repeat split; try reflexivity; left; reflexivity. }
  assert (Hr : (length data mod 16 <> 0)%nat) by (vm_compute; discriminate).
  split; [auto|].
  exact (Decrypt_leaves_out_a_partial_block toy_encrypt toy_decrypt
           toy_encrypt_length toy_decrypt_length
           e 16 key_128 data None Hk I Hr).
Defined.

Lemma nothing_flagged_as_padded :
  let e := H235CryptoEngine_new_key toy_encrypt toy_decrypt true OID_AES128 key_128 in
  keyed_engine toy_encrypt toy_decrypt 16 key_128 e
  /\ exists r,
       Decrypt e [] None true = Returns r
       /\ bytes r = []
       /\ crypt_trace r
          = [msg_wrong_final_block;
             "H235	EVP_DecryptFinal_ex() failed - incorrect padding ?"%string].
Proof.
  intros e.
  assert (Hk : keyed_engine toy_encrypt toy_decrypt 16 key_128 e).
  { do 2 eexists. repeat split; try reflexivity; left; reflexivity. }
  split; [exact Hk|].
  exact (Decrypt_of_nothing toy_encrypt toy_decrypt e 16 key_128 None true Hk I).
Defined.

Lemma seven_bytes_do_not_grow :
  let e := H235CryptoEngine_new_key toy_encrypt toy_decrypt true OID_AES128 key_128 in
  let data := repeat Byte.x41 7 in
  keyed_engine toy_encrypt toy_decrypt 16 key_128 e
  /\ exists r,
       Decrypt e data None true = Returns r
       /\ (length (bytes r) <= length data)%nat
       /\ rtpPadding_out r = true
       /\ keyed_engine toy_encrypt toy_decrypt 16 key_128 (engine_after r).
Proof.
  intros e data.
  assert (Hk : keyed_engine toy_encrypt toy_decrypt 16 key_128 e).
  { do 2 eexists. repeat split; try reflexivity; left; reflexivity. }
  split; [exact Hk|].
  exact (Decrypt_never_grows_and_stays_keyed toy_encrypt toy_decrypt
           toy_encrypt_length toy_decrypt_length
           e 16 key_128 data None true Hk I).
Defined.

Lemma second_Encrypt_after_a_first :
  let e := H235CryptoEngine_new_key toy_encrypt toy_decrypt true OID_AES128 key_128 in
  let P := repeat Byte.x41 20 in
  let P' := repeat Byte.x42 3 in
  keyed_engine toy_encrypt toy_decrypt 16 key_128 e
  /\ exists r r1 r2,
       Encrypt e P None = Returns r
       /\ keyed_engine toy_encrypt toy_decrypt 16 key_128 (engine_after r)
       /\ Encrypt (engine_after r) P' (Some seq_0001AABBCCDD) = Returns r1
       /\ Encrypt e P' (Some seq_0001AABBCCDD) = Returns r2
       /\ bytes r1 = bytes r2
       /\ rtpPadding_out r1 = rtpPadding_out r2.
Proof.
  intros e P P'.
  assert (Hk : keyed_engine toy_encrypt toy_decrypt 16 key_128 e).
  { do 2 eexists. repeat split; try reflexivity; left; reflexivity. }
  split; [exact Hk|].
  exact (Encrypt_ignores_earlier_calls toy_encrypt toy_decrypt
           toy_encrypt_length toy_decrypt_length
           e 16 key_128 P P' None (Some seq_0001AABBCCDD) Hk I eq_refl).
Defined.

Lemma ReadFrame_of_a_5_byte_frame :
  let dh := {| ComputeSessionKey := repeat Byte.x11 16 |} in
  let s :=
    snd (CreateSession toy_encrypt toy_decrypt true
           (H235Session_new dh OID_AES128) true (repeat Byte.x07 16)) in
  let frame := {| payload := repeat Byte.x41 5; padding := false |} in
  keyed_engine toy_encrypt toy_decrypt 16 (repeat Byte.x07 16) (m_context s)
  /\ exists s2 f2,
       ReadFrame s frame = Returns (true, s2, f2)
       /\ (length (payload f2) <= length (payload frame))%nat
       /\ padding f2 = padding frame
       /\ keyed_engine toy_encrypt toy_decrypt 16 (repeat Byte.x07 16) (m_context s2).
Proof.
  intros dh s frame.
  assert (Hk : keyed_engine toy_encrypt toy_decrypt 16 (repeat Byte.x07 16)
                 (m_context s)).
  { do 2 eexists. repeat split; try reflexivity; left; reflexivity. }
  split; [exact Hk|].
  exact (ReadFrame_takes_any_frame toy_encrypt toy_decrypt
           toy_encrypt_length toy_decrypt_length
           s 16 (repeat Byte.x07 16) frame Hk).
Defined.

Lemma frame_of_20_bytes_between_two_sessions :
  let dh := {| ComputeSessionKey := repeat Byte.x11 16 |} in
  let m :=
    snd (CreateSession toy_encrypt toy_decrypt true
           (H235Session_new dh OID_AES128) true (repeat Byte.x07 16)) in
  let frame := {| payload := repeat Byte.x41 20; padding := false |} in
  (keyed_engine toy_encrypt toy_decrypt 16 (repeat Byte.x07 16) (m_context m)
   /\ padding frame = (GetSize (payload frame) <? 16))
  /\ exists m2 s2 f1 f2,
       WriteFrame m frame = Returns (true, m2, f1)
       /\ ReadFrame m f1 = Returns (true, s2, f2)
       /\ payload f2 = payload frame
       /\ keyed_engine toy_encrypt toy_decrypt 16 (repeat Byte.x07 16) (m_context m2)
       /\ keyed_engine toy_encrypt toy_decrypt 16 (repeat Byte.x07 16) (m_context s2).
Proof.
  intros dh m frame.
  assert (Hk : keyed_engine toy_encrypt toy_decrypt 16 (repeat Byte.x07 16)
                 (m_context m)).
  { do 2 eexists. repeat split; try reflexivity; left; reflexivity. }
  assert (Hp : padding frame = (GetSize (payload frame) <? 16)) by reflexivity.
  split; [auto|].
  exact (frames_round_trip_and_sessions_stay_keyed toy_encrypt toy_decrypt
           toy_encrypt_length toy_decrypt_length toy_decrypt_encrypt
           m m 16 (repeat Byte.x07 16) frame Hk Hk Hp).
Defined.

Lemma WriteFrame_of_the_same_payload_twice :
  let dh := {| ComputeSessionKey := repeat Byte.x11 16 |} in
  let s :=
    snd (CreateSession toy_encrypt toy_decrypt true
           (H235Session_new dh OID_AES128) true (repeat Byte.x07 16)) in
  let f := {| payload := repeat Byte.x41 20; padding := false |} in
  let g := {| payload := repeat Byte.x41 20; padding := true |} in
  (keyed_engine toy_encrypt toy_decrypt 16 (repeat Byte.x07 16) (m_context s)
   /\ payload g = payload f)
  /\ exists s2 f1 s2' g1,
       WriteFrame s f = Returns (true, s2, f1)
       /\ WriteFrame s g = Returns (true, s2', g1)
       /\ payload f1
          = expected_ciphertext toy_encrypt (repeat Byte.x07 16) (repeat Byte.x00 16)
              (payload f)
       /\ payload g1 = payload f1
       /\ padding f1 = padding f
       /\ keyed_engine toy_encrypt toy_decrypt 16 (repeat Byte.x07 16) (m_context s2).
Proof.
  intros dh s f g.
  assert (Hk : keyed_engine toy_encrypt toy_decrypt 16 (repeat Byte.x07 16)
                 (m_context s)).
  { do 2 eexists. repeat split; try reflexivity; left; reflexivity. }
  assert (Hfg : payload g = payload f) by reflexivity.
  split; [auto|].
  exact (WriteFrame_uses_the_zero_IV toy_encrypt toy_decrypt
           toy_encrypt_length toy_decrypt_length
           s s 16 (repeat Byte.x07 16) f g Hk Hk Hfg).
Defined.

Lemma handshake_with_AES192 :
  let dh := {| ComputeSessionKey := repeat Byte.x11 24 |} in
  let master :=
    snd (CreateSession toy_encrypt toy_decrypt true
           (H235Session_new dh OID_AES192) true (repeat Byte.x07 24)) in
  let slave :=
    snd (CreateSession toy_encrypt toy_decrypt true
           (H235Session_new dh OID_AES192) false []) in
  let mk := RAND_bytes (repeat Byte.x07 24) 24 in
  (supported true OID_AES192 24
   /\ (Z.to_nat 24 <= length (ComputeSessionKey dh))%nat)
  /\ exists ek master' slave',
       EncodeMediaKey master = Returns (ek, master')
       /\ DecodeMediaKey toy_encrypt toy_decrypt true slave ek = Returns slave'
       /\ length ek = Z.to_nat 24
       /\ m_crytoMasterKey master' = mk
       /\ m_crytoMasterKey slave' = mk
       /\ keyed_engine toy_encrypt toy_decrypt 24 mk (m_context master')
       /\ keyed_engine toy_encrypt toy_decrypt 24 mk (m_context slave').
Proof.
  intros dh master slave mk.
  assert (Hs : supported true OID_AES192 24) by (right; left; split; reflexivity).
  assert (Hdh : (Z.to_nat 24 <= length (ComputeSessionKey dh))%nat)
    by (vm_compute; lia).
  split; [auto|].
  exact (handshake_keys_both_sessions toy_encrypt toy_decrypt true
           toy_encrypt_length toy_decrypt_length toy_decrypt_encrypt
           dh OID_AES192 24 (repeat Byte.x07 24) [] Hs Hdh).
Defined.

Lemma DecodeMediaKey_of_40_bytes :
  let dh := {| ComputeSessionKey := repeat Byte.x11 16 |} in
  let s :=
    snd (CreateSession toy_encrypt toy_decrypt true
           (H235Session_new dh OID_AES128) false []) in
  let ek := repeat Byte.x41 40 in
  (keyed_engine toy_encrypt toy_decrypt 16 (repeat Byte.x11 16) (m_dhcontext s)
   /\ supported true (m_algorithmOID (m_context s)) 16
   /\ (Z.to_nat 16 <= length ek)%nat)
  /\ exists s',
       DecodeMediaKey toy_encrypt toy_decrypt true s ek = Returns s'
       /\ length (m_crytoMasterKey s') = length ek
       /\ keyed_engine toy_encrypt toy_decrypt 16
            (firstn (Z.to_nat 16) (m_crytoMasterKey s')) (m_context s').
Proof.
  intros dh s ek.
  assert (Hk : keyed_engine toy_encrypt toy_decrypt 16 (repeat Byte.x11 16)
                 (m_dhcontext s)).
  { do 2 eexists. repeat split; try reflexivity; left; reflexivity. }
  assert (Hs : supported true (m_algorithmOID (m_context s)) 16)
    by (left; split; reflexivity).
  assert (HL : (Z.to_nat 16 <= length ek)%nat) by (vm_compute; lia).
  split; [auto|].
  exact (DecodeMediaKey_takes_any_key toy_encrypt toy_decrypt true
           toy_encrypt_length toy_decrypt_length
           s 16 (repeat Byte.x11 16) ek Hk Hs HL).
Defined.

Lemma frames_on_a_slave_before_its_key :
  let dh := {| ComputeSessionKey := repeat Byte.x11 32 |} in
  let frame := {| payload := repeat Byte.x41 20; padding := false |} in
  let fresh := H235Session_new dh OID_AES128 in
  let slave := snd (CreateSession toy_encrypt toy_decrypt true fresh false []) in
  (forall keylen : Z,
      supported true OID_AES128 keylen ->
      (Z.to_nat keylen <= length (ComputeSessionKey dh))%nat)
  /\ WriteFrame fresh frame = Undefined /\ ReadFrame fresh frame = Undefined
  /\ EncodeMediaKey fresh = Undefined
  /\ fst (CreateSession toy_encrypt toy_decrypt true fresh false []) = true
  /\ IsInitialised slave = true
  /\ WriteFrame slave frame = Undefined /\ ReadFrame slave frame = Undefined.
Proof.
  intros dh frame fresh slave.
  assert (Hdh : forall keylen : Z,
             supported true OID_AES128 keylen ->
             (Z.to_nat keylen <= length (ComputeSessionKey dh))%nat).
  { intros keylen [[_ ->] | [[_ ->] | (_ & -> & _)]]; vm_compute; lia. }
  split; [exact Hdh|].
  exact (frames_before_the_media_key toy_encrypt toy_decrypt true
           dh OID_AES128 [] frame Hdh).
Defined.

Lemma session_of_algorithm_1_2_3 :
  let dh := {| ComputeSessionKey := repeat Byte.x11 16 |} in
  let frame := {| payload := repeat Byte.x41 20; padding := false |} in
  let s :=
    snd (CreateSession toy_encrypt toy_decrypt true
           (H235Session_new dh "1.2.3") true (repeat Byte.x07 16)) in
  select_cipher toy_encrypt toy_decrypt true "1.2.3" = None
  /\ fst (CreateSession toy_encrypt toy_decrypt true
            (H235Session_new dh "1.2.3") true (repeat Byte.x07 16)) = true
  /\ IsInitialised s = true /\ IsActive s = false
  /\ m_crytoMasterKey s = []
  /\ EncodeMediaKey s = Undefined
  /\ DecodeMediaKey toy_encrypt toy_decrypt true s key_128 = Undefined
  /\ WriteFrame s frame = Undefined /\ ReadFrame s frame = Undefined.
Proof.
  intros dh frame s.
  assert (Hn : select_cipher toy_encrypt toy_decrypt true "1.2.3" = None)
    by reflexivity.
  split; [exact Hn|].
  exact (session_of_an_unsupported_algorithm toy_encrypt toy_decrypt true
           dh "1.2.3" true (repeat Byte.x07 16) key_128 frame Hn).
Defined.

Lemma GenerateRandomKey_for_AES256 :
  let e := H235CryptoEngine_new OID_AES256 in
  let rnd := repeat Byte.x07 40 in
  supported true (m_algorithmOID e) 32
  /\ exists e',
       GenerateRandomKey toy_encrypt toy_decrypt true e rnd
       = (RAND_bytes rnd 32, e', [])
       /\ GetSize (RAND_bytes rnd 32) = 32
       /\ keyed_engine toy_encrypt toy_decrypt 32 (RAND_bytes rnd 32) e'.
Proof.
  intros e rnd.
  assert (Hs : supported true (m_algorithmOID e) 32)
    by (right; right; repeat split; reflexivity).
  split; [exact Hs|].
  exact (proj1 (GenerateRandomKey_keys_the_engine toy_encrypt toy_decrypt true e rnd)
           32 Hs).
Defined.

Lemma GenerateRandomKey_oid_asked_for_AES256_on_AES192 :
  let e := H235CryptoEngine_new OID_AES192 in
  let rnd := repeat Byte.x07 40 in
  (OID_AES256 <> OID_AES128 /\ m_algorithmOID e = OID_AES192)
  /\ GenerateRandomKey_oid true e OID_AES256 rnd = (RAND_bytes rnd 24, [])
  /\ GetSize (RAND_bytes rnd 24) = 24.
Proof.
  intros e rnd.
  assert (Hne : OID_AES256 <> OID_AES128) by discriminate.
  assert (Hm : m_algorithmOID e = OID_AES192) by reflexivity.
  split; [auto|].
  exact (proj1 (GenerateRandomKey_oid_answers_for_the_engine true e OID_AES256 rnd Hne)
           Hm).
Defined.

Lemma roundtrip_of_the_empty_plaintext :
  let e := H235CryptoEngine_new_key toy_encrypt toy_decrypt true OID_AES128 key_128 in
  keyed_engine toy_encrypt toy_decrypt 16 key_128 e
  /\ exists r r',
       Encrypt e [] (Some seq_0001AABBCCDD) = Returns r
       /\ rtpPadding_out r = (GetSize [] <? 16)
       /\ length (bytes r) = (if GetSize [] <? 16 then 16%nat else length (@nil byte))
       /\ crypt_trace r = []
       /\ Decrypt e (bytes r) (Some seq_0001AABBCCDD) (rtpPadding_out r) = Returns r'
       /\ bytes r' = [] /\ crypt_trace r' = [].
Proof.
  intros e.
  assert (Hk : keyed_engine toy_encrypt toy_decrypt 16 key_128 e).
  { do 2 eexists. repeat split; try reflexivity; left; reflexivity. }
  split; [exact Hk|].
  exact (Decrypt_inverts_Encrypt_at_every_length toy_encrypt toy_decrypt
           toy_encrypt_length toy_decrypt_length toy_decrypt_encrypt
           e e 16 key_128 [] (Some seq_0001AABBCCDD) Hk Hk eq_refl).
Defined.

Lemma Encrypt_of_37_bytes :
  let e := H235CryptoEngine_new_key toy_encrypt toy_decrypt true OID_AES128 key_128 in
  let P := repeat Byte.x41 37 in
  let ivec := iv_of (Some seq_0001AABBCCDD) in
  let C := fst (cbc128_encrypt toy_encrypt key_128 3 ivec
                  (P ++ repeat Byte.x00 11)) in
  keyed_engine toy_encrypt toy_decrypt 16 key_128 e
  /\ exists res,
       Encrypt e P (Some seq_0001AABBCCDD) = Returns res
       /\ bytes res = firstn 16 C ++ skipn 32 C ++ firstn 5 (skipn 16 C).
Proof.
  intros e P ivec C.
  assert (Hk : keyed_engine toy_encrypt toy_decrypt 16 key_128 e).
  { do 2 eexists. repeat split; try reflexivity; left; reflexivity. }
  split; [exact Hk|].
  exact (Encrypt_is_CBC_with_stealing toy_encrypt toy_decrypt
           toy_encrypt_length toy_decrypt_length
           e 16 key_128 P (Some seq_0001AABBCCDD) Hk eq_refl).
Defined.
